(** * mammon: the client session, the router and SASL PLAIN

    A shallow embedding of [mammon/client.py] (class [ClientProtocol]),
    of [mammon/ext/ircv3/sasl.py] and of the loop of
    [ServerContext.shutdown] in [mammon/server.py], with the statements
    of the session specification proved or refuted on it, and further
    properties of the same code.

    Conventions.
    - A Python [str] is a [string] holding the UTF-8 encoding of the text;
      [py_len] and [py_chars] count and enumerate characters, not bytes.
      A Python [bytes] value is a [string] of raw bytes.
    - Objects with identity ([ClientProtocol], [Channel]) live in a store
      and are named by their address ([sid], [cid]); Python's [==] and
      [in] on them is comparison of addresses.
    - A function that can raise returns an [outcome]: the store at the
      normal return, or the exception with the store at the raise.
    - Wall-clock stamps ([last_event_ts], [registration_ts]) are floats
      and are left out of the session record; a timer handle is kept as
      its cancelled flag. *)

From Stdlib Require Import ZArith String Ascii List Lia DecimalString.
From stdpp Require Import base gmap strings list.

Open Scope string_scope.
Open Scope list_scope.

#[local] Set Warnings "-clear-no-such-hyp".

(** ** Text and bytes *)

Module Text.

Definition NUL : ascii := "000"%char.

Definition byte_in (lo hi : N) (c : ascii) : bool :=
  ((lo <=? N_of_ascii c) && (N_of_ascii c <=? hi))%N.

(** A UTF-8 continuation byte, [10xxxxxx]. *)
Definition is_cont (c : ascii) : bool := byte_in 128 191 c.

(** [bytes.split(b'\x00')]: the pieces between NUL bytes, one more than
    there are NULs. *)
Fixpoint split_nul (s : string) : list string :=
  match s with
  | EmptyString => [EmptyString]
  | String c s' =>
      if Ascii.eqb c NUL then EmptyString :: split_nul s'
      else match split_nul s' with
           | h :: t => String c h :: t
           | [] => [String c EmptyString]
           end
  end.

Fixpoint count_nul (s : string) : nat :=
  match s with
  | EmptyString => 0
  | String c s' => (if Ascii.eqb c NUL then 1 else 0) + count_nul s'
  end.

(** The strict UTF-8 decoder behind [str(b, 'utf8')] accepts exactly the
    well-formed sequences of RFC 3629 (no overlong forms, no surrogates,
    nothing above U+10FFFF). *)
Fixpoint utf8_valid (s : string) : bool :=
  match s with
  | EmptyString => true
  | String b0 r0 =>
      if byte_in 0 127 b0 then utf8_valid r0 else
      match r0 with
      | EmptyString => false
      | String b1 r1 =>
          if byte_in 194 223 b0 then is_cont b1 && utf8_valid r1 else
          match r1 with
          | EmptyString => false
          | String b2 r2 =>
              if byte_in 224 239 b0 then
                (if byte_in 224 224 b0 then byte_in 160 191 b1
                 else if byte_in 237 237 b0 then byte_in 128 159 b1
                 else is_cont b1)
                && is_cont b2 && utf8_valid r2
              else
              match r2 with
              | EmptyString => false
              | String b3 r3 =>
                  if byte_in 240 244 b0 then
                    (if byte_in 240 240 b0 then byte_in 144 191 b1
                     else if byte_in 244 244 b0 then byte_in 128 143 b1
                     else is_cont b1)
                    && is_cont b2 && is_cont b3 && utf8_valid r3
                  else false
              end
          end
      end
  end.

(** [str(b, 'utf8')]: the text, or [None] where Python raises
    [UnicodeDecodeError]. *)
Definition utf8_decode (b : string) : option string :=
  if utf8_valid b then Some b else None.

Fixpoint chars_from (lead : string) (s : string) : list string :=
  match s with
  | EmptyString => [lead]
  | String c s' =>
      if is_cont c then chars_from (lead +:+ String c EmptyString) s'
      else lead :: chars_from (String c EmptyString) s'
  end.

(** Iterating a [str]: its characters, each a one-character [str]. *)
Definition py_chars (s : string) : list string :=
  match s with
  | EmptyString => []
  | String c s' => chars_from (String c EmptyString) s'
  end.

(** [len(s)] of a [str]. *)
Definition py_len (s : string) : nat := length (py_chars s).

(** [''.join(l)]. *)
Definition join (l : list string) : string := fold_right String.append "" l.

(** Truthiness of a [str]. *)
Definition nonempty (s : string) : bool :=
  match s with EmptyString => false | _ => true end.

(** Whether [s.encode('ascii')] succeeds: a character outside ASCII is
    one whose encoding has a byte above 127. *)
Fixpoint is_ascii (s : string) : bool :=
  match s with
  | EmptyString => true
  | String c s' => byte_in 0 127 c && is_ascii s'
  end.

End Text.
Import Text.

(** ** Data model *)

Definition sid := nat.
Definition cid := nat.

(** The [source] of an [RFC1459Message]: absent, a string, or a session. *)
Inductive Source :=
| SrcNone
| SrcName (name : string)
| SrcClient (c : sid).

Record Message := mkMessage {
  tags : gmap string string;
  source : Source;
  verb : string;
  params : list string
}.

(** [RFC1459Message.from_data(verb, source=..., params=...)]. *)
Definition from_data (v : string) (src : Source) (ps : list string) : Message :=
  {| tags := ∅; source := src; verb := v; params := ps |}.

(** A handle returned by [call_later]; [cancel()] sets the flag. *)
Record Timer := mkTimer { cancelled : bool }.

Definition cancel (t : option Timer) : option Timer :=
  match t with
  | Some _ => Some (mkTimer true)
  | None => None
  end.

Record Session := mkSession {
  nickname : string;
  username : string;
  hostname : string;
  realname : string;
  account : option string;
  caps : gmap string string;          (* keyed by the folded capability name *)
  props : gmap string bool;           (* keyed by the folded property key *)
  tls : option (string * string * string);  (* the cipher triple when on TLS *)
  connected : bool;
  registered : bool;
  registration_lock : gset string;
  recvq : list Message;
  channels : list cid;                (* membership records, by their channel *)
  sasl : option string;
  ping_future : option Timer;
  ping_timeout_future : option Timer;
  transport_closed : bool;
  sent : list Message                 (* messages written to the transport *)
}.

Definition set_account (v : option string) (s : Session) : Session :=
  mkSession (nickname s) (username s) (hostname s) (realname s) v (caps s)
    (props s) (tls s) (connected s) (registered s) (registration_lock s)
    (recvq s) (channels s) (sasl s) (ping_future s) (ping_timeout_future s)
    (transport_closed s) (sent s).

Definition set_props (v : gmap string bool) (s : Session) : Session :=
  mkSession (nickname s) (username s) (hostname s) (realname s) (account s)
    (caps s) v (tls s) (connected s) (registered s) (registration_lock s)
    (recvq s) (channels s) (sasl s) (ping_future s) (ping_timeout_future s)
    (transport_closed s) (sent s).

Definition set_connected (v : bool) (s : Session) : Session :=
  mkSession (nickname s) (username s) (hostname s) (realname s) (account s)
    (caps s) (props s) (tls s) v (registered s) (registration_lock s)
    (recvq s) (channels s) (sasl s) (ping_future s) (ping_timeout_future s)
    (transport_closed s) (sent s).

Definition set_registered (v : bool) (s : Session) : Session :=
  mkSession (nickname s) (username s) (hostname s) (realname s) (account s)
    (caps s) (props s) (tls s) (connected s) v (registration_lock s)
    (recvq s) (channels s) (sasl s) (ping_future s) (ping_timeout_future s)
    (transport_closed s) (sent s).

Definition set_registration_lock (v : gset string) (s : Session) : Session :=
  mkSession (nickname s) (username s) (hostname s) (realname s) (account s)
    (caps s) (props s) (tls s) (connected s) (registered s) v
    (recvq s) (channels s) (sasl s) (ping_future s) (ping_timeout_future s)
    (transport_closed s) (sent s).

Definition set_recvq (v : list Message) (s : Session) : Session :=
  mkSession (nickname s) (username s) (hostname s) (realname s) (account s)
    (caps s) (props s) (tls s) (connected s) (registered s)
    (registration_lock s) v (channels s) (sasl s) (ping_future s)
    (ping_timeout_future s) (transport_closed s) (sent s).

Definition set_channels (v : list cid) (s : Session) : Session :=
  mkSession (nickname s) (username s) (hostname s) (realname s) (account s)
    (caps s) (props s) (tls s) (connected s) (registered s)
    (registration_lock s) (recvq s) v (sasl s) (ping_future s)
    (ping_timeout_future s) (transport_closed s) (sent s).

Definition set_sasl (v : option string) (s : Session) : Session :=
  mkSession (nickname s) (username s) (hostname s) (realname s) (account s)
    (caps s) (props s) (tls s) (connected s) (registered s)
    (registration_lock s) (recvq s) (channels s) v (ping_future s)
    (ping_timeout_future s) (transport_closed s) (sent s).

Definition set_timers (p q : option Timer) (s : Session) : Session :=
  mkSession (nickname s) (username s) (hostname s) (realname s) (account s)
    (caps s) (props s) (tls s) (connected s) (registered s)
    (registration_lock s) (recvq s) (channels s) (sasl s) p q
    (transport_closed s) (sent s).

Definition set_transport_closed (v : bool) (s : Session) : Session :=
  mkSession (nickname s) (username s) (hostname s) (realname s) (account s)
    (caps s) (props s) (tls s) (connected s) (registered s)
    (registration_lock s) (recvq s) (channels s) (sasl s) (ping_future s)
    (ping_timeout_future s) v (sent s).

Definition set_sent (v : list Message) (s : Session) : Session :=
  mkSession (nickname s) (username s) (hostname s) (realname s) (account s)
    (caps s) (props s) (tls s) (connected s) (registered s)
    (registration_lock s) (recvq s) (channels s) (sasl s) (ping_future s)
    (ping_timeout_future s) (transport_closed s) v.

Definition client_registration_locks : list string := ["NICK"; "USER"; "DNS"].

(** The attributes that [connection_made] assigns to a new session, up to
    the empty set of registration locks; [peer] is [peername[0]], an
    IPv6 address that begins with a colon getting a leading zero. *)
Definition new_session (peer : string) (cipher : option (string * string * string))
    : Session :=
  let addr := match peer with
              | String ":" _ => "0" +:+ peer
              | _ => peer
              end in
  {| nickname := "*"; username := ""; hostname := addr;
     realname := "<unregistered>"; account := None; caps := ∅; props := ∅;
     tls := cipher; connected := true; registered := false;
     registration_lock := ∅; recvq := []; channels := []; sasl := None;
     ping_future := None; ping_timeout_future := None;
     transport_closed := false; sent := [] |}.

#[global] Instance Session_inhabited : Inhabited Session :=
  populate (new_session "" None).

(** [ClientHistoryEntry]. *)
Record ClientHistoryEntry := mkHistory {
  h_nickname : string;
  h_username : string;
  h_hostname : string;
  h_realname : string;
  h_account : option string
}.

(** An entry of the data store under [account.<name>]. *)
Record AccountInfo := mkAccountInfo {
  credentials_passphrase : option string;
  verified : bool
}.

(** A value of the ISUPPORT table. *)
Inductive IsupportValue :=
| VBool (b : bool)
| VInt (z : Z)
| VStr (s : string).

(** The parts of [ctx.conf] and of the module constants the session reads. *)
Record Config := mkConfig {
  conf_name : string;
  conf_network : string;
  recvq_len : Z;
  version : string;
  startstamp : string
}.

(** The server context together with the object store. *)
Record World := mkWorld {
  sessions : gmap sid Session;
  chan_members : gmap cid (list sid);   (* Channel.members, by their client *)
  clients : gmap string sid;            (* keyed by the folded nickname *)
  client_history : list (string * ClientHistoryEntry);
  data : gmap string AccountInfo;
  isupport_tokens : list (string * IsupportValue);
  valid_mechanisms : list string;
  conf : Config
}.

Definition set_sessions (v : gmap sid Session) (w : World) : World :=
  mkWorld v (chan_members w) (clients w) (client_history w) (data w)
    (isupport_tokens w) (valid_mechanisms w) (conf w).

Definition set_chan_members (v : gmap cid (list sid)) (w : World) : World :=
  mkWorld (sessions w) v (clients w) (client_history w) (data w)
    (isupport_tokens w) (valid_mechanisms w) (conf w).

Definition set_clients (v : gmap string sid) (w : World) : World :=
  mkWorld (sessions w) (chan_members w) v (client_history w) (data w)
    (isupport_tokens w) (valid_mechanisms w) (conf w).

Definition set_client_history (v : list (string * ClientHistoryEntry)) (w : World) : World :=
  mkWorld (sessions w) (chan_members w) (clients w) v (data w)
    (isupport_tokens w) (valid_mechanisms w) (conf w).

Definition sess (w : World) (c : sid) : Session := sessions w !!! c.

Definition upd (c : sid) (f : Session → Session) (w : World) : World :=
  set_sessions (<[c := f (sess w c)]> (sessions w)) w.

Definition members (w : World) (ch : cid) : list sid :=
  default [] (chan_members w !! ch).

(** Exceptions that the modelled code lets escape. *)
Inductive exn :=
| KeyError (key : string)
| IndexError
| ValueError
| UnicodeDecodeError.

Inductive outcome :=
| Returned (w : World)
| Raised (e : exn) (w : World).

Definition final (o : outcome) : World :=
  match o with Returned w => w | Raised _ w => w end.

Definition raised (o : outcome) : option exn :=
  match o with Returned _ => None | Raised e _ => Some e end.

(** Python dictionaries whose iteration order is read are kept as the
    list of their items. *)
Fixpoint dict_get {V : Type} (k : string) (d : list (string * V)) : option V :=
  match d with
  | [] => None
  | (k', v) :: d' => if String.eqb k k' then Some v else dict_get k d'
  end.

(** Modelled from the spec: [uniq] of [mammon/utility.py], which is not
    among the sources; the sequence de-duplicated, first occurrences
    kept. *)
Definition uniq (input : list sid) : list sid :=
  fold_left (fun output x => if bool_decide (x ∈ output) then output else output ++ [x])
            input [].

(** [list.remove(x)]: drops the first occurrence. *)
Fixpoint list_remove (x : sid) (l : list sid) : list sid :=
  match l with
  | [] => []
  | y :: l' => if bool_decide (y = x) then l' else y :: list_remove x l'
  end.

Definition string_of_Z (z : Z) : string := NilZero.string_of_int (Z.to_int z).

(** Truthiness of an optional [str] attribute. *)
Definition truthy (o : option string) : bool :=
  match o with
  | Some s => nonempty s
  | None => false
  end.

(** ** Notions of the specification *)

(** Invariant (a): registered exactly when no registration lock is held. *)
Definition lock_invariant (s : Session) : Prop :=
  registered s = true ↔ registration_lock s = ∅.

(** The welcome numerics a session was sent; [register] sends one. *)
Definition welcomes (s : Session) : nat :=
  length (List.filter (fun m => String.eqb (verb m) "001") (sent s)).

(** The grouped diff of a MODE line, following the specification: the
    changes in table order, cut into maximal runs of one sign, each run
    written as its sign followed by its letters. *)
Fixpoint runs (l : list (bool * string)) : list (bool * list string) :=
  match l with
  | [] => []
  | (sg, x) :: l' =>
      match runs l' with
      | (sg', xs) :: rs =>
          if Bool.eqb sg sg' then (sg, x :: xs) :: rs
          else (sg, [x]) :: (sg', xs) :: rs
      | [] => [(sg, [x])]
      end
  end.

Definition sign (sg : bool) : string := if sg then "+" else "-".

Definition render_runs (rs : list (bool * list string)) : string :=
  join (map (fun r => sign (fst r) +:+ join (snd r)) rs).

(** A relation between the states of every session before and after. *)
Definition frame (R : Session → Session → Prop) (w w' : World) : Prop :=
  ∀ d, R (sess w d) (sess w' d).

(** Same registration state and as many welcomes. *)
Definition same_reg (s s' : Session) : Prop :=
  registered s' = registered s
  ∧ registration_lock s' = registration_lock s
  ∧ welcomes s' = welcomes s.

(** What one operation may do to the registration state: the invariant
    is kept, a registered session stays registered, and a welcome is
    sent exactly when the session becomes registered. *)
Definition reg_step (s s' : Session) : Prop :=
  (lock_invariant s → lock_invariant s')
  ∧ (registered s = true → registered s' = true)
  ∧ welcomes s' = welcomes s
                  + (if negb (registered s) && registered s' then 1 else 0).

(** As much written to the transport. *)
Definition same_sent (s s' : Session) : Prop := sent s' = sent s.

(** Same queue of pending messages. *)
Definition same_recvq (s s' : Session) : Prop := recvq s' = recvq s.

(** The replies of the PLAIN handler, as [dump_numeric] builds them. *)
Definition numeric_900 (w : World) (c : sid) (hm acct : string) : Message :=
  from_data "900" (SrcName (conf_name (conf w)))
    [nickname (sess w c); hm; acct; "You are now logged in as " +:+ acct].

Definition numeric_903 (w : World) (c : sid) : Message :=
  from_data "903" (SrcName (conf_name (conf w)))
    [nickname (sess w c); "SASL authentication successful"].

Definition numeric_904 (w : World) (c : sid) : Message :=
  from_data "904" (SrcName (conf_name (conf w)))
    [nickname (sess w c); "SASL authentication failed"].

(** The grouped diff written in one pass, [prev] being the sign last
    written. *)
Fixpoint render_from (prev : option bool) (l : list (bool * string)) : string :=
  match l with
  | [] => ""
  | (sg, x) :: l' =>
      (if bool_decide (prev = Some sg) then "" else sign sg)
      +:+ x +:+ render_from (Some sg) l'
  end.

(** The counter [mod] of [flush_legacy_mode_change]. *)
Definition mod_of (prev : option bool) : nat :=
  match prev with
  | None => 0
  | Some false => 1
  | Some true => 2
  end.

(** Neighbouring runs differ in sign, and no run is empty. *)
Fixpoint alternating (rs : list (bool * list string)) : Prop :=
  match rs with
  | [] => True
  | r :: rs' =>
      snd r ≠ []
      ∧ match rs' with
        | [] => True
        | r' :: _ => fst r ≠ fst r'
        end
      ∧ alternating rs'
  end.

(** Differing from [s] in [props] and [sent] at most. *)
Definition same_but_props_sent (s s' : Session) : Prop :=
  s' = set_props (props s') (set_sent (sent s') s).

(** ** The session operations *)

(** Functions of Python and tables of modules outside the sources, as an
    interface the operations are written against. *)
Class Externals := {
  casefold : string → string;
    (* str.casefold: canonical form of the keys of the case-insensitive
       containers, and of the mechanism name in the SASL topic *)
  str_upper : string → string;             (* str.upper *)
  b64decode : string → option string;
    (* base64.b64decode on ASCII text; None where it raises
       binascii.Error *)
  hashing_verify : string → string → bool; (* ctx.hashing.verify *)
  user_property_items : list (string * string);
    (* mammon.property: property key -> mode letter *)
  user_mode_items : list (string * string)
    (* mammon.property: mode letter -> property key *)
}.

Section Mammon.

Context `{Externals}.

(** *** Outbound *)

Definition hostmask (s : Session) : option string :=
  if negb (registered s) then None
  else Some (nickname s +:+
             (if nonempty (username s) then
                "!" +:+ username s +:+
                (if nonempty (hostname s) then "@" +:+ hostname s else "")
              else "")).

(** [cap in cli.caps]. *)
Definition has_cap (cap : string) (s : Session) : bool :=
  bool_decide (is_Some (caps s !! casefold cap)).

(** The copy of a message that recipient [c] is sent: a session source
    is replaced by its hostmask, and tagged with its account when the
    recipient negotiated account-tag.  The topic
    'outbound message postprocess' has no subscriber in the sources. *)
Definition outbound (c : sid) (m : Message) (w : World) : Message :=
  match source m with
  | SrcClient src =>
      {| tags := if has_cap "account-tag" (sess w c)
                 then <["account" := default "*" (account (sess w src))]> (tags m)
                 else tags m;
         source := match hostmask (sess w src) with
                   | Some hm => SrcName hm
                   | None => SrcNone
                   end;
         verb := verb m;
         params := params m |}
  | _ => m
  end.

(** [dump_message]; the log keeps the message as handed to the
    serializer. *)
Definition dump_message (c : sid) (m : Message) (w : World) : World :=
  upd c (fun s => set_sent (sent s ++ [outbound c m w]) s) w.

Definition dump_numeric (c : sid) (numeric : string) (ps : list string) (w : World) : World :=
  dump_message c
    (from_data numeric (SrcName (conf_name (conf w))) (nickname (sess w c) :: ps)) w.

Definition dump_verb (c : sid) (v : string) (ps : list string)
    (src : Source) (unprefixed : bool) (w : World) : World :=
  let src' := match src with
              | SrcNone => if negb unprefixed then SrcName (conf_name (conf w)) else SrcNone
              | _ => src
              end in
  dump_message c (from_data v src' ps) w.

Definition dump_notice (c : sid) (message : string) (w : World) : World :=
  dump_verb c "NOTICE" [nickname (sess w c); "*** " +:+ message] SrcNone false w.

(** *** The router *)

Definition get_common_peers (c : sid) (exclude : list sid) (cap : option string)
    (w : World) : list sid :=
  let all := flat_map (members w) (channels (sess w c)) in
  let base :=
    match cap with
    | Some k =>
        if nonempty k then
          if has_cap k (sess w c) then
            List.filter (fun i => negb (bool_decide (i ∈ exclude)) && has_cap k (sess w i)) all
            ++ [c]
          else []
        else List.filter (fun i => negb (bool_decide (i ∈ exclude))) all ++ [c]
    | None => List.filter (fun i => negb (bool_decide (i ∈ exclude))) all ++ [c]
    end in
  let peerlist := uniq base in
  if bool_decide (c ∈ exclude) && bool_decide (c ∈ peerlist)
  then list_remove c peerlist
  else peerlist.

(** The capability filter as the specification words it: no filter
    without a capability, else the sessions whose [caps] hold it. *)
Definition wants (cap : option string) (s : Session) : bool :=
  match cap with
  | Some k => if nonempty k then has_cap k s else true
  | None => true
  end.

Definition sendto_common_peers (c : sid) (m : Message) (exclude : list sid)
    (cap : option string) (w : World) : World :=
  fold_left (fun w' i => dump_message i m w') (get_common_peers c exclude cap w) w.

(** *** ISUPPORT *)

Definition format_token (k : string) (v : IsupportValue) : string :=
  match v with
  | VBool _ => k
  | VInt z => k +:+ "=" +:+ string_of_Z z
  | VStr s => k +:+ "=" +:+ s
  end.

Definition dump_isupport (c : sid) (w : World) : World :=
  dump_numeric c "005"
    (map (fun kv => format_token (fst kv) (snd kv)) (isupport_tokens w)
     ++ ["are supported by this server"]) w.

(** *** SASL *)

Definition m_sasl_plain (c : sid) (dat : string) (w : World) : outcome :=
  match split_nul dat with
  | [account_b; authorization_id; passphrase_b] =>
      match utf8_decode account_b with
      | None => Raised UnicodeDecodeError w
      | Some acct =>
          match utf8_decode passphrase_b with
          | None => Raised UnicodeDecodeError w
          | Some passphrase =>
              let account_info := data w !! ("account." +:+ acct) in
              let ok :=
                match account_info with
                | Some info =>
                    match credentials_passphrase info with
                    | Some passphrase_hash =>
                        verified info && hashing_verify passphrase passphrase_hash
                    | None => false
                    end
                | None => false
                end in
              if ok then
                let w1 := upd c (set_account (Some acct)) w in
                (* 'account change' has no subscriber in the sources *)
                let w2 := upd c (set_sasl None) w1 in
                let hm := default "*" (hostmask (sess w2 c)) in
                let w3 := dump_numeric c "900"
                            [hm; acct; "You are now logged in as " +:+ acct] w2 in
                Returned (dump_numeric c "903" ["SASL authentication successful"] w3)
              else
                Returned (dump_numeric c "904" ["SASL authentication failed"] w)
          end
      end
  | _ => Raised ValueError w
  end.

(** Modelled from the spec: the core bus of [mammon/events.py], which is
    not among the sources.  It calls the handlers registered for the
    topic; an exception of a handler is caught at the bus and the caller
    goes on.  The one handler the sources register for a composed
    'sasl authenticate <mechanism>' topic is [m_sasl_plain]. *)
Definition dispatch_sasl_authenticate (c : sid) (mechanism : string) (dat : string)
    (w : World) : World :=
  if String.eqb ("sasl authenticate " +:+ casefold mechanism) "sasl authenticate plain"
  then final (m_sasl_plain c dat w)
  else w.

Definition m_AUTHENTICATE (c : sid) (ev_params : list string) (w : World) : outcome :=
  if (length ev_params =? 1)%nat && bool_decide (ev_params !! 0 = Some "*") then
    if truthy (sasl (sess w c)) then
      Returned (upd c (set_sasl None)
                  (dump_numeric c "906" ["SASL authentication aborted"] w))
    else
      Returned (dump_numeric c "904" ["SASL authentication failed"] w)
  else
    match ev_params !! 0 with
    | None => Raised IndexError w
    | Some p0 =>
        if truthy (sasl (sess w c)) then
          if (400 <? py_len p0)%nat then
            Returned (upd c (set_sasl None)
                        (dump_numeric c "905" ["SASL message too long"] w))
          else if negb (is_ascii p0) then
            (* b64decode encodes a str as ASCII first and raises a plain
               ValueError where that fails, which the handler, catching
               binascii.Error only, lets escape *)
            Raised ValueError w
          else
            match b64decode p0 with
            | None => Returned (dump_numeric c "904" ["SASL authentication failed"] w)
            | Some dat =>
                Returned (dispatch_sasl_authenticate c
                            (default "" (sasl (sess w c))) dat w)
            end
        else
          let mechanism := str_upper p0 in
          if bool_decide (mechanism ∈ valid_mechanisms w) then
            Returned (dump_verb c "AUTHENTICATE" ["+"] SrcNone true
                        (upd c (set_sasl (Some mechanism)) w))
          else
            Returned (dump_numeric c "904" ["SASL authentication failed"] w)
    end.

(** The handler of 'client registered'. *)
Definition m_sasl_unreglocked (c : sid) (w : World) : World :=
  if truthy (sasl (sess w c)) then
    dump_numeric c "906" ["SASL authentication aborted"] (upd c (set_sasl None) w)
  else w.

(** *** Timers *)

(** [update_pings]: both handles are cancelled and replaced by fresh
    ones; [update_idle] does this after stamping the clock. *)
Definition update_pings (c : sid) (w : World) : World :=
  upd c (set_timers (Some (mkTimer false)) (Some (mkTimer false))) w.

Definition update_idle (c : sid) (w : World) : World := update_pings c w.

(** *** Termination *)

(** Modelled from the spec: [Channel.part] of [mammon/channel.py], which
    is not among the sources; the membership is unlinked at both ends. *)
Definition part (ch : cid) (c : sid) (w : World) : World :=
  set_chan_members
    (<[ch := List.filter (fun i => negb (bool_decide (i = c))) (members w ch)]>
       (chan_members w))
    (upd c (fun s => set_channels
                       (List.filter (fun x => negb (bool_decide (x = ch))) (channels s)) s)
         w).

(** The loop [while self.channels: i = self.channels.pop(0);
    i.channel.part(self)], with one unit of fuel per turn. *)
Fixpoint leave_channels (fuel : nat) (c : sid) (w : World) : World :=
  match fuel with
  | O => w
  | S fuel' =>
      match channels (sess w c) with
      | [] => w
      | ch :: rest => leave_channels fuel' c (part ch c (upd c (set_channels rest) w))
      end
  end.

(** Modelled from the spec: [ExpiringDict] of [mammon/utility.py], which
    is not among the sources; a map bounded to 1024 entries that drops
    the oldest one when full.  Expiry by age needs the clock and is not
    modelled. *)
Definition history_set (k : string) (e : ClientHistoryEntry)
    (h : list (string * ClientHistoryEntry)) : list (string * ClientHistoryEntry) :=
  let h' := List.filter (fun kv => negb (String.eqb (fst kv) k)) h in
  (if (1024 <=? length h')%nat then tail h' else h') ++ [(k, e)].

(** [ClientHistoryEntry(self).register()]. *)
Definition history_register (c : sid) (w : World) : World :=
  let s := sess w c in
  set_client_history
    (history_set (nickname s)
       (mkHistory (nickname s) (username s) (hostname s) (realname s) (account s))
       (client_history w)) w.

(** [exit].  [ctx.clients.pop(nickname)] is the [pop] of a mutable
    mapping: a missing key raises [KeyError]. *)
Definition exit (c : sid) (w : World) : outcome :=
  let w := upd c (fun s => set_timers (cancel (ping_future s))
                             (cancel (ping_timeout_future s)) s) w in
  let w := upd c (set_connected false) w in
  let w := upd c (set_transport_closed true) w in
  if negb (registered (sess w c)) then Returned w
  else
    let w := leave_channels (length (channels (sess w c))) c w in
    let nick := nickname (sess w c) in
    match clients w !! casefold nick with
    | None => Raised (KeyError nick) w
    | Some _ =>
        let w := set_clients (delete (casefold nick) (clients w)) w in
        Returned (history_register c w)
    end.

(** [quit]; the topic 'client quit' has no subscriber in the sources. *)
Definition quit (c : sid) (message : string) (w : World) : outcome :=
  let m := from_data "QUIT" (SrcClient c) [message] in
  let w := sendto_common_peers c m [] None w in
  exit c w.

(** [connection_lost]; [exc] is the [repr] of the exception, if any. *)
Definition connection_lost (c : sid) (exc : option string) (w : World) : outcome :=
  if negb (connected (sess w c)) then Returned w
  else match exc with
       | None => quit c "Connection closed" w
       | Some r => quit c ("Connection error: " +:+ r) w
       end.

(** *** Registration *)

(** [register].  The hostmask is a string here, [registered] having just
    been set.  The side effect 'MOTD' and the topic 'client connect'
    reach no handler of the sources. *)
Definition register (c : sid) (w : World) : World :=
  let w := upd c (set_registered true) w in
  let w := set_clients (<[casefold (nickname (sess w c)) := c]> (clients w)) w in
  let w := update_idle c w in
  let w := match tls (sess w c) with
           | Some (c0, c1, c2) =>
               dump_notice c ("You are connected using " +:+ c1 +:+ "-" +:+ c0
                              +:+ "-" +:+ c2) w
           | None => w
           end in
  let w := m_sasl_unreglocked c w in
  let w := dump_numeric c "001"
             ["Welcome to the " +:+ conf_network (conf w) +:+ " IRC Network, "
              +:+ default "" (hostmask (sess w c))] w in
  let w := dump_numeric c "002"
             ["Your host is " +:+ conf_name (conf w) +:+ ", running version mammon-"
              +:+ version (conf w)] w in
  let w := dump_numeric c "003"
             ["This server was started at " +:+ startstamp (conf w)] w in
  let w := dump_numeric c "004"
             [conf_name (conf w); "mammon-" +:+ version (conf w);
              join (map fst user_mode_items)] w in
  dump_isupport c w.

Definition push_registration_lock (c : sid) (locks : list string) (w : World) : World :=
  if registered (sess w c) then w
  else upd c (fun s => set_registration_lock
                         (registration_lock s ∪ list_to_set locks) s) w.

Definition release_registration_lock (c : sid) (locks : list string) (w : World) : World :=
  if registered (sess w c) then w
  else
    let w := upd c (fun s => set_registration_lock
                               (registration_lock s ∖ list_to_set locks) s) w in
    if bool_decide (registration_lock (sess w c) = ∅) then register c w else w.

(** [connection_made] for a server that is not shutting down: the new
    session is stored at [c], takes the three initial locks, notes TLS
    in its properties and starts its timers.  The reverse lookup runs
    later, as a task of the event loop; the topic 'client reglocked' has
    no subscriber in the sources. *)
Definition connection_made (c : sid) (peer : string)
    (cipher : option (string * string * string)) (w : World) : World :=
  let w := set_sessions (<[c := new_session peer cipher]> (sessions w)) w in
  let w := push_registration_lock c client_registration_locks w in
  let w := match cipher with
           | Some _ =>
               upd c (fun s => set_props (<[casefold "special:tls" := true]> (props s)) s) w
           | None => w
           end in
  update_idle c (update_pings c w).

(** *** Legacy modes *)

Definition legacy_mode_step (c : sid) (st : bool * World) (i : string) : bool * World :=
  let '(mod_, w) := st in
  if String.eqb i "+" then (true, w)
  else if String.eqb i "-" then (false, w)
  else if String.eqb i "o" && mod_ then (mod_, w)
  else match dict_get i user_mode_items with
       | None => (mod_, dump_numeric c "501" [i; "Unknown MODE flag"] w)
       | Some prop =>
           (mod_, upd c (fun s => set_props (<[casefold prop := mod_]> (props s)) s) w)
       end.

(** [d.get(i, False)] on a case-insensitive dictionary of flags. *)
Definition prop_get (d : gmap string bool) (i : string) : bool :=
  default false (d !! casefold i).

Definition flush_step (before after : gmap string bool) (st : nat * string)
    (item : string * string) : nat * string :=
  let '(mod_, out) := st in
  let '(i, letter) := item in
  if prop_get before i && negb (prop_get after i) then
    if (mod_ =? 1)%nat then (mod_, out +:+ letter)
    else (1, out +:+ "-" +:+ letter)
  else if negb (prop_get before i) && prop_get after i then
    if (mod_ =? 2)%nat then (mod_, out +:+ letter)
    else (2, out +:+ "+" +:+ letter)
  else (mod_, out).

Definition flush_out (before after : gmap string bool) : string :=
  snd (fold_left (flush_step before after) user_property_items (0, "")).

(** The property changes between two states of [props], in table
    order, each with its sign; and their grouped rendering. *)
Definition mode_changes (before after : gmap string bool) : list (bool * string) :=
  flat_map (fun item : string * string =>
              if prop_get before (fst item) && negb (prop_get after (fst item))
              then [(false, snd item)]
              else if negb (prop_get before (fst item)) && prop_get after (fst item)
              then [(true, snd item)]
              else [])
           user_property_items.

Definition grouped_diff (before after : gmap string bool) : string :=
  render_runs (runs (mode_changes before after)).

Definition flush_legacy_mode_change (c : sid) (before after : gmap string bool)
    (w : World) : World :=
  dump_message c
    (from_data "MODE" (SrcClient c) [nickname (sess w c); flush_out before after]) w.

Definition set_legacy_modes (c : sid) (in_str : string) (w : World) : World :=
  let before := props (sess w c) in
  let w := snd (fold_left (legacy_mode_step c) (py_chars in_str) (false, w)) in
  flush_legacy_mode_change c before (props (sess w c)) w.

(** A letter that is neither a toggle nor in the mode table. *)
Definition unknown_flag (i : string) : bool :=
  negb (String.eqb i "+") && negb (String.eqb i "-")
  && match dict_get i user_mode_items with
     | Some _ => false
     | None => true
     end.

(** The reply to an unknown letter, as [dump_numeric] builds it. *)
Definition numeric_501 (w : World) (c : sid) (i : string) : Message :=
  from_data "501" (SrcName (conf_name (conf w)))
    [nickname (sess w c); i; "Unknown MODE flag"].

(** A message of a session about itself, as the session receives it. *)
Definition self_line (w : World) (c : sid) (v : string) (ps : list string) : Message :=
  {| tags := if has_cap "account-tag" (sess w c)
             then <["account" := default "*" (account (sess w c))]> ∅
             else ∅;
     source := match hostmask (sess w c) with
               | Some hm => SrcName hm
               | None => SrcNone
               end;
     verb := v;
     params := ps |}.

(** The MODE line a session is sent about itself. *)
Definition mode_line (w : World) (c : sid) (out : string) : Message :=
  self_line w c "MODE" [nickname (sess w c); out].

(** *** Inbound *)

(** Modelled from the spec: the protocol bus of [mammon/events.py], which
    is not among the sources.  An event is named after the verb of the
    parsed message; a handler that does not allow unregistered sessions
    is skipped for them, too few parameters are answered with 461, and an
    exception of a handler is caught at the bus.  The one handler the
    sources register is AUTHENTICATE (one parameter at least,
    unregistered sessions allowed). *)
Definition rfc1459_dispatch (c : sid) (m : Message) (w : World) : World :=
  if String.eqb (verb m) "AUTHENTICATE" then
    if (length (params m) <? 1)%nat
    then dump_numeric c "461" [verb m; "Not enough parameters"] w
    else final (m_AUTHENTICATE c (params m) w)
  else w.

(** The loop of [drain_queue], with one unit of fuel per turn; [None]
    when the fuel runs out before the queue is empty. *)
Fixpoint drain_queue_fuel (fuel : nat) (c : sid) (w : World) : option World :=
  match recvq (sess w c) with
  | [] => Some w
  | m :: rest =>
      match fuel with
      | O => None
      | S fuel' =>
          drain_queue_fuel fuel' c (rfc1459_dispatch c m (upd c (set_recvq rest) w))
      end
  end.

(** [drain_queue]: one turn per queued message is enough with the
    handlers of the sources, which leave the queue alone
    ([drain_queue_total] below). *)
Definition drain_queue (c : sid) (w : World) : option World :=
  drain_queue_fuel (length (recvq (sess w c))) c w.

(** Line 227, [self.recvq.append(m)]. *)
Definition recvq_append (c : sid) (m : Message) (w : World) : World :=
  upd c (fun s => set_recvq (recvq s ++ [m]) s) w.

(** [message_received] from the parsed message on (decoding, clamping
    and parsing belong to the codec). *)
Definition message_received (c : sid) (m : Message) (w : World) : option outcome :=
  if (recvq_len (conf w) <? Z.of_nat (length (recvq (sess w c))))%Z
  then Some (quit c "Excess flood" w)
  else Returned <$> drain_queue c (recvq_append c m w).

(** *** Operations as data *)

(** The entry points of a session, for statements about every
    operation and about sequences of them. *)
Inductive operation :=
| OpPushLock (locks : list string)
| OpReleaseLock (locks : list string)
| OpMessageReceived (m : Message)
| OpAuthenticate (ev_params : list string)
| OpSaslPlain (dat : string)
| OpSetLegacyModes (in_str : string)
| OpQuit (message : string)
| OpExit
| OpConnectionLost (exc : option string).

(** One operation on session [c]; where it raises, the store is the one
    at the raise. *)
Definition step (act : sid * operation) (w : World) : World :=
  let c := fst act in
  match snd act with
  | OpPushLock locks => push_registration_lock c locks w
  | OpReleaseLock locks => release_registration_lock c locks w
  | OpMessageReceived m =>
      match message_received c m w with
      | Some o => final o
      | None => w
      end
  | OpAuthenticate ev_params => final (m_AUTHENTICATE c ev_params w)
  | OpSaslPlain dat => final (m_sasl_plain c dat w)
  | OpSetLegacyModes in_str => set_legacy_modes c in_str w
  | OpQuit message => final (quit c message w)
  | OpExit => final (exit c w)
  | OpConnectionLost exc => final (connection_lost c exc w)
  end.

Definition run (acts : list (sid * operation)) (w : World) : World :=
  fold_left (fun w' act => step act w') acts w.

End Mammon.

(** ** Further operations *)

(** *** Receiving bytes *)

Module Framing.

Definition CR : ascii := "013"%char.
Definition LF : ascii := "010"%char.

(** [bytes.replace(b'\r', b'')]. *)
Fixpoint strip_cr (s : string) : string :=
  match s with
  | EmptyString => EmptyString
  | String c s' => if Ascii.eqb c CR then strip_cr s' else String c (strip_cr s')
  end.

(** [bytes.split(sep)] for a separator of one byte. *)
Fixpoint split_on (sep : ascii) (s : string) : list string :=
  match s with
  | EmptyString => [EmptyString]
  | String c s' =>
      if Ascii.eqb c sep then EmptyString :: split_on sep s'
      else match split_on sep s' with
           | h :: t => String c h :: t
           | [] => [String c EmptyString]
           end
  end.

Fixpoint take_bytes (n : nat) (s : string) : string :=
  match n, s with
  | S n', String c s' => String c (take_bytes n' s')
  | _, _ => EmptyString
  end.

(** The slice [s[:z]]: a negative bound counts from the end. *)
Definition py_prefix (z : Z) (s : string) : string :=
  if (0 <=? z)%Z then take_bytes (Z.to_nat z) s
  else take_bytes (Z.to_nat (Z.of_nat (String.length s) + z)) s.

(** Lines 202 to 208 of [data_received]: the bytes received are added to
    the buffer, carriage returns dropped, the complete lines cut off and
    the rest kept as the new buffer, clamped to the line limit when one
    is configured and is not zero.  The result is the lines, each of
    which goes to [message_received], and the new buffer. *)
Definition data_received (recv_buffer data : string) (linelen : option Z)
    : list string * string :=
  let recvd := split_on LF (strip_cr (recv_buffer +:+ data)) in
  let rest := List.last recvd EmptyString in
  let recvd := removelast recvd in
  let rest :=
    match linelen with
    | Some z =>
        if negb (z =? 0)%Z && (z <? Z.of_nat (String.length rest))%Z
        then py_prefix z rest else rest
    | None => rest
    end in
  (recvd, rest).

(** The bytes of lines, each with its line feed. *)
Definition unlines (l : list string) : string :=
  fold_right (fun x acc => x +:+ String LF acc) EmptyString l.

Fixpoint has_byte (b : ascii) (s : string) : bool :=
  match s with
  | EmptyString => false
  | String c s' => Ascii.eqb c b || has_byte b s'
  end.

End Framing.

(** Nothing changed but what sessions were sent (and their [props]),
    the configuration included. *)
Definition only_sent (w w' : World) : Prop :=
  conf w' = conf w ∧ ∀ d, same_but_props_sent (sess w d) (sess w' d).

Section MammonMore.

Context `{Externals}.

(** [dump_numeric] with its [add_target] argument. *)
Definition dump_numeric_to (c : sid) (numeric : string) (ps : list string)
    (add_target : bool) (w : World) : World :=
  dump_message c
    (from_data numeric (SrcName (conf_name (conf w)))
       (if add_target then nickname (sess w c) :: ps else ps)) w.

Definition numericto_common_peers (c : sid) (numeric : string) (ps : list string)
    (add_target : bool) (exclude : list sid) (cap : option string) (w : World) : World :=
  fold_left (fun w' i => dump_numeric_to i numeric ps add_target w')
            (get_common_peers c exclude cap w) w.

Definition verbto_common_peers (c : sid) (v : string) (ps : list string)
    (src : Source) (exclude : list sid) (cap : option string) (w : World) : World :=
  let peerlist := get_common_peers c exclude cap w in
  let src := match src with
             | SrcNone => SrcName (conf_name (conf w))
             | _ => src
             end in
  fold_left (fun w' i => dump_verb i v ps src false w') peerlist w.

(** [kill]; the topic 'client killed' has no subscriber in the sources. *)
Definition kill (c : sid) (src : sid) (reason : string) (w : World) : outcome :=
  let m := from_data "KILL" (SrcClient src) [nickname (sess w c); reason] in
  let w := dump_message c m w in
  quit c ("Killed (" +:+ nickname (sess w src) +:+ " (" +:+ reason +:+ "))") w.

(** The loop of [ServerContext.shutdown] over [snapshot], the list
    [list(self.clients.values())] in the order the dictionary gives it:
    a notice to each client still connected, then its [exit].  An
    exception of [exit] ends the loop. *)
Fixpoint shutdown (reason : string) (snapshot : list sid) (w : World) : outcome :=
  match snapshot with
  | [] => Returned w
  | client :: rest =>
      let w := if connected (sess w client)
               then dump_notice client ("Server Terminating. " +:+ reason) w
               else w in
      match exit client w with
      | Returned w' => shutdown reason rest w'
      | Raised e w' => Raised e w'
      end
  end.

End MammonMore.

(** The lines of [register] before the welcome: the notice about the
    cipher and the abort of a pending SASL exchange. *)
Definition register_preamble (name : string) (s : Session) : list Message :=
  match tls s with
  | Some (c0, c1, c2) =>
      [from_data "NOTICE" (SrcName name)
         [nickname s;
          "*** " +:+ "You are connected using " +:+ c1 +:+ "-" +:+ c0 +:+ "-" +:+ c2]]
  | None => []
  end
  ++ (if truthy (sasl s)
      then [from_data "906" (SrcName name) [nickname s; "SASL authentication aborted"]]
      else []).

(** A store in which session [c] is [s1] with the log [l], and which
    agrees with [w] on the other sessions, on the configuration and on
    the ISUPPORT table, the registry being [K]. *)
Definition stage (c : sid) (w : World) (K : gmap string sid) (s1 : Session)
    (l : list Message) (w' : World) : Prop :=
  sess w' c = set_sent l s1
  ∧ (∀ d, d ≠ c → sess w' d = sess w d)
  ∧ clients w' = K
  ∧ conf w' = conf w
  ∧ isupport_tokens w' = isupport_tokens w.


(** ** Concrete instances

    An instance of the interface on ASCII text and a few stores, for the
    scenarios evaluated below. *)

Module Scenario.

Definition lower_char (c : ascii) : ascii :=
  if byte_in 65 90 c then ascii_of_N (N_of_ascii c + 32) else c.

Definition upper_char (c : ascii) : ascii :=
  if byte_in 97 122 c then ascii_of_N (N_of_ascii c - 32) else c.

Fixpoint map_string (f : ascii → ascii) (s : string) : string :=
  match s with
  | EmptyString => EmptyString
  | String c s' => String (f c) (map_string f s')
  end.

(** A mode table with the operator letter. *)
Definition property_table : list (string * string) :=
  [("user:invisible", "i"); ("special:oper", "o"); ("user:wallops", "w")].

(** [binascii.a2b_base64] in its default mode, which is what
    [base64.b64decode] runs on the ASCII text: a character outside the
    alphabet is discarded, a pad that completes the quad ends the
    input, and data left in an incomplete quad is [binascii.Error]. *)
Definition b64_value (c : ascii) : option N :=
  let n := N_of_ascii c in
  if byte_in 65 90 c then Some (n - 65)%N
  else if byte_in 97 122 c then Some (n - 71)%N
  else if byte_in 48 57 c then Some (n + 4)%N
  else if byte_in 43 43 c then Some 62%N
  else if byte_in 47 47 c then Some 63%N
  else None.

Fixpoint a2b_base64 (s : string) (quad_pos pads : nat) (leftchar : N)
    : option string :=
  match s with
  | "" => if (quad_pos =? 0)%nat then Some "" else None
  | String c rest =>
      if byte_in 61 61 c then
        if (2 <=? quad_pos)%nat then
          if (4 <=? quad_pos + S pads)%nat then Some ""
          else a2b_base64 rest quad_pos (S pads) leftchar
        else a2b_base64 rest quad_pos pads leftchar
      else
        match b64_value c with
        | None => a2b_base64 rest quad_pos pads leftchar
        | Some v =>
            match quad_pos with
            | 0 => a2b_base64 rest 1 0 v
            | 1 => String (ascii_of_N (leftchar * 4 + v / 16))
                     <$> a2b_base64 rest 2 0 (v mod 16)
            | 2 => String (ascii_of_N (leftchar * 16 + v / 4))
                     <$> a2b_base64 rest 3 0 (v mod 4)
            | _ => String (ascii_of_N (leftchar * 64 + v))
                     <$> a2b_base64 rest 0 0 0
            end
        end
  end.

Definition b64_decode (s : string) : option string := a2b_base64 s 0 0 0.

(** Case folding and upper-casing of ASCII letters; a hashing provider
    whose hash of a passphrase is "plain:" followed by it. *)
#[local] Instance ascii_externals : Externals := {|
  casefold := map_string lower_char;
  str_upper := map_string upper_char;
  b64decode := b64_decode;
  hashing_verify := fun passphrase hash => String.eqb ("plain:" +:+ passphrase) hash;
  user_property_items := property_table;
  user_mode_items := map (fun kv => (snd kv, fst kv)) property_table
|}.

Definition example_conf : Config :=
  {| conf_name := "irc.example.net"; conf_network := "ExampleNet";
     recvq_len := 3; version := "0.0"; startstamp := "Mon Jan 01 2015" |}.

Definition empty_world : World :=
  {| sessions := ∅; chan_members := ∅; clients := ∅; client_history := [];
     data := ∅; isupport_tokens := []; valid_mechanisms := ["PLAIN"];
     conf := example_conf |}.

Definition set_data (v : gmap string AccountInfo) (w : World) : World :=
  mkWorld (sessions w) (chan_members w) (clients w) (client_history w) v
    (isupport_tokens w) (valid_mechanisms w) (conf w).

Definition set_isupport_tokens (v : list (string * IsupportValue)) (w : World) : World :=
  mkWorld (sessions w) (chan_members w) (clients w) (client_history w) (data w)
    v (valid_mechanisms w) (conf w).

Definition set_conf (v : Config) (w : World) : World :=
  mkWorld (sessions w) (chan_members w) (clients w) (client_history w) (data w)
    (isupport_tokens w) (valid_mechanisms w) v.

(** A session as [connection_made] leaves it, with a nickname and a
    user name. *)
Definition fresh (nick : string) : Session :=
  let s := sess (connection_made 0 "192.0.2.7" None empty_world) 0 in
  mkSession nick nick (hostname s) (realname s) (account s) (caps s) (props s)
    (tls s) (connected s) (registered s) (registration_lock s) (recvq s)
    (channels s) (sasl s) (ping_future s) (ping_timeout_future s)
    (transport_closed s) (sent s).

Definition set_caps (v : gmap string string) (s : Session) : Session :=
  mkSession (nickname s) (username s) (hostname s) (realname s) (account s)
    v (props s) (tls s) (connected s) (registered s) (registration_lock s)
    (recvq s) (channels s) (sasl s) (ping_future s) (ping_timeout_future s)
    (transport_closed s) (sent s).

(** The session registered: every lock released through the code. *)
Definition registered_world (c : sid) (nick : string) (w : World) : World :=
  release_registration_lock c client_registration_locks
    (set_sessions (<[c := fresh nick]> (sessions w)) w).

(** Alice (0) and Bob (1) share channel 7; Bob negotiated away-notify,
    Alice did not. *)
Definition cap_world : World :=
  set_chan_members {[ 7 := [0; 1] ]}
    (set_sessions
       {[ 0 := set_channels [7] (fresh "alice");
          1 := set_caps {[ "away-notify" := "" ]} (set_channels [7] (fresh "bob")) ]}
       empty_world).

(** Fourteen ISUPPORT tokens. *)
Definition isupport14 : list (string * IsupportValue) :=
  [("NETWORK", VStr "ExampleNet"); ("CLIENTVER", VStr "3.2");
   ("CASEMAPPING", VStr "ascii"); ("CHARSET", VStr "utf-8");
   ("SAFELIST", VBool true); ("METADATA", VInt 10); ("MONITOR", VInt 100);
   ("CHANTYPES", VStr "#"); ("NICKLEN", VInt 31); ("CHANNELLEN", VInt 50);
   ("TOPICLEN", VInt 390); ("LINELEN", VInt 2048); ("USERLEN", VInt 10);
   ("EXCEPTS", VBool true)].

Definition isupport_world : World :=
  set_isupport_tokens isupport14
    (set_sessions {[ 0 := fresh "alice" ]} empty_world).

(** The data store of the SASL scenario: [account.bob], verified, with a
    passphrase hash that verifies against hunter2. *)
Definition bob_store : gmap string AccountInfo :=
  {[ "account.bob" := mkAccountInfo (Some "plain:hunter2") true ]}.

Definition sasl_world : World :=
  set_data bob_store
    (set_sessions {[ 0 := set_sasl (Some "PLAIN") (fresh "*") ]} empty_world).

(** The bytes of "\0bob\0hunter2" and of "bob\0\0hunter2". *)
Definition payload_rfc : string := String NUL ("bob" +:+ String NUL "hunter2").
Definition payload_first : string := "bob" +:+ String NUL (String NUL "hunter2").

(** Their base64 encodings. *)
Definition payload_rfc_b64 : string := "AGJvYgBodW50ZXIy".
Definition payload_first_b64 : string := "Ym9iAABodW50ZXIy".

(** A payload of 401 characters. *)
Definition long_payload : string := string_of_list_ascii (repeat "A"%char 401).

(** A new session on a server whose [recvq_len] is 0, and a message. *)
Definition flood_world : World :=
  set_conf (mkConfig "irc.example.net" "ExampleNet" 0 "0.0" "Mon Jan 01 2015")
    (set_sessions {[ 0 := fresh "alice" ]} empty_world).

Definition ping : Message := from_data "PING" SrcNone ["irc.example.net"].

(** The same session with a message still queued. *)
Definition flooded_world : World := upd 0 (set_recvq [ping]) flood_world.

(** A new session alone on the server. *)
Definition fresh_world : World := set_sessions {[ 0 := fresh "alice" ]} empty_world.

(** NICK, USER and the reverse lookup each release their lock; the
    reverse lookup reports twice. *)
Definition registration : list (sid * operation) :=
  [(0, OpReleaseLock ["NICK"]); (0, OpReleaseLock ["USER"]);
   (0, OpReleaseLock ["DNS"]); (0, OpReleaseLock ["DNS"]);
   (0, OpPushLock ["CAP"])].

(** Alice (0) and Bob (1), both registered through the code. *)
Definition two_registered : World :=
  registered_world 1 "bob" (registered_world 0 "alice" empty_world).

(** A session that holds the operator property. *)
Definition oper_world : World :=
  upd 0 (set_props {[ "special:oper" := true ]}) fresh_world.

End Scenario.

(** * Properties *)

(** ** The store *)

Section Basics.
Context `{Externals}.

Lemma sess_upd c f w d :
  sess (upd c f w) d = if decide (c = d) then f (sess w c) else sess w d.
Proof.
  unfold sess, upd. simpl. case_decide as Hcd.
  - subst. by rewrite lookup_total_insert_eq.
  - by rewrite lookup_total_insert_ne.
Qed.

Lemma sess_upd_eq c f w : sess (upd c f w) c = f (sess w c).
Proof. rewrite sess_upd. by case_decide. Qed.

Lemma sess_upd_ne c f w d : c ≠ d → sess (upd c f w) d = sess w d.
Proof. intros. rewrite sess_upd. by case_decide. Qed.

Lemma upd_upd c f g w : upd c f (upd c g w) = upd c (fun s => f (g s)) w.
Proof.
  unfold upd at 1. rewrite sess_upd_eq.
  unfold upd, set_sessions. simpl. by rewrite insert_insert_eq.
Qed.

Lemma verb_outbound c m w : verb (outbound c m w) = verb m.
Proof. unfold outbound. by destruct (source m). Qed.

Lemma params_outbound c m w : params (outbound c m w) = params m.
Proof. unfold outbound. by destruct (source m). Qed.

Lemma outbound_named c m w name : source m = SrcName name → outbound c m w = m.
Proof. unfold outbound. by intros ->. Qed.

Lemma sess_dump_message c m w d :
  sess (dump_message c m w) d
  = if decide (c = d)
    then set_sent (sent (sess w c) ++ [outbound c m w]) (sess w c)
    else sess w d.
Proof. unfold dump_message. by rewrite sess_upd. Qed.

Lemma sent_dump_numeric c n ps w :
  sent (sess (dump_numeric c n ps w) c)
  = sent (sess w c) ++ [from_data n (SrcName (conf_name (conf w))) (nickname (sess w c) :: ps)].
Proof.
  unfold dump_numeric. rewrite sess_dump_message. case_decide; [|done]. simpl.
  by rewrite (outbound_named _ _ _ (conf_name (conf w))).
Qed.

Lemma sess_dump_numeric c n ps w :
  sess (dump_numeric c n ps w) c
  = set_sent (sent (sess w c)
              ++ [from_data n (SrcName (conf_name (conf w))) (nickname (sess w c) :: ps)])
      (sess w c).
Proof.
  unfold dump_numeric. rewrite sess_dump_message. case_decide; [|done].
  by rewrite (outbound_named _ _ _ (conf_name (conf w))).
Qed.

Lemma same_but_props_sent_refl s : same_but_props_sent s s.
Proof. by destruct s. Qed.

Lemma same_but_props_sent_trans s1 s2 s3 :
  same_but_props_sent s1 s2 → same_but_props_sent s2 s3 → same_but_props_sent s1 s3.
Proof. unfold same_but_props_sent. intros H12 H23. rewrite H23. by rewrite H12. Qed.

End Basics.

(** ** Frames

    What an operation leaves alone, for any relation [R] between the
    states of a session that the assignments involved respect. *)

Section Frame.
Context `{Externals}.
Variable R : Session → Session → Prop.
Hypothesis R_refl : ∀ s, R s s.
Hypothesis R_trans : ∀ s1 s2 s3, R s1 s2 → R s2 s3 → R s1 s3.
Hypothesis R_account : ∀ v s, R s (set_account v s).
Hypothesis R_sasl : ∀ v s, R s (set_sasl v s).
Hypothesis R_props : ∀ v s, R s (set_props v s).
Hypothesis R_timers : ∀ p q s, R s (set_timers p q s).
Hypothesis R_connected : ∀ v s, R s (set_connected v s).
Hypothesis R_transport : ∀ v s, R s (set_transport_closed v s).
Hypothesis R_channels : ∀ v s, R s (set_channels v s).
Hypothesis R_recvq : ∀ v s, R s (set_recvq v s).
Hypothesis R_sent : ∀ m s, verb m ≠ "001" → R s (set_sent (sent s ++ [m]) s).

Lemma frame_refl w : frame R w w.
Proof. intros d. apply R_refl. Qed.

Lemma frame_trans w1 w2 w3 : frame R w1 w2 → frame R w2 w3 → frame R w1 w3.
Proof. intros H12 H23 d. eapply R_trans; [apply H12 | apply H23]. Qed.

Lemma frame_upd c f w : (∀ s, R s (f s)) → frame R w (upd c f w).
Proof.
  intros Hf d. rewrite sess_upd. case_decide; [subst; apply Hf | apply R_refl].
Qed.

Lemma frame_dump_message c m w : verb m ≠ "001" → frame R w (dump_message c m w).
Proof.
  intros Hv. unfold dump_message. apply frame_upd. intros s.
  apply R_sent. by rewrite verb_outbound.
Qed.

Lemma frame_dump_numeric c n ps w : n ≠ "001" → frame R w (dump_numeric c n ps w).
Proof. intros Hn. unfold dump_numeric. by apply frame_dump_message. Qed.

Lemma frame_dump_verb c v ps src u w : v ≠ "001" → frame R w (dump_verb c v ps src u w).
Proof. intros Hv. unfold dump_verb. by apply frame_dump_message. Qed.

Lemma frame_dump_notice c msg w : frame R w (dump_notice c msg w).
Proof. unfold dump_notice. by apply frame_dump_verb. Qed.

Lemma frame_dump_isupport c w : frame R w (dump_isupport c w).
Proof. unfold dump_isupport. by apply frame_dump_numeric. Qed.

Lemma frame_update_idle c w : frame R w (update_idle c w).
Proof. unfold update_idle, update_pings. apply frame_upd. intros. apply R_timers. Qed.

Lemma frame_m_sasl_unreglocked c w : frame R w (m_sasl_unreglocked c w).
Proof.
  unfold m_sasl_unreglocked. destruct (truthy _); [|apply frame_refl].
  eapply frame_trans; [|by apply frame_dump_numeric].
  apply frame_upd. intros. apply R_sasl.
Qed.

Lemma frame_fold_dump m (l : list sid) w :
  verb m ≠ "001" → frame R w (fold_left (fun w' i => dump_message i m w') l w).
Proof.
  intros Hv. revert w. induction l as [|i l IH]; intros w; simpl.
  - apply frame_refl.
  - eapply frame_trans; [by apply frame_dump_message | apply IH].
Qed.

Lemma frame_sendto c m ex cap w :
  verb m ≠ "001" → frame R w (sendto_common_peers c m ex cap w).
Proof. intros Hv. unfold sendto_common_peers. by apply frame_fold_dump. Qed.

Lemma frame_part ch c w : frame R w (part ch c w).
Proof.
  unfold part. intros d.
  change (sess (set_chan_members ?v ?w') d) with (sess w' d).
  apply frame_upd. intros s. apply R_channels.
Qed.

Lemma frame_leave_channels fuel c w : frame R w (leave_channels fuel c w).
Proof.
  revert w. induction fuel as [|fuel IH]; intros w; simpl; [apply frame_refl|].
  destruct (channels (sess w c)) as [|ch rest]; [apply frame_refl|].
  eapply frame_trans; [|apply IH].
  eapply frame_trans; [|apply frame_part].
  apply frame_upd. intros s. apply R_channels.
Qed.

Lemma frame_exit c w : frame R w (final (exit c w)).
Proof.
  unfold exit.
  set (w1 := upd c _ w). set (w2 := upd c _ w1). set (w3 := upd c _ w2).
  assert (H3 : frame R w w3).
  { eapply frame_trans; [|apply frame_upd; intros; apply R_transport].
    eapply frame_trans; [|apply frame_upd; intros; apply R_connected].
    apply frame_upd. intros. apply R_timers. }
  destruct (negb (registered (sess w3 c))); [exact H3|].
  set (w4 := leave_channels _ c w3).
  assert (H4 : frame R w w4).
  { eapply frame_trans; [exact H3 | apply frame_leave_channels]. }
  destruct (clients w4 !! _); simpl; exact H4.
Qed.

Lemma frame_quit c msg w : frame R w (final (quit c msg w)).
Proof.
  unfold quit. eapply frame_trans; [|apply frame_exit].
  by apply frame_sendto.
Qed.

Lemma frame_connection_lost c exc w : frame R w (final (connection_lost c exc w)).
Proof.
  unfold connection_lost. destruct (negb _); [apply frame_refl|].
  destruct exc; apply frame_quit.
Qed.

Lemma frame_m_sasl_plain c dat w : frame R w (final (m_sasl_plain c dat w)).
Proof.
  unfold m_sasl_plain.
  destruct (split_nul dat) as [|a [|z [|p [|? ?]]]]; try apply frame_refl.
  destruct (utf8_decode a); [|apply frame_refl].
  destruct (utf8_decode p); [|apply frame_refl].
  match goal with |- context [if ?b then _ else _] => destruct b end; simpl.
  - eapply frame_trans; [|by apply frame_dump_numeric].
    eapply frame_trans; [|by apply frame_dump_numeric].
    eapply frame_trans; [|apply frame_upd; intros; apply R_sasl].
    apply frame_upd. intros. apply R_account.
  - by apply frame_dump_numeric.
Qed.

Lemma frame_m_AUTHENTICATE c ps w : frame R w (final (m_AUTHENTICATE c ps w)).
Proof.
  unfold m_AUTHENTICATE.
  destruct (_ && _).
  { destruct (truthy _); simpl.
    - eapply frame_trans; [|apply frame_upd; intros; apply R_sasl].
      by apply frame_dump_numeric.
    - by apply frame_dump_numeric. }
  destruct (ps !! 0) as [p0|]; [|apply frame_refl].
  destruct (truthy _).
  - destruct (_ <? _)%nat; simpl.
    + eapply frame_trans; [|apply frame_upd; intros; apply R_sasl].
      by apply frame_dump_numeric.
    + destruct (is_ascii p0); simpl; [|apply frame_refl].
      destruct (b64decode p0); simpl; [|by apply frame_dump_numeric].
      unfold dispatch_sasl_authenticate. destruct (String.eqb _ _).
      * apply frame_m_sasl_plain.
      * apply frame_refl.
  - destruct (bool_decide _); simpl; [|by apply frame_dump_numeric].
    eapply frame_trans; [|by apply frame_dump_verb].
    apply frame_upd. intros. apply R_sasl.
Qed.

Lemma frame_rfc1459_dispatch c m w : frame R w (rfc1459_dispatch c m w).
Proof.
  unfold rfc1459_dispatch. destruct (String.eqb _ _) eqn:Hv; [|apply frame_refl].
  destruct (_ <? _)%nat; [|apply frame_m_AUTHENTICATE].
  apply frame_dump_numeric. done.
Qed.

Lemma frame_drain_queue_fuel fuel c w w' :
  drain_queue_fuel fuel c w = Some w' → frame R w w'.
Proof.
  revert w. induction fuel as [|fuel IH]; intros w; simpl.
  - destruct (recvq (sess w c)); [|done]. intros [= <-]. apply frame_refl.
  - destruct (recvq (sess w c)) as [|m rest]; [intros [= <-]; apply frame_refl|].
    intros Hd. apply IH in Hd.
    eapply frame_trans; [|exact Hd].
    eapply frame_trans; [|apply frame_rfc1459_dispatch].
    apply frame_upd. intros. apply R_recvq.
Qed.

Lemma frame_legacy_walk c (l : list string) st :
  frame R (snd st) (snd (fold_left (legacy_mode_step c) l st)).
Proof.
  revert st. induction l as [|i l IH]; intros [m w]; simpl; [apply frame_refl|].
  eapply frame_trans; [|apply IH].
  unfold legacy_mode_step.
  destruct (String.eqb i "+"); [apply frame_refl|].
  destruct (String.eqb i "-"); [apply frame_refl|].
  destruct (_ && _); [apply frame_refl|].
  destruct (dict_get i user_mode_items); simpl.
  - apply frame_upd. intros. apply R_props.
  - by apply frame_dump_numeric.
Qed.

Lemma frame_set_legacy_modes c in_str w : frame R w (set_legacy_modes c in_str w).
Proof.
  unfold set_legacy_modes, flush_legacy_mode_change.
  eapply frame_trans; [|by apply frame_dump_message].
  apply (frame_legacy_walk c (py_chars in_str) (false, w)).
Qed.

Lemma frame_message_received c m w o :
  message_received c m w = Some o → frame R w (final o).
Proof.
  unfold message_received. destruct (_ <? _)%Z.
  - intros [= <-]. apply frame_quit.
  - unfold drain_queue. destruct (drain_queue_fuel _ _ _) as [w'|] eqn:Hd; [|done].
    intros [= <-]. simpl. apply frame_drain_queue_fuel in Hd.
    eapply frame_trans; [|exact Hd].
    unfold recvq_append. apply frame_upd. intros. apply R_recvq.
Qed.

End Frame.

(** ** The router and ISUPPORT *)

Section Router.
Context `{Externals}.

Lemma uniq_fold (l out : list sid) :
  NoDup out →
  let r := fold_left (fun output x => if bool_decide (x ∈ output) then output
                                      else output ++ [x]) l out in
  NoDup r ∧ ∀ x, x ∈ r ↔ x ∈ out ∨ x ∈ l.
Proof.
  revert out. induction l as [|y l IH]; intros out Hnd; simpl.
  - split; [done|]. intros x. set_solver.
  - case_bool_decide as Hy.
    + destruct (IH out Hnd) as (Hr & Hin). split; [done|].
      intros x. rewrite Hin. set_solver.
    + assert (Hnd' : NoDup (out ++ [y])).
      { apply NoDup_app. split; [done|]. split; [|apply NoDup_singleton].
        intros x Hx Hxy. apply list_elem_of_singleton in Hxy. by subst. }
      destruct (IH (out ++ [y]) Hnd') as (Hr & Hin). split; [done|].
      intros x. rewrite Hin. set_solver.
Qed.

Lemma uniq_NoDup l : NoDup (uniq l).
Proof. apply (uniq_fold l []). apply NoDup_nil_2. Qed.

Lemma elem_of_uniq l x : x ∈ uniq l ↔ x ∈ l.
Proof.
  destruct (uniq_fold l [] (NoDup_nil_2)) as (_ & Hin).
  unfold uniq. rewrite Hin. set_solver.
Qed.

Lemma elem_of_list_remove x l y :
  NoDup l → y ∈ list_remove x l ↔ y ∈ l ∧ y ≠ x.
Proof.
  induction l as [|z l IH]; intros Hnd; simpl; [set_solver|].
  apply NoDup_cons in Hnd as [Hz Hnd].
  case_bool_decide as Hzx.
  - subst z. set_solver.
  - rewrite !elem_of_cons, IH by done. set_solver.
Qed.

Lemma NoDup_list_remove x l : NoDup l → NoDup (list_remove x l).
Proof.
  induction l as [|z l IH]; intros Hnd; simpl; [done|].
  apply NoDup_cons in Hnd as [Hz Hnd].
  case_bool_decide; [done|].
  apply NoDup_cons. split; [|by apply IH].
  rewrite elem_of_list_remove by done. tauto.
Qed.

Lemma elem_of_List_filter {A} (f : A → bool) l x :
  x ∈ List.filter f l ↔ x ∈ l ∧ f x = true.
Proof. rewrite !list_elem_of_In. apply filter_In. Qed.

(** Where the session itself passes the capability filter, the result
    is what the specification describes. *)
Lemma get_common_peers_wanted c exclude cap w :
  wants cap (sess w c) = true →
  NoDup (get_common_peers c exclude cap w)
  ∧ ∀ x, x ∈ get_common_peers c exclude cap w
         ↔ (x ∉ exclude)
           ∧ (x = c
              ∨ (x ∈ flat_map (members w) (channels (sess w c))
                 ∧ wants cap (sess w x) = true)).
Proof.
  intros Hc. unfold get_common_peers.
  set (all := flat_map (members w) (channels (sess w c))).
  set (base := match cap with Some _ => _ | None => _ end).
  assert (Hbase : ∀ x, x ∈ base
                       ↔ (x ∈ all ∧ (x ∉ exclude) ∧ wants cap (sess w x) = true) ∨ x = c).
  { intros x. subst base. unfold wants in *.
    destruct cap as [k|]; [destruct (nonempty k); [rewrite Hc|]|];
      rewrite elem_of_app, elem_of_List_filter, list_elem_of_singleton;
      rewrite ?andb_true_iff, ?negb_true_iff, ?bool_decide_eq_false; tauto. }
  pose proof (uniq_NoDup base) as Hnd.
  destruct (bool_decide (c ∈ exclude)) eqn:Hex; simpl.
  - apply bool_decide_eq_true in Hex.
    rewrite bool_decide_true by (apply elem_of_uniq, Hbase; by right).
    split; [by apply NoDup_list_remove|].
    intros x. rewrite elem_of_list_remove, elem_of_uniq, Hbase by done.
    split.
    + intros [[(?&?&?)|?] ?]; [|done]. tauto.
    + intros [Hx [->|[? ?]]]; [done|]. split; [tauto|]. by intros ->.
  - apply bool_decide_eq_false in Hex. split; [done|].
    intros x. rewrite elem_of_uniq, Hbase. split.
    + intros [(?&?&?)| ->]; tauto.
    + intros [Hx [->|[? ?]]]; tauto.
Qed.

(** Where the session itself lacks the capability, nobody is left. *)
Lemma get_common_peers_unwanted c exclude cap w :
  wants cap (sess w c) = false → get_common_peers c exclude cap w = [].
Proof.
  unfold wants, get_common_peers. destruct cap as [k|]; [|done].
  destruct (nonempty k); [|done]. intros ->. simpl.
  by rewrite andb_false_r.
Qed.

(** [dump_isupport] writes one line, whatever the number of tokens. *)
Lemma dump_isupport_one_line c w :
  sent (sess (dump_isupport c w) c)
  = sent (sess w c)
    ++ [from_data "005" (SrcName (conf_name (conf w)))
          (nickname (sess w c)
           :: map (fun kv => format_token (fst kv) (snd kv)) (isupport_tokens w)
              ++ ["are supported by this server"])].
Proof. unfold dump_isupport. apply sent_dump_numeric. Qed.

End Router.

(** ** Registration locks *)

Section Registration.
Context `{Externals}.

Lemma welcomes_sent m s :
  welcomes (set_sent (sent s ++ [m]) s)
  = welcomes s + (if String.eqb (verb m) "001" then 1 else 0).
Proof.
  unfold welcomes. simpl. rewrite List.filter_app, length_app. simpl.
  by destruct (String.eqb (verb m) "001").
Qed.

Lemma same_reg_sent m s : verb m ≠ "001" → same_reg s (set_sent (sent s ++ [m]) s).
Proof.
  intros Hv. repeat split. rewrite welcomes_sent.
  apply String.eqb_neq in Hv. rewrite Hv. lia.
Qed.

Lemma same_reg_refl s : same_reg s s.
Proof. by repeat split. Qed.

Lemma same_reg_trans s1 s2 s3 : same_reg s1 s2 → same_reg s2 s3 → same_reg s1 s3.
Proof. intros (?&?&?) (?&?&?). repeat split; congruence. Qed.

Ltac sr lem :=
  apply lem;
  first [ apply same_reg_refl | apply same_reg_trans | apply same_reg_sent
        | by (intros; repeat split) | idtac ].

Lemma register_reg c w d :
  registered (sess (register c w) d)
  = (if decide (c = d) then true else registered (sess w d))
  ∧ registration_lock (sess (register c w) d) = registration_lock (sess w d)
  ∧ welcomes (sess (register c w) d)
    = welcomes (sess w d) + (if decide (c = d) then 1 else 0).
Proof.
  unfold register.
  set (w0 := upd c (set_registered true) w).
  set (w1 := set_clients _ w0).
  set (w2 := update_idle c w1).
  set (w3 := match tls (sess w2 c) with Some _ => _ | None => w2 end).
  set (w4 := m_sasl_unreglocked c w3).
  set (w5 := dump_numeric c "001" _ w4).
  set (w6 := dump_numeric c "002" _ w5).
  set (w7 := dump_numeric c "003" _ w6).
  set (w8 := dump_numeric c "004" _ w7).
  assert (H04 : frame same_reg w0 w4).
  { apply (frame_trans same_reg same_reg_trans _ w3);
      [|subst w4; by sr frame_m_sasl_unreglocked].
    apply (frame_trans same_reg same_reg_trans _ w2).
    - intros e. change (sess w0 e) with (sess w1 e). revert e.
      subst w2. by sr frame_update_idle.
    - subst w3. destruct (tls (sess w2 c)) as [[[c0 c1] c2]|].
      + by sr frame_dump_notice.
      + intros e. apply same_reg_refl. }
  assert (H59 : frame same_reg w5 (dump_isupport c w8)).
  { apply (frame_trans same_reg same_reg_trans _ w8); [|by sr frame_dump_isupport].
    apply (frame_trans same_reg same_reg_trans _ w7);
      [|subst w8; by sr frame_dump_numeric].
    apply (frame_trans same_reg same_reg_trans _ w6);
      [subst w6|subst w7]; by sr frame_dump_numeric. }
  specialize (H04 d). specialize (H59 d).
  destruct H59 as (-> & -> & ->). destruct H04 as (Hr4 & Hl4 & Hw4).
  assert (H45 : registered (sess w5 d) = registered (sess w4 d)
                ∧ registration_lock (sess w5 d) = registration_lock (sess w4 d)
                ∧ welcomes (sess w5 d)
                  = welcomes (sess w4 d) + (if decide (c = d) then 1 else 0)).
  { subst w5. unfold dump_numeric. rewrite sess_dump_message.
    case_decide; [subst d|]; [|repeat split; lia].
    repeat split. rewrite welcomes_sent, verb_outbound. done. }
  destruct H45 as (-> & -> & ->). rewrite Hr4, Hl4, Hw4.
  subst w0. rewrite sess_upd. case_decide; [subst d|]; done.
Qed.

Lemma reg_step_refl s : reg_step s s.
Proof.
  split; [done|split; [done|]]. destruct (registered s); simpl; lia.
Qed.

Lemma reg_step_trans s1 s2 s3 : reg_step s1 s2 → reg_step s2 s3 → reg_step s1 s3.
Proof.
  intros (Hi1 & Hm1 & Hw1) (Hi2 & Hm2 & Hw2). split; [tauto | split; [tauto|]].
  rewrite Hw2, Hw1.
  destruct (registered s1), (registered s2), (registered s3); simpl; try lia;
    first [by specialize (Hm1 eq_refl) | by specialize (Hm2 eq_refl)].
Qed.

Lemma same_reg_step s s' : same_reg s s' → reg_step s s'.
Proof.
  intros (Hr & Hl & Hw). unfold reg_step, lock_invariant.
  rewrite Hr, Hl, Hw. split; [tauto | split; [tauto|]].
  destruct (registered s); simpl; lia.
Qed.

Lemma frame_same_reg_step w w' : frame same_reg w w' → frame reg_step w w'.
Proof. intros Hf d. apply same_reg_step, Hf. Qed.

Lemma push_reg_step c locks w : frame reg_step w (push_registration_lock c locks w).
Proof.
  unfold push_registration_lock. intros d.
  destruct (registered (sess w c)) eqn:Hreg; [apply reg_step_refl|].
  rewrite sess_upd. case_decide; [subst d|apply reg_step_refl].
  unfold reg_step, lock_invariant. simpl. rewrite Hreg. simpl.
  split; [|split; [done|unfold welcomes; simpl; lia]].
  intros Hinv. split; [done|].
  intros Hun. apply Hinv. set_solver.
Qed.

Lemma release_reg_step c locks w :
  frame reg_step w (release_registration_lock c locks w).
Proof.
  unfold release_registration_lock. intros d.
  destruct (registered (sess w c)) eqn:Hreg; [apply reg_step_refl|].
  set (w1 := upd c _ w).
  assert (H1 : ∀ e, registered (sess w1 e) = registered (sess w e)
                    ∧ welcomes (sess w1 e) = welcomes (sess w e)).
  { intros e. subst w1. rewrite sess_upd. by case_decide; [subst e|]. }
  assert (H1l : ∀ e, e ≠ c →
                  registration_lock (sess w1 e) = registration_lock (sess w e)).
  { intros e He. subst w1. by rewrite sess_upd_ne. }
  case_bool_decide as Hempty.
  - destruct (register_reg c w1 d) as (Hr & Hl & Hw).
    destruct (H1 d) as (Hr1 & Hw1).
    unfold reg_step, lock_invariant. rewrite Hr, Hl, Hw, Hr1, Hw1.
    case_decide as Hcd; [subst d|].
    + rewrite Hreg, Hempty. simpl. split; [done|split; done].
    + rewrite (H1l d) by done. split; [tauto | split; [tauto|]].
      destruct (registered (sess w d)); simpl; lia.
  - destruct (H1 d) as (Hr1 & Hw1).
    unfold reg_step, lock_invariant. rewrite Hr1, Hw1.
    destruct (decide (d = c)) as [->|Hne].
    + rewrite Hreg. simpl. split; [|split; [done|lia]].
      intros _. split; [done|]. intros Hl. by destruct Hempty.
    + rewrite (H1l d) by done. split; [tauto | split; [tauto|]].
      destruct (registered (sess w d)); simpl; lia.
Qed.

Lemma step_reg_step act w : frame reg_step w (step act w).
Proof.
  destruct act as [c op]. unfold step. simpl. destruct op.
  - apply push_reg_step.
  - apply release_reg_step.
  - destruct (message_received c m w) as [o|] eqn:Hm.
    + apply frame_same_reg_step. revert Hm. by sr frame_message_received.
    + intros d. apply reg_step_refl.
  - apply frame_same_reg_step. by sr frame_m_AUTHENTICATE.
  - apply frame_same_reg_step. by sr frame_m_sasl_plain.
  - apply frame_same_reg_step. by sr frame_set_legacy_modes.
  - apply frame_same_reg_step. by sr frame_quit.
  - apply frame_same_reg_step. by sr frame_exit.
  - apply frame_same_reg_step. by sr frame_connection_lost.
Qed.

Lemma run_reg_step acts w : frame reg_step w (run acts w).
Proof.
  unfold run. revert w. induction acts as [|act acts IH]; intros w; simpl.
  - intros d. apply reg_step_refl.
  - apply (frame_trans reg_step reg_step_trans _ (step act w));
      [apply step_reg_step | apply IH].
Qed.

Lemma lock_invariant_bool s :
  lock_invariant s ↔ registered s = bool_decide (registration_lock s = ∅).
Proof.
  unfold lock_invariant. case_bool_decide as He.
  - split; [tauto | intros ->; done].
  - split; [|intros ->; done]. destruct (registered s); [|done].
    intros Hi. destruct He. by apply Hi.
Qed.

(** A new session holds its three locks and is not registered. *)
Lemma connection_made_invariant c peer cipher w :
  lock_invariant (sess (connection_made c peer cipher w) c).
Proof.
  apply lock_invariant_bool. unfold connection_made.
  set (w0 := set_sessions _ w).
  assert (H0 : sess w0 c = new_session peer cipher)
    by (unfold sess, w0; simpl; by rewrite lookup_total_insert_eq).
  unfold push_registration_lock. rewrite H0. simpl.
  set (w1 := upd c _ w0).
  assert (H1 : registered (sess w1 c) = false
               ∧ registration_lock (sess w1 c)
                 = ∅ ∪ list_to_set client_registration_locks).
  { subst w1. rewrite sess_upd_eq, H0. done. }
  set (w2 := match cipher with Some _ => _ | None => w1 end).
  assert (H2 : same_reg (sess w1 c) (sess w2 c)).
  { subst w2. destruct cipher; [|apply same_reg_refl].
    rewrite sess_upd_eq. by repeat split. }
  assert (H3 : same_reg (sess w2 c) (sess (update_idle c (update_pings c w2)) c)).
  { unfold update_idle, update_pings. rewrite !sess_upd_eq. by repeat split. }
  destruct H1 as (Hr1 & Hl1). destruct H2 as (Hr2 & Hl2 & _).
  destruct H3 as (-> & -> & _). rewrite Hr2, Hl2, Hr1, Hl1.
  vm_compute. reflexivity.
Qed.

End Registration.

(** C7.  A session is registered exactly when its set of registration
    locks is empty, and every operation of any session keeps it so, over
    any sequence of operations, [connection_made] having set it up; once
    registered, pushing and releasing
    locks change nothing; a release that empties the set registers the
    session, which sends it one welcome; and over any sequence of
    operations the session is welcomed once if it became registered and
    not at all otherwise, so [register] runs exactly once. *)
Theorem registration_lock_invariant `{Externals} (w : World) (d : sid) :
  lock_invariant (sess w d) →
  (∀ c peer cipher w0, lock_invariant (sess (connection_made c peer cipher w0) c))
  ∧ (∀ acts, lock_invariant (sess (run acts w) d))
  ∧ (registered (sess w d) = true →
     ∀ locks, push_registration_lock d locks w = w
              ∧ release_registration_lock d locks w = w)
  ∧ (∀ locks, registered (sess w d) = false →
       registration_lock (sess w d) ∖ list_to_set locks = ∅ →
       registered (sess (release_registration_lock d locks w) d) = true
       ∧ welcomes (sess (release_registration_lock d locks w) d)
         = S (welcomes (sess w d)))
  ∧ (∀ acts,
       welcomes (sess (run acts w) d)
       = welcomes (sess w d)
         + (if negb (registered (sess w d)) && registered (sess (run acts w) d)
            then 1 else 0)).
Proof.
  intros Hinv. split; [|split; [|split; [|split]]].
  - intros c peer cipher w0. apply connection_made_invariant.
  - intros acts. by apply (run_reg_step acts w d).
  - intros Hreg locks. unfold push_registration_lock, release_registration_lock.
    by rewrite Hreg.
  - intros locks Hreg Hempty. unfold release_registration_lock. rewrite Hreg.
    rewrite sess_upd_eq. simpl. rewrite bool_decide_true by done.
    destruct (register_reg d (upd d (fun s => set_registration_lock
                 (registration_lock s ∖ list_to_set locks) s) w) d) as (-> & _ & ->).
    rewrite sess_upd_eq. case_decide; [|done]. split; [done|]. simpl.
    unfold welcomes. simpl. lia.
  - intros acts. apply (run_reg_step acts w d).
Qed.

(** ** Termination *)

Section Termination.
Context `{Externals}.

Lemma upd_ext c f g w : f (sess w c) = g (sess w c) → upd c f w = upd c g w.
Proof. unfold upd. by intros ->. Qed.

Lemma cancel_cancel t : cancel (cancel t) = cancel t.
Proof. by destruct t. Qed.

(** The part of [exit] that every session goes through. *)
Lemma exit_unregistered c w :
  registered (sess w c) = false →
  exit c w
  = Returned (upd c (fun s => set_transport_closed true
                       (set_connected false
                          (set_timers (cancel (ping_future s))
                             (cancel (ping_timeout_future s)) s))) w).
Proof.
  intros Hreg. unfold exit. rewrite !upd_upd.
  rewrite sess_upd_eq. simpl. by rewrite Hreg.
Qed.

Lemma exit_disconnects c w : connected (sess (final (exit c w)) c) = false.
Proof.
  unfold exit. rewrite !upd_upd.
  set (w3 := upd c _ w).
  assert (H3 : connected (sess w3 c) = false) by (subst w3; by rewrite sess_upd_eq).
  destruct (negb (registered (sess w3 c))); [done|].
  set (w4 := leave_channels _ c w3).
  assert (H4 : connected (sess w4 c) = connected (sess w3 c)).
  { subst w4. apply (frame_leave_channels (fun s s' => connected s' = connected s));
      [done | congruence | done]. }
  destruct (clients w4 !! _); simpl; [|congruence].
  change (connected (sess w4 c) = false). congruence.
Qed.

Lemma exit_closes c w : transport_closed (sess (final (exit c w)) c) = true.
Proof.
  unfold exit. rewrite !upd_upd.
  set (w3 := upd c _ w).
  assert (H3 : transport_closed (sess w3 c) = true)
    by (subst w3; by rewrite sess_upd_eq).
  destruct (negb (registered (sess w3 c))); [done|].
  set (w4 := leave_channels _ c w3).
  assert (H4 : transport_closed (sess w4 c) = transport_closed (sess w3 c)).
  { subst w4.
    apply (frame_leave_channels (fun s s' => transport_closed s' = transport_closed s));
      [done | congruence | done]. }
  destruct (clients w4 !! _); simpl; [|congruence].
  change (transport_closed (sess w4 c) = true). congruence.
Qed.

Lemma outbound_self_line c w w1 v ps :
  same_but_props_sent (sess w c) (sess w1 c) →
  outbound c (from_data v (SrcClient c) ps) w1 = self_line w c v ps.
Proof.
  unfold same_but_props_sent, outbound, self_line, has_cap, hostmask. simpl.
  intros ->. done.
Qed.

(** Fanning a message of [c] out to a list of sessions without
    repetition: [c] gets its line once if it is in the list. *)
Lemma fold_dump_self c v ps (l : list sid) w w0 :
  same_but_props_sent (sess w c) (sess w0 c) →
  NoDup l →
  sent (sess (fold_left (fun w' i => dump_message i (from_data v (SrcClient c) ps) w')
                l w0) c)
  = sent (sess w0 c)
    ++ (if bool_decide (c ∈ l) then [self_line w c v ps] else []).
Proof.
  intros Hsame Hnd. revert w0 Hsame.
  induction Hnd as [|i l Hi Hnd IH]; intros w0 Hsame; simpl.
  - by rewrite app_nil_r.
  - rewrite IH.
    2:{ rewrite sess_dump_message.
        destruct (decide (i = c)) as [->|Hic]; [|exact Hsame].
        eapply same_but_props_sent_trans; [exact Hsame|].
        unfold same_but_props_sent. by destruct (sess w0 c). }
    rewrite sess_dump_message. destruct (decide (i = c)) as [->|Hic].
    + simpl. rewrite (outbound_self_line c w w0) by done.
      rewrite bool_decide_false by done.
      rewrite bool_decide_true by (apply elem_of_cons; by left).
      by rewrite app_nil_r.
    + destruct (bool_decide (c ∈ l)) eqn:Hcl.
      * apply bool_decide_eq_true in Hcl.
        by rewrite bool_decide_true by (apply elem_of_cons; by right).
      * apply bool_decide_eq_false in Hcl.
        rewrite bool_decide_false; [done|].
        intros [->|?]%elem_of_cons; done.
Qed.

(** [quit] sends the session its own QUIT line, once. *)
Lemma quit_sent_self c msg w :
  sent (sess (final (quit c msg w)) c)
  = sent (sess w c) ++ [self_line w c "QUIT" [msg]].
Proof.
  unfold quit.
  destruct (get_common_peers_wanted c [] None w eq_refl) as (Hnd & Hin).
  assert (Hexit : ∀ w', sent (sess (final (exit c w')) c) = sent (sess w' c)).
  { intros w'. apply (frame_exit same_sent); unfold same_sent; try done; congruence. }
  rewrite Hexit. unfold sendto_common_peers.
  rewrite (fold_dump_self c "QUIT" [msg] _ w w)
    by (done || apply same_but_props_sent_refl).
  rewrite bool_decide_true; [done|]. apply Hin. split; [set_solver|by left].
Qed.

End Termination.

(** ** Leaving *)

Section Leaving.
Context `{Externals}.

Lemma sess_part ch c w d :
  sess (part ch c w) d
  = if decide (c = d)
    then set_channels (List.filter (fun x => negb (bool_decide (x = ch)))
                         (channels (sess w c))) (sess w c)
    else sess w d.
Proof.
  unfold part.
  match goal with
  | |- sess (set_chan_members _ ?w') d = ?r => change (sess w' d = r)
  end.
  by rewrite sess_upd.
Qed.

Lemma filter_length_le {A} (f : A → bool) (l : list A) :
  (length (List.filter f l) ≤ length l)%nat.
Proof. induction l as [|x l IH]; simpl; [lia|]. destruct (f x); simpl; lia. Qed.

Lemma present_upd c f w d :
  is_Some (sessions w !! d) → is_Some (sessions (upd c f w) !! d).
Proof.
  intros Hd. unfold upd. simpl. destruct (decide (c = d)) as [->|Hne].
  - rewrite lookup_insert_eq. by eexists.
  - by rewrite lookup_insert_ne.
Qed.

Lemma present_upd_eq c f w : is_Some (sessions (upd c f w) !! c).
Proof. unfold upd. simpl. rewrite lookup_insert_eq. by eexists. Qed.

(** An assignment that changes nothing, on a session that is in the
    store. *)
Lemma upd_id c f w :
  is_Some (sessions w !! c) → f (sess w c) = sess w c → upd c f w = w.
Proof.
  intros [s Hs] Hf. unfold upd. rewrite Hf. unfold sess, set_sessions.
  rewrite (lookup_total_correct _ _ _ Hs), insert_id by done. by destruct w.
Qed.

(** The loop of [exit] empties the channel list of the session and
    touches neither another session nor the registry. *)
Lemma leave_channels_spec fuel c w :
  (length (channels (sess w c)) ≤ fuel)%nat →
  sess (leave_channels fuel c w) c = set_channels [] (sess w c)
  ∧ (∀ d, d ≠ c → sess (leave_channels fuel c w) d = sess w d)
  ∧ clients (leave_channels fuel c w) = clients w
  ∧ client_history (leave_channels fuel c w) = client_history w
  ∧ conf (leave_channels fuel c w) = conf w
  ∧ (is_Some (sessions w !! c) → is_Some (sessions (leave_channels fuel c w) !! c)).
Proof.
  revert w. induction fuel as [|fuel IH]; intros w Hlen; simpl.
  - destruct (channels (sess w c)) eqn:Hch; [|simpl in Hlen; lia].
    split; [|done]. destruct (sess w c). simpl in *. by subst.
  - destruct (channels (sess w c)) as [|ch rest] eqn:Hch.
    { split; [|done]. destruct (sess w c). simpl in *. by subst. }
    set (w1 := upd c (set_channels rest) w).
    assert (Hs1 : sess (part ch c w1) c
                  = set_channels (List.filter (fun x => negb (bool_decide (x = ch))) rest)
                      (sess w c)).
    { rewrite sess_part. case_decide; [|done].
      unfold w1. rewrite sess_upd_eq. done. }
    destruct (IH (part ch c w1)) as (Hc & Hd & Hcl & Hh & Hcf & Hp).
    { rewrite Hs1. simpl. pose proof (filter_length_le
        (fun x => negb (bool_decide (x = ch))) rest). simpl in Hlen. lia. }
    split; [by rewrite Hc, Hs1|]. split; [|split; [|split; [|split]]].
    + intros d Hdc. rewrite Hd by done. rewrite sess_part.
      case_decide; [congruence|]. unfold w1. by rewrite sess_upd_ne.
    + by rewrite Hcl.
    + by rewrite Hh.
    + by rewrite Hcf.
    + intros _. apply Hp. unfold part.
      match goal with
      | |- is_Some (sessions (set_chan_members _ ?w') !! c) =>
          change (is_Some (sessions w' !! c))
      end.
      apply present_upd_eq.
Qed.

(** The state in which every [exit] leaves the session, before the
    channel list is emptied. *)
Lemma exit_cases c w :
  let s3 := set_transport_closed true
              (set_connected false
                 (set_timers (cancel (ping_future (sess w c)))
                    (cancel (ping_timeout_future (sess w c))) (sess w c))) in
  let nick := nickname (sess w c) in
  if negb (registered (sess w c)) then
    exit c w = Returned (upd c (fun _ => s3) w)
  else
    ∃ w4, sess w4 c = set_channels [] s3
          ∧ (∀ d, d ≠ c → sess w4 d = sess w d)
          ∧ clients w4 = clients w
          ∧ client_history w4 = client_history w
          ∧ conf w4 = conf w
          ∧ is_Some (sessions w4 !! c)
          ∧ exit c w
            = match clients w !! casefold nick with
              | None => Raised (KeyError nick) w4
              | Some _ =>
                  Returned (history_register c
                              (set_clients (delete (casefold nick) (clients w)) w4))
              end.
Proof.
  intros s3 nick. unfold exit. rewrite !upd_upd.
  set (w3 := upd c _ w).
  assert (H3 : sess w3 c = s3) by (unfold w3; by rewrite sess_upd_eq).
  rewrite H3. change (registered s3) with (registered (sess w c)).
  destruct (registered (sess w c)); simpl.
  - destruct (leave_channels_spec (length (channels s3)) c w3)
      as (Hc & Hd & Hcl & Hh & Hcf & Hp); [by rewrite H3|].
    specialize (Hp (present_upd_eq _ _ _)).
    set (w4 := leave_channels _ c w3) in *.
    exists w4. rewrite Hc, H3. split; [done|]. split.
    { intros d Hdc. rewrite Hd by done. unfold w3. by rewrite sess_upd_ne. }
    split; [done|]. split; [done|]. split; [done|]. split; [done|].
    rewrite Hcl. done.
  - reflexivity.
Qed.

(** [exit] of a session that an earlier [exit] has closed: nothing is
    left to do, and the registry is looked up again if the session is
    registered. *)
Lemma exit_settled c w :
  is_Some (sessions w !! c) →
  connected (sess w c) = false →
  transport_closed (sess w c) = true →
  cancel (ping_future (sess w c)) = ping_future (sess w c) →
  cancel (ping_timeout_future (sess w c)) = ping_timeout_future (sess w c) →
  (registered (sess w c) = true →
   channels (sess w c) = []
   ∧ clients w !! casefold (nickname (sess w c)) = None) →
  exit c w
  = if registered (sess w c) then Raised (KeyError (nickname (sess w c))) w
    else Returned w.
Proof.
  intros Hp Hconn Hcl Ht1 Ht2 Hreg. unfold exit. rewrite !upd_upd.
  rewrite upd_id; [|done|].
  2:{ rewrite Ht1, Ht2. destruct (sess w c). simpl in *. by subst. }
  destruct (registered (sess w c)); simpl; [|done].
  destruct (Hreg eq_refl) as (Hch & Hkey). rewrite Hch. simpl. by rewrite Hkey.
Qed.

(** What one [exit] leaves behind is settled in the sense of
    [exit_settled]. *)
Lemma exit_leaves_settled c w :
  let w1 := final (exit c w) in
  is_Some (sessions w1 !! c)
  ∧ sess w1 c
    = (if registered (sess w c) then set_channels [] else id)
        (set_transport_closed true
           (set_connected false
              (set_timers (cancel (ping_future (sess w c)))
                 (cancel (ping_timeout_future (sess w c))) (sess w c))))
  ∧ (registered (sess w c) = true →
     clients w1 !! casefold (nickname (sess w c)) = None).
Proof.
  intros w1. pose proof (exit_cases c w) as Hex. simpl in Hex. unfold w1.
  destruct (registered (sess w c)) eqn:Hreg; simpl in Hex.
  - destruct Hex as (w4 & Hc & Hd & Hcl & Hh & Hcf & Hp & Hexit). rewrite Hexit.
    destruct (clients w !! casefold (nickname (sess w c))) as [x|] eqn:Hkey; simpl.
    + split; [done|]. split; [|intros _; apply lookup_delete_eq].
      unfold history_register.
      change (sess (set_client_history _ (set_clients _ w4)) c) with (sess w4 c).
      by rewrite Hc.
    + split; [done|]. split; [by rewrite Hc|]. intros _. by rewrite Hcl.
  - rewrite Hex. unfold final. split; [apply present_upd_eq|].
    split; [by rewrite sess_upd_eq|done].
Qed.

Lemma exit_again c w :
  exit c (final (exit c w))
  = if registered (sess w c)
    then Raised (KeyError (nickname (sess w c))) (final (exit c w))
    else Returned (final (exit c w)).
Proof.
  destruct (exit_leaves_settled c w) as (Hp & Hs & Hkey).
  set (w1 := final (exit c w)) in *.
  assert (Hreg : registered (sess w1 c) = registered (sess w c)).
  { rewrite Hs. by destruct (registered (sess w c)) eqn:E. }
  assert (Hnick : nickname (sess w1 c) = nickname (sess w c)).
  { rewrite Hs. by destruct (registered (sess w c)). }
  rewrite <- Hreg, <- Hnick. apply exit_settled; try done.
  - rewrite Hs. by destruct (registered (sess w c)).
  - rewrite Hs. by destruct (registered (sess w c)).
  - rewrite Hs. destruct (registered (sess w c)); simpl; apply cancel_cancel.
  - rewrite Hs. destruct (registered (sess w c)); simpl; apply cancel_cancel.
  - rewrite Hreg. intros Hr. rewrite Hnick. split; [|by apply Hkey].
    rewrite Hs, Hr. done.
Qed.

(** The flag [connected] on entry plays no part in [exit]. *)
Lemma exit_ignores_connected c b w : exit c (upd c (set_connected b) w) = exit c w.
Proof.
  unfold exit. rewrite !upd_upd.
  assert (Hw : upd c (λ s : Session,
                 set_transport_closed true
                   (set_connected false
                      (set_timers (cancel (ping_future (set_connected b s)))
                         (cancel (ping_timeout_future (set_connected b s)))
                         (set_connected b s)))) w
               = upd c (λ s : Session,
                   set_transport_closed true
                     (set_connected false
                        (set_timers (cancel (ping_future s))
                           (cancel (ping_timeout_future s)) s))) w).
  { by apply upd_ext. }
  by rewrite Hw.
Qed.

Lemma dict_get_absent {V} k (h : list (string * V)) :
  dict_get k (List.filter (fun kv => negb (String.eqb (fst kv) k)) h) = None.
Proof.
  induction h as [|[k' v] h IH]; simpl; [done|].
  destruct (String.eqb k' k) eqn:Hk; simpl; [done|].
  rewrite String.eqb_sym, Hk. done.
Qed.

Lemma dict_get_app_absent {V} k (h h' : list (string * V)) :
  dict_get k h = None → dict_get k (h ++ h') = dict_get k h'.
Proof.
  induction h as [|[k' v] h IH]; simpl; [done|].
  destruct (String.eqb k k'); [done|]. apply IH.
Qed.

Lemma dict_get_tail_absent {V} k (h : list (string * V)) :
  dict_get k h = None → dict_get k (tail h) = None.
Proof.
  destruct h as [|[k' v] h]; simpl; [done|]. by destruct (String.eqb k k').
Qed.

Lemma dict_get_history_set k e h : dict_get k (history_set k e h) = Some e.
Proof.
  unfold history_set.
  rewrite dict_get_app_absent.
  - simpl. by rewrite String.eqb_refl.
  - destruct (_ <=? _)%nat; [apply dict_get_tail_absent|]; apply dict_get_absent.
Qed.

(** [exit] of a registered session that is in the registry. *)
Lemma exit_registered_effect c w x :
  registered (sess w c) = true →
  clients w !! casefold (nickname (sess w c)) = Some x →
  ∃ w', exit c w = Returned w'
        ∧ clients w' = delete (casefold (nickname (sess w c))) (clients w)
        ∧ sess w' c
          = set_channels []
              (set_transport_closed true
                 (set_connected false
                    (set_timers (cancel (ping_future (sess w c)))
                       (cancel (ping_timeout_future (sess w c))) (sess w c))))
        ∧ (∀ d, d ≠ c → sess w' d = sess w d)
        ∧ conf w' = conf w.
Proof.
  intros Hreg Hkey. pose proof (exit_cases c w) as Hex. simpl in Hex.
  rewrite Hreg in Hex. simpl in Hex.
  destruct Hex as (w4 & Hc & Hd & Hcl & Hh & Hcf & _ & Hexit).
  rewrite Hkey in Hexit. eexists. split; [exact Hexit|].
  split; [done|]. split; [exact Hc|]. split; [exact Hd | exact Hcf].
Qed.

End Leaving.

(** C3, amended.  For every session, [exit] a second time leaves the
    whole store, with the session, the nickname registry and the client
    history, as the first call left it.  The second call returns
    normally exactly when the session is not registered; for a
    registered session it raises [KeyError] of the nickname, which the
    first call has taken out of the registry or which was never in it.
    [exit] itself does not test [connected]: its outcome is the same
    whatever the flag is on entry.  The flag guards re-entry in
    [connection_lost]: after [exit], of any session, [connection_lost]
    does nothing. *)
Theorem exit_twice_same_store `{Externals} (c : sid) (w : World) :
  final (exit c (final (exit c w))) = final (exit c w)
  ∧ raised (exit c (final (exit c w)))
    = (if registered (sess w c) then Some (KeyError (nickname (sess w c))) else None)
  ∧ (∀ b, exit c (upd c (set_connected b) w) = exit c w)
  ∧ (∀ exc, connection_lost c exc (final (exit c w)) = Returned (final (exit c w))).
Proof.
  rewrite exit_again.
  split; [by destruct (registered (sess w c))|].
  split; [by destruct (registered (sess w c))|].
  split; [intros b; apply exit_ignores_connected|].
  intros exc. unfold connection_lost. by rewrite exit_disconnects.
Qed.

(** ** Inbound messages and flood control *)

Section Inbound.
Context `{Externals}.

Ltac rq lem :=
  apply lem;
  first [ by (intros; unfold same_recvq) | (unfold same_recvq; congruence) | idtac ].

Lemma dispatch_recvq c m w d :
  recvq (sess (rfc1459_dispatch c m w) d) = recvq (sess w d).
Proof. revert d. by rq (frame_rfc1459_dispatch same_recvq). Qed.

Lemma quit_recvq c msg w d :
  recvq (sess (final (quit c msg w)) d) = recvq (sess w d).
Proof. revert d. by rq (frame_quit same_recvq). Qed.

Lemma quit_disconnects c msg w :
  connected (sess (final (quit c msg w)) c) = false
  ∧ transport_closed (sess (final (quit c msg w)) c) = true.
Proof. unfold quit. split; [apply exit_disconnects | apply exit_closes]. Qed.

Lemma drain_queue_fuel_enough fuel c w :
  (length (recvq (sess w c)) ≤ fuel)%nat →
  ∃ w', drain_queue_fuel fuel c w = Some w' ∧ recvq (sess w' c) = [].
Proof.
  revert w. induction fuel as [|fuel IH]; intros w Hlen; simpl.
  - destruct (recvq (sess w c)) eqn:Hq; [eauto | simpl in Hlen; lia].
  - destruct (recvq (sess w c)) as [|m rest] eqn:Hq; [eauto|].
    apply IH. rewrite dispatch_recvq, sess_upd_eq. simpl. simpl in Hlen. lia.
Qed.

(** [drain_queue] returns, with the queue empty. *)
Lemma drain_queue_total c w :
  ∃ w', drain_queue c w = Some w' ∧ recvq (sess w' c) = [].
Proof. apply drain_queue_fuel_enough. done. Qed.

End Inbound.

(** C5, amended.  The size check runs before the append.  A queue longer
    than [recvq_len] ends the session through [quit "Excess flood"]: the
    new message is not enqueued, the session is sent its QUIT line, is
    disconnected and its transport closed.  Otherwise the message is appended, to a queue that
    then holds at most [recvq_len + 1] messages, and the queue is drained
    to empty. *)
Theorem message_received_flood `{Externals} (c : sid) (m : Message) (w : World) :
  ((recvq_len (conf w) < Z.of_nat (length (recvq (sess w c))))%Z →
   message_received c m w = Some (quit c "Excess flood" w)
   ∧ recvq (sess (final (quit c "Excess flood" w)) c) = recvq (sess w c)
   ∧ sent (sess (final (quit c "Excess flood" w)) c)
     = sent (sess w c) ++ [self_line w c "QUIT" ["Excess flood"]]
   ∧ connected (sess (final (quit c "Excess flood" w)) c) = false
   ∧ transport_closed (sess (final (quit c "Excess flood" w)) c) = true)
  ∧ ((Z.of_nat (length (recvq (sess w c))) ≤ recvq_len (conf w))%Z →
     message_received c m w = Returned <$> drain_queue c (recvq_append c m w)
     ∧ recvq (sess (recvq_append c m w) c) = recvq (sess w c) ++ [m]
     ∧ (Z.of_nat (length (recvq (sess (recvq_append c m w) c)))
        ≤ recvq_len (conf w) + 1)%Z
     ∧ ∃ w', message_received c m w = Some (Returned w')
             ∧ recvq (sess w' c) = []).
Proof.
  unfold message_received. split.
  - intros Hlt. apply Z.ltb_lt in Hlt. rewrite Hlt.
    split; [done|]. split; [apply quit_recvq|]. split; [apply quit_sent_self|].
    apply quit_disconnects.
  - intros Hle. apply Z.ltb_ge in Hle. rewrite Hle.
    split; [done|].
    assert (Hq : recvq (sess (recvq_append c m w) c) = recvq (sess w c) ++ [m])
      by (unfold recvq_append; by rewrite sess_upd_eq).
    split; [done|]. split.
    + rewrite Hq, length_app. simpl. apply Z.ltb_ge in Hle. lia.
    + destruct (drain_queue_total c (recvq_append c m w)) as (w' & -> & Hempty).
      by exists w'.
Qed.

(** C6, amended.  With a mechanism in progress, a payload longer than 400
    characters is answered with numeric 905 and the [sasl] slot is
    cleared; the handler then returns: the session stays connected, its
    transport open, and no other session is touched. *)
Theorem authenticate_too_long `{Externals} (c : sid) (ev_params : list string)
    (p0 : string) (w : World) :
  truthy (sasl (sess w c)) = true →
  ev_params !! 0 = Some p0 →
  (400 < py_len p0)%nat →
  let w' := final (m_AUTHENTICATE c ev_params w) in
  m_AUTHENTICATE c ev_params w
  = Returned (upd c (set_sasl None)
                (dump_numeric c "905" ["SASL message too long"] w))
  ∧ sasl (sess w' c) = None
  ∧ sent (sess w' c)
    = sent (sess w c)
      ++ [from_data "905" (SrcName (conf_name (conf w)))
            [nickname (sess w c); "SASL message too long"]]
  ∧ connected (sess w' c) = connected (sess w c)
  ∧ transport_closed (sess w' c) = transport_closed (sess w c)
  ∧ (∀ d, d ≠ c → sess w' d = sess w d).
Proof.
  intros Hsasl Hp0 Hlen w'.
  assert (Heq : m_AUTHENTICATE c ev_params w
                = Returned (upd c (set_sasl None)
                              (dump_numeric c "905" ["SASL message too long"] w))).
  { unfold m_AUTHENTICATE. rewrite Hp0, Hsasl.
    destruct (_ && _) eqn:Hstar.
    - apply andb_true_iff in Hstar as [_ Hstar].
      apply bool_decide_eq_true in Hstar. injection Hstar as ->.
      vm_compute in Hlen. lia.
    - apply Nat.ltb_lt in Hlen. by rewrite Hlen. }
  subst w'. rewrite Heq. simpl. split; [done|].
  rewrite sess_upd_eq. unfold dump_numeric. rewrite sess_dump_message.
  case_decide; [|done]. simpl.
  rewrite (outbound_named _ _ _ (conf_name (conf w))) by done.
  repeat split; try done.
  intros d Hd. rewrite sess_upd_ne by done. rewrite sess_dump_message.
  by case_decide.
Qed.

(** ** SASL PLAIN *)

Section Split.

Lemma split_nul_nonempty s : split_nul s ≠ [].
Proof. destruct s as [|a s]; simpl; [done|]. destruct (Ascii.eqb a NUL); [done|]. by destruct (split_nul s). Qed.

Lemma length_split_nul s : length (split_nul s) = S (count_nul s).
Proof.
  induction s as [|a s IH]; simpl; [done|].
  destruct (Ascii.eqb a NUL); simpl; [by rewrite IH|].
  destruct (split_nul s) eqn:Hs; [by destruct (split_nul_nonempty s)|].
  simpl in *. lia.
Qed.

Lemma split_nul_three s a z p : split_nul s = [a; z; p] → count_nul s = 2.
Proof. intros Hs. pose proof (length_split_nul s) as Hl. rewrite Hs in Hl. simpl in Hl. lia. Qed.

Lemma split_nul_plain p : count_nul p = 0 → split_nul p = [p].
Proof.
  induction p as [|a p IH]; simpl; [done|].
  destruct (Ascii.eqb a NUL); simpl; [done|].
  intros Hc. by rewrite IH.
Qed.

Lemma split_nul_field a rest :
  count_nul a = 0 → split_nul (a +:+ String NUL rest) = a :: split_nul rest.
Proof.
  induction a as [|x a IH]; simpl.
  - done.
  - destruct (Ascii.eqb x NUL); simpl; [done|].
    intros Hc. by rewrite IH.
Qed.

Lemma split_nul_fields a z p :
  count_nul a = 0 → count_nul z = 0 → count_nul p = 0 →
  split_nul (a +:+ String NUL (z +:+ String NUL p)) = [a; z; p].
Proof.
  intros Ha Hz Hp. by rewrite !split_nul_field, split_nul_plain.
Qed.

End Split.

Section Sasl.
Context `{Externals}.

(** The outcome of PLAIN once the payload has three fields of text. *)
Lemma m_sasl_plain_fields c w dat a z p :
  split_nul dat = [a; z; p] → utf8_valid a = true → utf8_valid p = true →
  m_sasl_plain c dat w
  = if match data w !! ("account." +:+ a) with
       | Some info =>
           match credentials_passphrase info with
           | Some h => verified info && hashing_verify p h
           | None => false
           end
       | None => false
       end
    then
      let w2 := upd c (set_sasl None) (upd c (set_account (Some a)) w) in
      Returned (dump_numeric c "903" ["SASL authentication successful"]
                  (dump_numeric c "900"
                     [default "*" (hostmask (sess w2 c)); a;
                      "You are now logged in as " +:+ a] w2))
    else Returned (dump_numeric c "904" ["SASL authentication failed"] w).
Proof.
  intros Hs Ha Hp. unfold m_sasl_plain, utf8_decode. by rewrite Hs, Ha, Hp.
Qed.

(** A login that succeeds. *)
Lemma m_sasl_plain_success c w a z p info h :
  count_nul a = 0 → count_nul z = 0 → count_nul p = 0 →
  utf8_valid a = true → utf8_valid p = true →
  data w !! ("account." +:+ a) = Some info →
  credentials_passphrase info = Some h →
  verified info = true →
  hashing_verify p h = true →
  ∃ w', m_sasl_plain c (a +:+ String NUL (z +:+ String NUL p)) w = Returned w'
        ∧ account (sess w' c) = Some a
        ∧ sasl (sess w' c) = None
        ∧ sent (sess w' c)
          = sent (sess w c)
            ++ [numeric_900 w c (default "*" (hostmask (sess w c))) a;
                numeric_903 w c].
Proof.
  intros Ha Hz Hp Hua Hup Hd Hc Hv Hh.
  rewrite (m_sasl_plain_fields c w _ a z p) by (by try apply split_nul_fields).
  rewrite Hd, Hc, Hv, Hh. simpl. eexists. split; [done|].
  rewrite !sess_dump_numeric, !sess_upd_eq. simpl.
  rewrite <- app_assoc. simpl. done.
Qed.

(** The AUTHENTICATE handler hands a decoded payload to the PLAIN
    handler when PLAIN is in progress. *)
Lemma authenticate_plain_dispatch c w mech p0 rest dat :
  sasl (sess w c) = Some mech → nonempty mech = true → casefold mech = "plain" →
  (py_len p0 ≤ 400)%nat → p0 ≠ "*" → is_ascii p0 = true → b64decode p0 = Some dat →
  m_AUTHENTICATE c (p0 :: rest) w = Returned (final (m_sasl_plain c dat w)).
Proof.
  intros Hs Hm Hc Hlen Hstar Hascii Hdec. unfold m_AUTHENTICATE. simpl.
  rewrite Hs. simpl. rewrite Hm, Hascii, Hdec.
  rewrite (bool_decide_false (Some p0 = Some "*")) by congruence.
  rewrite andb_false_r.
  assert (Hlt : (400 <? py_len p0)%nat = false) by (apply Nat.ltb_ge; lia).
  rewrite Hlt. unfold dispatch_sasl_authenticate. by rewrite Hc.
Qed.

End Sasl.

(** C2, amended.  The PLAIN handler takes the first of the three
    NUL-separated fields as the account name: for a payload
    [a NUL z NUL p] of well-formed text it looks up [account.<a>].  When
    that entry is verified and its passphrase hash verifies against [p],
    the account of the session is set to [a] and numerics 900 and 903 are
    sent; when there is no such entry, 904 is sent and the account is
    unchanged. *)
Theorem sasl_plain_authcid_first `{Externals} (c : sid) (w : World)
    (a z p : string) :
  count_nul a = 0 → count_nul z = 0 → count_nul p = 0 →
  utf8_valid a = true → utf8_valid p = true →
  let dat := a +:+ String NUL (z +:+ String NUL p) in
  (∀ info h,
     data w !! ("account." +:+ a) = Some info →
     credentials_passphrase info = Some h →
     verified info = true →
     hashing_verify p h = true →
     ∃ w', m_sasl_plain c dat w = Returned w'
           ∧ account (sess w' c) = Some a
           ∧ sent (sess w' c)
             = sent (sess w c)
               ++ [numeric_900 w c (default "*" (hostmask (sess w c))) a;
                   numeric_903 w c])
  ∧ (data w !! ("account." +:+ a) = None →
     m_sasl_plain c dat w
     = Returned (dump_numeric c "904" ["SASL authentication failed"] w)
     ∧ account (sess (final (m_sasl_plain c dat w)) c) = account (sess w c)).
Proof.
  intros Ha Hz Hp Hua Hup dat. split.
  - intros info h Hd Hc Hv Hh.
    destruct (m_sasl_plain_success c w a z p info h) as (w' & Hm & Hacc & _ & Hsent);
      try done.
    by exists w'.
  - intros Hd. subst dat.
    rewrite (m_sasl_plain_fields c w _ a z p) by (by try apply split_nul_fields).
    rewrite Hd. split; [done|]. simpl. by rewrite sess_dump_numeric.
Qed.

(** C9.  A payload that does not hold exactly two NUL bytes makes the
    three-way split raise, whatever the data store holds: nothing is
    sent, and the account and the [sasl] slot are as before.  Any reply
    of the handler, 904 included, and any normal return, needs exactly
    two NULs. *)
Theorem sasl_plain_split_raises `{Externals} (c : sid) (w : World) (dat : string) :
  (count_nul dat ≠ 2 →
   m_sasl_plain c dat w = Raised ValueError w
   ∧ sent (sess (final (m_sasl_plain c dat w)) c) = sent (sess w c)
   ∧ account (sess (final (m_sasl_plain c dat w)) c) = account (sess w c)
   ∧ sasl (sess (final (m_sasl_plain c dat w)) c) = sasl (sess w c))
  ∧ (sent (sess (final (m_sasl_plain c dat w)) c) ≠ sent (sess w c) →
     count_nul dat = 2)
  ∧ (raised (m_sasl_plain c dat w) = None → count_nul dat = 2).
Proof.
  assert (Hraise : count_nul dat ≠ 2 → m_sasl_plain c dat w = Raised ValueError w).
  { intros Hn. unfold m_sasl_plain.
    destruct (split_nul dat) as [|a [|z [|p [|? ?]]]] eqn:Hs; try done.
    by apply split_nul_three in Hs. }
  split; [|split].
  - intros Hn. by rewrite Hraise.
  - intros Hsent. destruct (decide (count_nul dat = 2)) as [|Hn]; [done|].
    rewrite Hraise in Hsent by done. done.
  - intros Hret. destruct (decide (count_nul dat = 2)) as [|Hn]; [done|].
    rewrite Hraise in Hret by done. done.
Qed.

(** C10.  When PLAIN succeeds for a session that is not registered, the
    hostmask is [None], numeric 900 carries "*" in its place, the account
    is set and 903 follows. *)
Theorem sasl_plain_unregistered_star `{Externals} (c : sid) (w : World)
    (a z p : string) (info : AccountInfo) (h : string) :
  registered (sess w c) = false →
  count_nul a = 0 → count_nul z = 0 → count_nul p = 0 →
  utf8_valid a = true → utf8_valid p = true →
  data w !! ("account." +:+ a) = Some info →
  credentials_passphrase info = Some h →
  verified info = true →
  hashing_verify p h = true →
  hostmask (sess w c) = None
  ∧ ∃ w', m_sasl_plain c (a +:+ String NUL (z +:+ String NUL p)) w = Returned w'
          ∧ account (sess w' c) = Some a
          ∧ sent (sess w' c)
            = sent (sess w c) ++ [numeric_900 w c "*" a; numeric_903 w c].
Proof.
  intros Hreg Ha Hz Hp Hua Hup Hd Hc Hv Hh.
  assert (Hhm : hostmask (sess w c) = None) by (unfold hostmask; by rewrite Hreg).
  split; [done|].
  destruct (m_sasl_plain_success c w a z p info h) as (w' & Hm & Hacc & _ & Hsent);
    try done.
  exists w'. rewrite Hhm in Hsent. done.
Qed.

(** ** Legacy modes *)

Section Strings.

Lemma append_nil_l s : "" +:+ s = s.
Proof. reflexivity. Qed.

Lemma append_cons a s t : String a s +:+ t = String a (s +:+ t).
Proof. reflexivity. Qed.

Lemma append_nil_r s : s +:+ "" = s.
Proof. induction s as [|a s IH]; [done|]. by rewrite append_cons, IH. Qed.

Lemma append_assoc s1 s2 s3 : (s1 +:+ s2) +:+ s3 = s1 +:+ (s2 +:+ s3).
Proof. induction s1 as [|a s1 IH]; [done|]. by rewrite !append_cons, IH. Qed.

End Strings.

Ltac str_norm :=
  unfold render_runs, join; simpl;
  rewrite ?append_nil_l, ?append_nil_r, ?append_assoc; try done.

Section Modes.
Context `{Externals}.

Lemma runs_nil l : runs l = [] → l = [].
Proof.
  destruct l as [|[sg x] l]; [done|]. simpl.
  destruct (runs l) as [|[sg' xs] rs]; [done|]. by destruct (Bool.eqb sg sg').
Qed.

(** The runs, put end to end, are the changes. *)
Lemma runs_concat l :
  flat_map (fun r => map (pair (fst r)) (snd r)) (runs l) = l.
Proof.
  induction l as [|[sg x] l IH]; [done|]. simpl.
  destruct (runs l) as [|[sg' xs] rs] eqn:Hr.
  - apply runs_nil in Hr. by rewrite Hr.
  - destruct (Bool.eqb sg sg') eqn:Hsg; simpl in *.
    + apply Bool.eqb_prop in Hsg. subst sg'. by rewrite IH.
    + by rewrite IH.
Qed.

Lemma runs_alternating l : alternating (runs l).
Proof.
  induction l as [|[sg x] l IH]; [done|]. simpl.
  destruct (runs l) as [|[sg' xs] rs] eqn:Hr; [done|].
  destruct (Bool.eqb sg sg') eqn:Hsg; simpl in *.
  - apply Bool.eqb_prop in Hsg. subst sg'.
    destruct IH as (_ & Hnext & Hrest). by split.
  - apply Bool.eqb_false_iff in Hsg. split; [done|]. by split.
Qed.

Lemma render_from_runs prev l :
  render_from prev l
  = match runs l with
    | [] => ""
    | (sg, xs) :: rs =>
        (if bool_decide (prev = Some sg) then "" else sign sg)
        +:+ join xs +:+ render_runs rs
    end.
Proof.
  revert prev. induction l as [|[sg x] l IH]; intros prev; [done|]. simpl.
  rewrite IH. destruct (runs l) as [|[sg' xs] rs] eqn:Hr.
  - str_norm.
  - destruct (Bool.eqb sg sg') eqn:Hsg.
    + apply Bool.eqb_prop in Hsg. subst sg'.
      rewrite (bool_decide_true (Some sg = Some sg)) by done. str_norm.
    + apply Bool.eqb_false_iff in Hsg.
      rewrite (bool_decide_false (Some sg = Some sg')) by congruence. str_norm.
Qed.

Lemma render_from_none l : render_from None l = render_runs (runs l).
Proof.
  rewrite render_from_runs. destruct (runs l) as [|[sg xs] rs]; [done|].
  rewrite bool_decide_false by done. str_norm.
Qed.

Lemma flush_fold before after (items : list (string * string)) prev out :
  snd (fold_left (flush_step before after) items (mod_of prev, out))
  = out +:+ render_from prev
              (flat_map (fun item : string * string =>
                 if prop_get before (fst item) && negb (prop_get after (fst item))
                 then [(false, snd item)]
                 else if negb (prop_get before (fst item)) && prop_get after (fst item)
                 then [(true, snd item)]
                 else []) items).
Proof.
  revert prev out. induction items as [|[i letter] items IH]; intros prev out; simpl.
  - by rewrite append_nil_r.
  - destruct (prop_get before i && negb (prop_get after i)) eqn:Hdel; simpl.
    + destruct prev as [[|]|]; simpl;
        rewrite (IH (Some false)); str_norm.
    + destruct (negb (prop_get before i) && prop_get after i) eqn:Hadd; simpl.
      * destruct prev as [[|]|]; simpl;
          rewrite (IH (Some true)); str_norm.
      * apply IH.
Qed.

(** The string that [flush_legacy_mode_change] writes is the grouped
    diff. *)
Lemma flush_out_grouped before after :
  flush_out before after = grouped_diff before after.
Proof.
  unfold flush_out, grouped_diff, mode_changes.
  rewrite (flush_fold before after user_property_items None ""). simpl.
  apply render_from_none.
Qed.

Lemma numeric_501_ext w w' c i :
  conf w' = conf w → nickname (sess w' c) = nickname (sess w c) →
  numeric_501 w' c i = numeric_501 w c i.
Proof. unfold numeric_501. by intros -> ->. Qed.

(** The walk of [set_legacy_modes]: a 501 for each unknown letter, and
    nothing but [props] and [sent] of the session changed. *)
Lemma legacy_walk c (chars : list string) md w :
  is_Some (dict_get "o" user_mode_items) →
  let w1 := snd (fold_left (legacy_mode_step c) chars (md, w)) in
  sent (sess w1 c)
  = sent (sess w c) ++ map (numeric_501 w c) (List.filter unknown_flag chars)
  ∧ same_but_props_sent (sess w c) (sess w1 c)
  ∧ conf w1 = conf w.
Proof.
  intros [po Ho]. revert md w.
  induction chars as [|i chars IH]; intros md w; simpl.
  { rewrite app_nil_r. split; [done|]. split; [apply same_but_props_sent_refl|done]. }
  unfold legacy_mode_step at 2.
  destruct (String.eqb i "+") eqn:Hplus.
  { replace (unknown_flag i) with false by (unfold unknown_flag; by rewrite Hplus).
    apply IH. }
  destruct (String.eqb i "-") eqn:Hminus.
  { replace (unknown_flag i) with false
      by (unfold unknown_flag; by rewrite Hplus, Hminus).
    apply IH. }
  destruct (String.eqb i "o" && md) eqn:Hoper.
  { apply andb_true_iff in Hoper as [Hi _]. apply String.eqb_eq in Hi. subst i.
    replace (unknown_flag "o") with false by (unfold unknown_flag; by rewrite Ho).
    apply IH. }
  destruct (dict_get i user_mode_items) as [prop|] eqn:Hget.
  1: replace (unknown_flag i) with false
       by (unfold unknown_flag; by rewrite Hplus, Hminus, Hget).
  2: replace (unknown_flag i) with true
       by (unfold unknown_flag; by rewrite Hplus, Hminus, Hget).
  - destruct (IH md (upd c (fun s => set_props (<[casefold prop := md]> (props s)) s) w))
      as (Hsent & Hsame & Hconf).
    rewrite Hsent, Hconf. rewrite sess_upd_eq in *. simpl.
    split; [|split; [|done]].
    + f_equal. apply map_ext. intros x.
      apply numeric_501_ext; [done | by rewrite sess_upd_eq].
    + eapply same_but_props_sent_trans; [|exact Hsame]. by destruct (sess w c).
  - destruct (IH md (dump_numeric c "501" [i; "Unknown MODE flag"] w))
      as (Hsent & Hsame & Hconf).
    rewrite Hsent, Hconf. rewrite sess_dump_numeric in *. simpl.
    split; [|split; [|done]].
    + rewrite <- app_assoc. simpl. f_equal. f_equal.
      apply map_ext. intros x. apply numeric_501_ext; [done|].
      by rewrite sess_dump_numeric.
    + eapply same_but_props_sent_trans; [|exact Hsame]. by destruct (sess w c).
Qed.

Lemma outbound_self c w w1 out :
  same_but_props_sent (sess w c) (sess w1 c) →
  outbound c (from_data "MODE" (SrcClient c) [nickname (sess w1 c); out]) w1
  = mode_line w c out.
Proof.
  unfold same_but_props_sent, outbound, mode_line, has_cap, hostmask. simpl.
  intros ->. done.
Qed.

End Modes.

(** C8.  With the operator letter in the mode table, the walk of
    [set_legacy_modes] goes character by character: "+" and "-" set the
    toggle; a letter that is not in the table is answered with numeric
    501 and changes no property; "o" is skipped while the toggle is "+"
    and clears its property while it is "-"; any other letter of the
    table sets its property to the toggle.  The whole call sends the
    session one 501 for each unknown letter and then one MODE line, which
    carries the grouped diff between the properties before and after. *)
Theorem set_legacy_modes_walk `{Externals} (c : sid) (w : World) :
  is_Some (dict_get "o" user_mode_items) →
  (∀ md, legacy_mode_step c (md, w) "+" = (true, w)
         ∧ legacy_mode_step c (md, w) "-" = (false, w))
  ∧ (∀ md i, i ≠ "+" → i ≠ "-" → dict_get i user_mode_items = None →
       legacy_mode_step c (md, w) i
       = (md, dump_numeric c "501" [i; "Unknown MODE flag"] w)
       ∧ props (sess (dump_numeric c "501" [i; "Unknown MODE flag"] w) c)
         = props (sess w c))
  ∧ legacy_mode_step c (true, w) "o" = (true, w)
  ∧ (∀ prop, dict_get "o" user_mode_items = Some prop →
       legacy_mode_step c (false, w) "o"
       = (false, upd c (fun s => set_props (<[casefold prop := false]> (props s)) s) w))
  ∧ (∀ md i prop, i ≠ "+" → i ≠ "-" → i ≠ "o" →
       dict_get i user_mode_items = Some prop →
       legacy_mode_step c (md, w) i
       = (md, upd c (fun s => set_props (<[casefold prop := md]> (props s)) s) w))
  ∧ (∀ in_str,
       let w1 := snd (fold_left (legacy_mode_step c) (py_chars in_str) (false, w)) in
       sent (sess (set_legacy_modes c in_str w) c)
       = sent (sess w c)
         ++ map (numeric_501 w c) (List.filter unknown_flag (py_chars in_str))
         ++ [mode_line w c (grouped_diff (props (sess w c)) (props (sess w1 c)))]
       ∧ props (sess (set_legacy_modes c in_str w) c) = props (sess w1 c)).
Proof.
  intros Ho. split; [|split; [|split; [|split; [|split]]]].
  - intros md. by split.
  - intros md i Hp Hm Hget. unfold legacy_mode_step.
    apply String.eqb_neq in Hp, Hm. rewrite Hp, Hm, Hget.
    assert (Hio : String.eqb i "o" = false).
    { apply String.eqb_neq. intros ->. rewrite Hget in Ho. by destruct Ho. }
    rewrite Hio. simpl. split; [done|]. by rewrite sess_dump_numeric.
  - done.
  - intros prop Hget. unfold legacy_mode_step. simpl. by rewrite Hget.
  - intros md i prop Hp Hm Hio Hget. unfold legacy_mode_step.
    apply String.eqb_neq in Hp, Hm, Hio. by rewrite Hp, Hm, Hio, Hget.
  - intros in_str w1.
    destruct (legacy_walk c (py_chars in_str) false w Ho) as (Hsent & Hsame & Hconf).
    fold w1 in Hsent, Hsame, Hconf.
    unfold set_legacy_modes, flush_legacy_mode_change. fold w1.
    rewrite sess_dump_message. case_decide; [|done]. simpl.
    rewrite flush_out_grouped, (outbound_self c w w1) by done.
    rewrite Hsent. by rewrite <- app_assoc.
Qed.

(** ** The scenarios, evaluated *)

Module ScenarioFacts.
Import Scenario.
#[local] Existing Instance ascii_externals.

(** Evaluation of a closed conjunction of equations. *)
Ltac evaluate :=
  repeat match goal with |- _ ∧ _ => split end; vm_compute; reflexivity.


(** C1.  Alice and Bob share a channel and Bob's [caps] hold
    away-notify.  Asked for the common peers of Alice with that
    capability, [get_common_peers] returns nobody, Bob included, because
    Alice lacks it: the conditional of line 419 takes the whole list, not
    only [[self]].  Without a capability both are returned. *)
Lemma get_common_peers_drops_capable_peer :
  channels (sess cap_world 0) = [7]
  ∧ members cap_world 7 = [0; 1]
  ∧ has_cap "away-notify" (sess cap_world 1) = true
  ∧ has_cap "away-notify" (sess cap_world 0) = false
  ∧ get_common_peers 0 [] (Some "away-notify") cap_world = []
  ∧ get_common_peers 0 [] None cap_world = [0; 1].
Proof. evaluate. Qed.

(** C4.  With fourteen ISUPPORT tokens [dump_isupport] writes a single
    005 line that carries all fourteen, ahead of the trailing
    parameter. *)
Lemma dump_isupport_fourteen_on_one_line :
  length (isupport_tokens isupport_world) = 14
  ∧ sent (sess (dump_isupport 0 isupport_world) 0)
    = [from_data "005" (SrcName "irc.example.net")
         ["alice"; "NETWORK=ExampleNet"; "CLIENTVER=3.2"; "CASEMAPPING=ascii";
          "CHARSET=utf-8"; "SAFELIST"; "METADATA=10"; "MONITOR=100";
          "CHANTYPES=#"; "NICKLEN=31"; "CHANNELLEN=50"; "TOPICLEN=390";
          "LINELEN=2048"; "USERLEN=10"; "EXCEPTS";
          "are supported by this server"]].
Proof. evaluate. Qed.

(** C2 as stated fails.  The client sends the base64 text of
    "\0bob\0hunter2" while PLAIN is in progress.  The payload splits into
    an empty first field, "bob" and "hunter2"; the handler looks up
    [account.] and, the store holding only [account.bob], answers 904
    and leaves the account unset. *)
Lemma sasl_plain_rfc_payload_rejected :
  b64decode payload_rfc_b64 = Some payload_rfc
  ∧ split_nul payload_rfc = [""; "bob"; "hunter2"]
  ∧ data sasl_world !! "account.bob" = Some (mkAccountInfo (Some "plain:hunter2") true)
  ∧ hashing_verify "hunter2" "plain:hunter2" = true
  ∧ m_sasl_plain 0 payload_rfc sasl_world
    = Returned (dump_numeric 0 "904" ["SASL authentication failed"] sasl_world)
  ∧ m_AUTHENTICATE 0 [payload_rfc_b64] sasl_world
    = Returned (dump_numeric 0 "904" ["SASL authentication failed"] sasl_world)
  ∧ account (sess (final (m_AUTHENTICATE 0 [payload_rfc_b64] sasl_world)) 0) = None
  ∧ sent (sess (final (m_AUTHENTICATE 0 [payload_rfc_b64] sasl_world)) 0)
    = [numeric_904 sasl_world 0].
Proof. evaluate. Qed.

(** The amended C2 on the payload "bob\0\0hunter2". *)
Lemma sasl_plain_authcid_first_witness :
  data sasl_world !! ("account." +:+ "bob") = Some (mkAccountInfo (Some "plain:hunter2") true)
  ∧ hashing_verify "hunter2" "plain:hunter2" = true
  ∧ ∃ w', m_sasl_plain 0 payload_first sasl_world = Returned w'
          ∧ account (sess w' 0) = Some "bob"
          ∧ sent (sess w' 0)
            = sent (sess sasl_world 0)
              ++ [numeric_900 sasl_world 0 (default "*" (hostmask (sess sasl_world 0))) "bob";
                  numeric_903 sasl_world 0].
Proof.
  split; [vm_compute; reflexivity|]. split; [vm_compute; reflexivity|].
  apply (proj1 (sasl_plain_authcid_first 0 sasl_world "bob" "" "hunter2"
                  eq_refl eq_refl eq_refl eq_refl eq_refl)
           (mkAccountInfo (Some "plain:hunter2") true) "plain:hunter2");
    vm_compute; reflexivity.
Defined.

(** C3 as stated fails.  For a registered session the first [exit]
    returns and the second raises [KeyError] when it pops the nickname
    from the registry again. *)
Lemma exit_twice_registered_raises :
  registered (sess (registered_world 0 "alice" empty_world) 0) = true
  ∧ raised (exit 0 (registered_world 0 "alice" empty_world)) = None
  ∧ exit 0 (final (exit 0 (registered_world 0 "alice" empty_world)))
    = Raised (KeyError "alice") (final (exit 0 (registered_world 0 "alice" empty_world))).
Proof. evaluate. Qed.

(** C5 as stated fails.  With [recvq_len] 0 the first message of a new
    session passes the check, [0 > 0] being false, and is appended: the
    queue then holds one message, more than [recvq_len]. *)
Lemma recvq_exceeds_limit :
  recvq (sess flood_world 0) = []
  ∧ message_received 0 ping flood_world
    = Returned <$> drain_queue 0 (recvq_append 0 ping flood_world)
  ∧ recvq (sess (recvq_append 0 ping flood_world) 0) = [ping]
  ∧ Z.lt (recvq_len (conf flood_world))
         (Z.of_nat (length (recvq (sess (recvq_append 0 ping flood_world) 0)))).
Proof. evaluate. Qed.

(** The amended C5 on the same session, and on it with a message still
    queued, which is more than [recvq_len] allows. *)
Lemma message_received_flood_witness :
  Z.le (Z.of_nat (length (recvq (sess flood_world 0)))) (recvq_len (conf flood_world))
  ∧ (∃ w', message_received 0 ping flood_world = Some (Returned w')
           ∧ recvq (sess w' 0) = [])
  ∧ Z.lt (recvq_len (conf flooded_world))
         (Z.of_nat (length (recvq (sess flooded_world 0))))
  ∧ message_received 0 ping flooded_world = Some (quit 0 "Excess flood" flooded_world)
  ∧ recvq (sess (final (quit 0 "Excess flood" flooded_world)) 0) = [ping]
  ∧ connected (sess (final (quit 0 "Excess flood" flooded_world)) 0) = false.
Proof.
  assert (Hle : Z.le (Z.of_nat (length (recvq (sess flood_world 0))))
                     (recvq_len (conf flood_world)))
    by (vm_compute; discriminate).
  assert (Hlt : Z.lt (recvq_len (conf flooded_world))
                     (Z.of_nat (length (recvq (sess flooded_world 0)))))
    by (vm_compute; reflexivity).
  split; [exact Hle|]. split.
  { apply (proj2 (message_received_flood 0 ping flood_world)). exact Hle. }
  split; [exact Hlt|].
  destruct (proj1 (message_received_flood 0 ping flooded_world) Hlt)
    as (Hq & Hr & _ & Hc & _).
  split; [exact Hq|]. split; [rewrite Hr; vm_compute; reflexivity | exact Hc].
Defined.

(** C6 as stated fails.  After a payload of 401 characters the session
    has been sent 905 and nothing else, is still connected and its
    transport is open. *)
Lemma authenticate_too_long_stays_connected :
  truthy (sasl (sess sasl_world 0)) = true
  ∧ py_len long_payload = 401
  ∧ connected (sess (final (m_AUTHENTICATE 0 [long_payload] sasl_world)) 0) = true
  ∧ transport_closed (sess (final (m_AUTHENTICATE 0 [long_payload] sasl_world)) 0) = false
  ∧ sent (sess (final (m_AUTHENTICATE 0 [long_payload] sasl_world)) 0)
    = [from_data "905" (SrcName "irc.example.net") ["*"; "SASL message too long"]].
Proof. evaluate. Qed.

(** The amended C6 on the same payload. *)
Lemma authenticate_too_long_witness :
  truthy (sasl (sess sasl_world 0)) = true
  ∧ [long_payload] !! 0 = Some long_payload
  ∧ (400 < py_len long_payload)%nat
  ∧ m_AUTHENTICATE 0 [long_payload] sasl_world
    = Returned (upd 0 (set_sasl None)
                  (dump_numeric 0 "905" ["SASL message too long"] sasl_world)).
Proof.
  assert (Hlen : (400 < py_len long_payload)%nat) by (vm_compute; lia).
  split; [vm_compute; reflexivity|]. split; [reflexivity|]. split; [exact Hlen|].
  apply (authenticate_too_long 0 [long_payload] long_payload sasl_world
           eq_refl eq_refl Hlen).
Defined.

(** C7 on a new session that releases its three locks, one of them
    twice, and then pushes a lock: registered, welcomed once. *)
Lemma registration_lock_invariant_witness :
  lock_invariant (sess fresh_world 0)
  ∧ lock_invariant (sess (run registration fresh_world) 0)
  ∧ registered (sess (run registration fresh_world) 0) = true
  ∧ welcomes (sess (run registration fresh_world) 0) = 1.
Proof.
  assert (Hinv : lock_invariant (sess fresh_world 0)).
  { apply lock_invariant_bool. vm_compute. reflexivity. }
  destruct (registration_lock_invariant fresh_world 0 Hinv)
    as (_ & Hall & _ & _ & Hone).
  split; [exact Hinv|]. split; [apply Hall|]. split; [vm_compute; reflexivity|].
  rewrite Hone. vm_compute. reflexivity.
Defined.

(** C8 on the mode string "+iox-w" for a session without modes: "o" is
    skipped, "x" is answered with 501, and the MODE line reads "+i". *)
Lemma set_legacy_modes_walk_witness :
  is_Some (dict_get "o" user_mode_items)
  ∧ legacy_mode_step 0 (true, fresh_world) "o" = (true, fresh_world)
  ∧ sent (sess (set_legacy_modes 0 "+iox-w" fresh_world) 0)
    = [numeric_501 fresh_world 0 "x"; mode_line fresh_world 0 "+i"].
Proof.
  assert (Ho : is_Some (dict_get "o" user_mode_items)) by (eexists; reflexivity).
  destruct (set_legacy_modes_walk 0 fresh_world Ho) as (_ & _ & Hplus & _ & _ & Hall).
  split; [exact Ho|]. split; [exact Hplus|].
  destruct (Hall "+iox-w") as (-> & _). vm_compute. reflexivity.
Defined.

(** C9 on a payload without NUL. *)
Lemma sasl_plain_split_raises_witness :
  count_nul "bob" ≠ 2
  ∧ m_sasl_plain 0 "bob" sasl_world = Raised ValueError sasl_world.
Proof.
  assert (Hn : count_nul "bob" ≠ 2) by (vm_compute; lia).
  split; [exact Hn|].
  apply (proj1 (sasl_plain_split_raises 0 sasl_world "bob")). exact Hn.
Defined.

(** C10 on the payload "bob\0\0hunter2" before registration. *)
Lemma sasl_plain_unregistered_star_witness :
  registered (sess sasl_world 0) = false
  ∧ hostmask (sess sasl_world 0) = None
  ∧ ∃ w', m_sasl_plain 0 payload_first sasl_world = Returned w'
          ∧ account (sess w' 0) = Some "bob"
          ∧ sent (sess w' 0)
            = sent (sess sasl_world 0)
              ++ [numeric_900 sasl_world 0 "*" "bob"; numeric_903 sasl_world 0].
Proof.
  split; [vm_compute; reflexivity|].
  apply (sasl_plain_unregistered_star 0 sasl_world "bob" "" "hunter2"
           (mkAccountInfo (Some "plain:hunter2") true) "plain:hunter2");
    vm_compute; reflexivity.
Defined.

End ScenarioFacts.

(** ** Fan-out *)

Section FanOut.
Context `{Externals}.

Lemma get_common_peers_NoDup c exclude cap w :
  NoDup (get_common_peers c exclude cap w).
Proof.
  destruct (wants cap (sess w c)) eqn:Hw.
  - by apply get_common_peers_wanted.
  - rewrite get_common_peers_unwanted by done. apply NoDup_nil_2.
Qed.

Lemma only_sent_refl w : only_sent w w.
Proof. split; [done|]. intros d. apply same_but_props_sent_refl. Qed.

Lemma only_sent_trans w1 w2 w3 : only_sent w1 w2 → only_sent w2 w3 → only_sent w1 w3.
Proof.
  intros [Hc1 Hs1] [Hc2 Hs2]. split; [congruence|].
  intros d. eapply same_but_props_sent_trans; [apply Hs1 | apply Hs2].
Qed.

Lemma only_sent_send c msg w :
  only_sent w (upd c (fun s => set_sent (sent s ++ [msg]) s) w).
Proof.
  split; [done|]. intros d. rewrite sess_upd.
  case_decide; [subst d|apply same_but_props_sent_refl].
  unfold same_but_props_sent. by destruct (sess w c).
Qed.

Lemma outbound_only_sent d m w w' :
  only_sent w w' → outbound d m w' = outbound d m w.
Proof.
  intros [_ Hs]. unfold outbound. destruct (source m) as [|name|src]; try done.
  unfold has_cap, hostmask.
  rewrite (Hs d), (Hs src). done.
Qed.

Lemma set_sent_nil s : set_sent (sent s ++ []) s = s.
Proof. rewrite app_nil_r. by destruct s. Qed.

(** Sending along a list without repetition: each session of the list is
    sent its message once, and nothing else changes. *)
Lemma fold_send (op : sid → World → World) (msg : sid → World → Message)
    (l : list sid) w w0 :
  (∀ i w', op i w' = upd i (fun s => set_sent (sent s ++ [msg i w']) s) w') →
  (∀ i w', only_sent w w' → msg i w' = msg i w) →
  only_sent w w0 → NoDup l →
  only_sent w (fold_left (fun w' i => op i w') l w0)
  ∧ ∀ d, sess (fold_left (fun w' i => op i w') l w0) d
         = set_sent (sent (sess w0 d)
                     ++ (if bool_decide (d ∈ l) then [msg d w] else []))
             (sess w0 d).
Proof.
  intros Hop Hmsg Hw0 Hnd. revert w0 Hw0.
  induction Hnd as [|i l Hi Hnd IH]; intros w0 Hw0; simpl.
  - split; [done|]. intros d. by rewrite set_sent_nil.
  - assert (H1 : only_sent w (op i w0)).
    { rewrite Hop. eapply only_sent_trans; [exact Hw0 | apply only_sent_send]. }
    destruct (IH (op i w0) H1) as (Hfin & Hsess). split; [done|].
    intros d. rewrite Hsess, Hop, sess_upd, (Hmsg i w0 Hw0).
    destruct (decide (i = d)) as [->|Hid].
    + rewrite (bool_decide_false (d ∈ l)) by done.
      rewrite (bool_decide_true (d ∈ d :: l)) by (apply elem_of_cons; by left).
      simpl. by rewrite app_nil_r.
    + destruct (bool_decide (d ∈ l)) eqn:Hdl.
      * apply bool_decide_eq_true in Hdl.
        by rewrite (bool_decide_true (d ∈ i :: l)) by (apply elem_of_cons; by right).
      * apply bool_decide_eq_false in Hdl.
        rewrite (bool_decide_false (d ∈ i :: l)); [done|].
        intros [->|?]%elem_of_cons; done.
Qed.

Lemma sendto_common_peers_sess c m exclude cap w d :
  sess (sendto_common_peers c m exclude cap w) d
  = set_sent (sent (sess w d)
              ++ (if bool_decide (d ∈ get_common_peers c exclude cap w)
                  then [outbound d m w] else []))
      (sess w d).
Proof.
  unfold sendto_common_peers.
  apply (fold_send (fun i w' => dump_message i m w') (fun i w' => outbound i m w')).
  - done.
  - intros i w' Hw'. by apply outbound_only_sent.
  - apply only_sent_refl.
  - apply get_common_peers_NoDup.
Qed.

Lemma exit_sent c w d : sent (sess (final (exit c w)) d) = sent (sess w d).
Proof.
  revert d. apply (frame_exit same_sent); unfold same_sent; try done; congruence.
Qed.

End FanOut.

(** X1.  Where the session itself passes the capability filter (no
    capability asked for, or one the session holds), [get_common_peers]
    returns a list without repetition that holds exactly the sessions
    outside the exclude list that are the session itself or a member of
    one of its channels passing the filter. *)
Theorem common_peers_exact `{Externals} (c : sid) (exclude : list sid)
    (cap : option string) (w : World) :
  wants cap (sess w c) = true →
  NoDup (get_common_peers c exclude cap w)
  ∧ ∀ x, x ∈ get_common_peers c exclude cap w
         ↔ (x ∉ exclude)
           ∧ (x = c
              ∨ (x ∈ flat_map (members w) (channels (sess w c))
                 ∧ wants cap (sess w x) = true)).
Proof. apply get_common_peers_wanted. Qed.


(** X3.  [numericto_common_peers] sends each common peer the numeric
    once, addressed to the nickname of that peer when [add_target] is
    set; [verbto_common_peers] sends each of them the verb once, from
    the server name when no source is given.  Nothing else changes. *)
Theorem numericto_verbto_common_peers_once `{Externals} (c : sid)
    (numeric v : string) (ps : list string) (add_target : bool) (src : Source)
    (exclude : list sid) (cap : option string) (w : World) (d : sid) :
  sess (numericto_common_peers c numeric ps add_target exclude cap w) d
  = set_sent (sent (sess w d)
              ++ (if bool_decide (d ∈ get_common_peers c exclude cap w)
                  then [from_data numeric (SrcName (conf_name (conf w)))
                          (if add_target then nickname (sess w d) :: ps else ps)]
                  else []))
      (sess w d)
  ∧ sess (verbto_common_peers c v ps src exclude cap w) d
    = set_sent (sent (sess w d)
                ++ (if bool_decide (d ∈ get_common_peers c exclude cap w)
                    then [outbound d
                            (from_data v
                               (match src with
                                | SrcNone => SrcName (conf_name (conf w))
                                | _ => src
                                end) ps) w]
                    else []))
        (sess w d).
Proof.
  split.
  - unfold numericto_common_peers.
    apply (fold_send (fun i w' => dump_numeric_to i numeric ps add_target w')
             (fun i w' => from_data numeric (SrcName (conf_name (conf w')))
                            (if add_target then nickname (sess w' i) :: ps else ps))).
    + intros i w'. unfold dump_numeric_to, dump_message.
      by rewrite (outbound_named _ _ _ (conf_name (conf w'))).
    + intros i w' [Hc Hs]. rewrite Hc, (Hs i). done.
    + apply only_sent_refl.
    + apply get_common_peers_NoDup.
  - unfold verbto_common_peers.
    set (src' := match src with SrcNone => _ | _ => src end).
    apply (fold_send (fun i w' => dump_verb i v ps src' false w')
             (fun i w' => outbound i (from_data v src' ps) w')).
    + intros i w'. unfold dump_verb, dump_message.
      subst src'. by destruct src.
    + intros i w' Hw'. by apply outbound_only_sent.
    + apply only_sent_refl.
    + apply get_common_peers_NoDup.
Qed.



(** X4.  [exit] of a registered session whose nickname is in the registry
    returns normally: the nickname is gone from the registry and the
    other entries stay, the history holds the identity of the session
    under its nickname, the session has no channel left, is disconnected,
    its transport closed and its timers cancelled, and no other session
    is changed. *)
Theorem exit_registered_unlinks `{Externals} (c : sid) (w : World) (x : sid) :
  registered (sess w c) = true →
  clients w !! casefold (nickname (sess w c)) = Some x →
  ∃ w', exit c w = Returned w'
        ∧ clients w' = delete (casefold (nickname (sess w c))) (clients w)
        ∧ dict_get (nickname (sess w c)) (client_history w')
          = Some (mkHistory (nickname (sess w c)) (username (sess w c))
                    (hostname (sess w c)) (realname (sess w c)) (account (sess w c)))
        ∧ sess w' c
          = set_channels []
              (set_transport_closed true
                 (set_connected false
                    (set_timers (cancel (ping_future (sess w c)))
                       (cancel (ping_timeout_future (sess w c))) (sess w c))))
        ∧ ∀ d, d ≠ c → sess w' d = sess w d.
Proof.
  intros Hreg Hkey. pose proof (exit_cases c w) as Hex. simpl in Hex.
  rewrite Hreg in Hex. simpl in Hex.
  destruct Hex as (w4 & Hc & Hd & Hcl & Hh & _ & _ & Hexit).
  rewrite Hkey in Hexit. eexists. split; [exact Hexit|].
  split; [done|]. split; [|split; [exact Hc | exact Hd]].
  unfold history_register. simpl.
  change (sess (set_clients _ w4) c) with (sess w4 c). rewrite Hc. simpl.
  apply dict_get_history_set.
Qed.

(** X5.  [exit] raises exactly when the session is registered and its
    nickname is not in the registry, and then it is a [KeyError] of that
    nickname with registry and history as they were.  Raising or not, it
    leaves the session disconnected, its transport closed and both
    timers cancelled. *)
Theorem exit_raises_iff `{Externals} (c : sid) (w : World) :
  raised (exit c w)
  = (if registered (sess w c)
        && bool_decide (clients w !! casefold (nickname (sess w c)) = None)
     then Some (KeyError (nickname (sess w c))) else None)
  ∧ (raised (exit c w) ≠ None →
     clients (final (exit c w)) = clients w
     ∧ client_history (final (exit c w)) = client_history w)
  ∧ connected (sess (final (exit c w)) c) = false
  ∧ transport_closed (sess (final (exit c w)) c) = true
  ∧ ping_future (sess (final (exit c w)) c) = cancel (ping_future (sess w c))
  ∧ ping_timeout_future (sess (final (exit c w)) c)
    = cancel (ping_timeout_future (sess w c)).
Proof.
  pose proof (exit_cases c w) as Hex. simpl in Hex.
  destruct (registered (sess w c)) eqn:Hreg; simpl in Hex.
  - destruct Hex as (w4 & Hc & Hd & Hcl & Hh & _ & _ & Hexit). rewrite Hexit.
    destruct (clients w !! casefold (nickname (sess w c))) as [x|] eqn:Hkey; simpl.
    + split; [done|]. split; [done|].
      unfold history_register.
      change (sess (set_client_history _ (set_clients _ w4)) c) with (sess w4 c).
      by rewrite Hc.
    + split; [done|]. split; [done|]. by rewrite Hc.
  - rewrite Hex. simpl. split; [done|]. split; [done|]. by rewrite sess_upd_eq.
Qed.

(** X6.  [connection_lost] happens once: a second call, with whatever
    exception, changes nothing, whatever the first call did.  The first
    call sends the session its own QUIT line, with the reason
    "Connection closed" or "Connection error: " and the exception, only
    if the session was connected, and leaves it disconnected. *)
Theorem connection_lost_once `{Externals} (c : sid) (exc exc' : option string)
    (w : World) :
  connection_lost c exc' (final (connection_lost c exc w))
  = Returned (final (connection_lost c exc w))
  ∧ connected (sess (final (connection_lost c exc w)) c) = false
  ∧ sent (sess (final (connection_lost c exc w)) c)
    = sent (sess w c)
      ++ (if connected (sess w c)
          then [self_line w c "QUIT"
                  [match exc with
                   | None => "Connection closed"
                   | Some r => "Connection error: " +:+ r
                   end]]
          else []).
Proof.
  assert (Hfirst : connection_lost c exc w
                   = (if connected (sess w c)
                      then quit c (match exc with
                                   | None => "Connection closed"
                                   | Some r => "Connection error: " +:+ r
                                   end) w
                      else Returned w)).
  { unfold connection_lost. destruct (connected (sess w c)); simpl; [|done].
    by destruct exc. }
  rewrite Hfirst.
  destruct (connected (sess w c)) eqn:Hconn.
  - split; [|split].
    + unfold connection_lost at 1. by rewrite (proj1 (quit_disconnects _ _ _)).
    + apply quit_disconnects.
    + apply quit_sent_self.
  - split; [|split].
    + unfold connection_lost. simpl. by rewrite Hconn.
    + exact Hconn.
    + simpl. by rewrite app_nil_r.
Qed.

(** ** Kill and shutdown *)

Section KillShutdown.
Context `{Externals}.

Lemma get_common_peers_send c exclude msg i w :
  get_common_peers c exclude None (upd i (fun s => set_sent (sent s ++ [msg]) s) w)
  = get_common_peers c exclude None w.
Proof.
  unfold get_common_peers, members. simpl.
  rewrite sess_upd. by case_decide; [subst i|].
Qed.

Lemma sess_dump_notice c msg w d :
  sess (dump_notice c msg w) d
  = if decide (c = d)
    then set_sent (sent (sess w c)
                   ++ [from_data "NOTICE" (SrcName (conf_name (conf w)))
                         [nickname (sess w c); "*** " +:+ msg]]) (sess w c)
    else sess w d.
Proof.
  unfold dump_notice, dump_verb. simpl. rewrite sess_dump_message.
  by rewrite (outbound_named _ _ _ (conf_name (conf w))).
Qed.

End KillShutdown.

(** X7.  [kill] writes the KILL line to the target and then runs [quit]
    with the reason "Killed (<nickname of the source> (<reason>))": the
    target is sent the KILL line followed by its own QUIT line, every
    other common peer is sent the QUIT line once, nobody else is sent
    anything, and the target ends disconnected with its transport
    closed. *)
Theorem kill_then_quit `{Externals} (c src : sid) (reason : string) (w : World)
    (d : sid) :
  let quit_message :=
    from_data "QUIT" (SrcClient c)
      ["Killed (" +:+ nickname (sess w src) +:+ " (" +:+ reason +:+ "))"] in
  sent (sess (final (kill c src reason w)) d)
  = sent (sess w d)
    ++ (if bool_decide (d = c)
        then [outbound c (from_data "KILL" (SrcClient src)
                            [nickname (sess w c); reason]) w]
        else [])
    ++ (if bool_decide (d ∈ get_common_peers c [] None w)
        then [outbound d quit_message w] else [])
  ∧ c ∈ get_common_peers c [] None w
  ∧ connected (sess (final (kill c src reason w)) c) = false
  ∧ transport_closed (sess (final (kill c src reason w)) c) = true.
Proof.
  intros quit_message. unfold kill.
  set (km := from_data "KILL" (SrcClient src) [nickname (sess w c); reason]).
  set (w1 := dump_message c km w).
  assert (Hos : only_sent w w1) by apply only_sent_send.
  assert (Hnick : nickname (sess w1 src) = nickname (sess w src)).
  { destruct Hos as [_ Hs]. by rewrite (Hs src). }
  rewrite Hnick. fold quit_message.
  assert (Hpeers : get_common_peers c [] None w1 = get_common_peers c [] None w)
    by apply get_common_peers_send.
  split; [|split; [|apply quit_disconnects]].
  - unfold quit. rewrite exit_sent, sendto_common_peers_sess. simpl.
    rewrite Hpeers.
    rewrite (outbound_only_sent d quit_message w w1 Hos).
    unfold w1. rewrite sess_dump_message.
    destruct (decide (c = d)) as [->|Hcd].
    + rewrite (bool_decide_true (d = d)) by done. simpl.
      by rewrite <- app_assoc.
    + rewrite (bool_decide_false (d = c)) by congruence. done.
  - apply get_common_peers_wanted; [done|]. split; [set_solver|by left].
Qed.

(** X8.  The loop of [shutdown] over clients without repetition, each
    registered and found in the registry under its own nickname only,
    returns normally.  Each of them is sent the notice if it was still
    connected and nothing else, and ends disconnected with its transport
    closed and no channel; none of them is left in the registry, to which
    nothing is added; and where the loop covers the registry, the
    registry ends empty. *)
Theorem shutdown_exits_all `{Externals} (reason : string) (snapshot : list sid)
    (w : World) :
  NoDup snapshot →
  (∀ c, c ∈ snapshot →
     registered (sess w c) = true
     ∧ ∀ k, clients w !! k = Some c ↔ k = casefold (nickname (sess w c))) →
  ∃ w', shutdown reason snapshot w = Returned w'
        ∧ (∀ c, c ∈ snapshot →
             connected (sess w' c) = false
             ∧ transport_closed (sess w' c) = true
             ∧ channels (sess w' c) = []
             ∧ sent (sess w' c)
               = sent (sess w c)
                 ++ (if connected (sess w c)
                     then [from_data "NOTICE" (SrcName (conf_name (conf w)))
                             [nickname (sess w c);
                              "*** " +:+ "Server Terminating. " +:+ reason]]
                     else []))
        ∧ (∀ d, d ∉ snapshot → sess w' d = sess w d)
        ∧ (∀ k, clients w' !! k
                = match clients w !! k with
                  | Some x => if bool_decide (x ∈ snapshot) then None else Some x
                  | None => None
                  end)
        ∧ ((∀ k x, clients w !! k = Some x → x ∈ snapshot) → clients w' = ∅).
Proof.
  intros Hnd Hreg.
  assert (Hmain : ∃ w', shutdown reason snapshot w = Returned w'
        ∧ conf w' = conf w
        ∧ (∀ c, c ∈ snapshot →
             connected (sess w' c) = false
             ∧ transport_closed (sess w' c) = true
             ∧ channels (sess w' c) = []
             ∧ sent (sess w' c)
               = sent (sess w c)
                 ++ (if connected (sess w c)
                     then [from_data "NOTICE" (SrcName (conf_name (conf w)))
                             [nickname (sess w c);
                              "*** " +:+ "Server Terminating. " +:+ reason]]
                     else []))
        ∧ (∀ d, d ∉ snapshot → sess w' d = sess w d)
        ∧ (∀ k, clients w' !! k
                = match clients w !! k with
                  | Some x => if bool_decide (x ∈ snapshot) then None else Some x
                  | None => None
                  end)).
  { revert w Hreg. induction Hnd as [|c l Hc Hnd IH]; intros w Hreg.
    - exists w. simpl. split; [done|]. split; [done|].
      split; [intros c Hc; by apply elem_of_nil in Hc|]. split; [done|].
      intros k. by destruct (clients w !! k).
    - simpl.
      set (w1 := if connected (sess w c)
                 then dump_notice c ("Server Terminating. " +:+ reason) w else w).
      assert (H1c : sess w1 c
                    = set_sent (sent (sess w c)
                        ++ (if connected (sess w c)
                            then [from_data "NOTICE" (SrcName (conf_name (conf w)))
                                    [nickname (sess w c);
                                     "*** " +:+ "Server Terminating. " +:+ reason]]
                            else [])) (sess w c)).
      { unfold w1. destruct (connected (sess w c)).
        - rewrite sess_dump_notice. by case_decide.
        - by rewrite set_sent_nil. }
      assert (H1d : ∀ d, d ≠ c → sess w1 d = sess w d).
      { intros d Hd. unfold w1. destruct (connected (sess w c)); [|done].
        rewrite sess_dump_notice. by case_decide. }
      assert (H1r : clients w1 = clients w ∧ conf w1 = conf w).
      { unfold w1. by destruct (connected (sess w c)). }
      destruct H1r as [H1r H1f].
      destruct (Hreg c) as [Hcr Hck]; [apply elem_of_cons; by left|].
      destruct (exit_registered_effect c w1 c) as (w2 & Hex & Hcl2 & Hs2 & Hd2 & Hcf2).
      { by rewrite H1c. }
      { rewrite H1c, H1r. simpl. by apply Hck. }
      rewrite Hex. rewrite H1c in Hcl2, Hs2. simpl in Hcl2, Hs2. rewrite H1r in Hcl2.
      destruct (IH w2) as (w' & Hsh & Hcf & Hin & Hout & Hcl).
      { intros c' Hc'. assert (Hne : c' ≠ c) by (intros ->; done).
        rewrite Hd2, H1d by done.
        destruct (Hreg c') as [Hr' Hk']; [apply elem_of_cons; by right|].
        split; [done|]. intros k. rewrite Hcl2.
        destruct (decide (k = casefold (nickname (sess w c)))) as [->|Hk].
        - rewrite lookup_delete_eq. split; [done|].
          intros Heq. assert (Hcc : clients w !! casefold (nickname (sess w c)) = Some c)
            by (by apply Hck).
          assert (Hcc' : clients w !! casefold (nickname (sess w c)) = Some c')
            by (apply Hk'; done).
          congruence.
        - rewrite lookup_delete_ne by done. apply Hk'. }
      exists w'. split; [done|]. split; [congruence|].
      split; [|split].
      + intros c' [->|Hc']%elem_of_cons.
        * rewrite (Hout c Hc), Hs2. simpl. done.
        * assert (Hne : c' ≠ c) by (intros ->; done).
          destruct (Hin c' Hc') as (? & ? & ? & Hsent).
          rewrite Hsent, Hcf2, H1f, Hd2, H1d by done. done.
      + intros d Hd. rewrite Hout by (intros ?; apply Hd, elem_of_cons; by right).
        assert (Hne : d ≠ c) by (intros ->; apply Hd, elem_of_cons; by left).
        by rewrite Hd2, H1d.
      + intros k. rewrite Hcl, Hcl2.
        destruct (decide (k = casefold (nickname (sess w c)))) as [->|Hk].
        * rewrite lookup_delete_eq.
          rewrite (proj2 (Hck _) eq_refl).
          rewrite bool_decide_true; [done|]. apply elem_of_cons; by left.
        * rewrite lookup_delete_ne by done.
          destruct (clients w !! k) as [x|] eqn:Hx; [|done].
          assert (Hxc : x ≠ c).
          { intros ->. apply Hk. by apply Hck. }
          destruct (bool_decide (x ∈ l)) eqn:Hxl.
          -- apply bool_decide_eq_true in Hxl.
             rewrite bool_decide_true; [done|]. apply elem_of_cons; by right.
          -- apply bool_decide_eq_false in Hxl.
             rewrite bool_decide_false; [done|].
             intros [->|?]%elem_of_cons; done. }
  destruct Hmain as (w' & Hsh & _ & Hin & Hout & Hcl).
  exists w'. split; [done|]. split; [done|]. split; [done|]. split; [done|].
  intros Hall. apply map_eq. intros k. rewrite Hcl, lookup_empty.
  destruct (clients w !! k) as [x|] eqn:Hx; [|done].
  rewrite bool_decide_true; [done|]. by eapply Hall.
Qed.

(** ** The welcome burst and the registration locks *)

Section Welcome.
Context `{Externals}.

Lemma stage_start c w : stage c w (clients w) (sess w c) (sent (sess w c)) w.
Proof. split; [by destruct (sess w c)|done]. Qed.

Lemma stage_numeric c w K s1 l n ps w' :
  stage c w K s1 l w' →
  stage c w K s1
    (l ++ [from_data n (SrcName (conf_name (conf w))) (nickname s1 :: ps)])
    (dump_numeric c n ps w').
Proof.
  intros (Hs & Hd & Hcl & Hcf & Htk). split; [|split; [|done]].
  - rewrite sess_dump_numeric, Hcf, Hs. done.
  - intros d Hne. unfold dump_numeric. rewrite sess_dump_message.
    case_decide; [congruence|]. by apply Hd.
Qed.

Lemma stage_notice c w K s1 l msg w' :
  stage c w K s1 l w' →
  stage c w K s1
    (l ++ [from_data "NOTICE" (SrcName (conf_name (conf w)))
             [nickname s1; "*** " +:+ msg]])
    (dump_notice c msg w').
Proof.
  intros (Hs & Hd & Hcl & Hcf & Htk). split; [|split; [|done]].
  - rewrite sess_dump_notice. case_decide; [|done]. rewrite Hcf, Hs. done.
  - intros d Hne. rewrite sess_dump_notice. case_decide; [congruence|]. by apply Hd.
Qed.

Lemma stage_upd c w K s1 l f w' :
  f (set_sent l s1) = set_sent l (f s1) →
  stage c w K s1 l w' → stage c w K (f s1) l (upd c f w').
Proof.
  intros Hf (Hs & Hd & Hcl & Hcf & Htk). split; [|split; [|done]].
  - by rewrite sess_upd_eq, Hs.
  - intros d Hne. rewrite sess_upd_ne by done. by apply Hd.
Qed.

Lemma stage_clients c w K K' s1 l w' :
  stage c w K s1 l w' → stage c w K' s1 l (set_clients K' w').
Proof. intros (Hs & Hd & Hcl & Hcf & Htk). by split. Qed.

Lemma stage_list c w K s1 l l' w' : l = l' → stage c w K s1 l w' → stage c w K s1 l' w'.
Proof. by intros ->. Qed.

Lemma register_effect c w :
  let s := sess w c in
  let name := conf_name (conf w) in
  let s0 := set_timers (Some (mkTimer false)) (Some (mkTimer false))
              (set_registered true s) in
  let s1 := if truthy (sasl s) then set_sasl None s0 else s0 in
  stage c w (<[casefold (nickname s) := c]> (clients w)) s1
    (sent s ++ register_preamble name s
     ++ [from_data "001" (SrcName name)
           [nickname s;
            "Welcome to the " +:+ conf_network (conf w) +:+ " IRC Network, "
            +:+ default "" (hostmask (set_registered true s))];
         from_data "002" (SrcName name)
           [nickname s;
            "Your host is " +:+ name +:+ ", running version mammon-"
            +:+ version (conf w)];
         from_data "003" (SrcName name)
           [nickname s; "This server was started at " +:+ startstamp (conf w)];
         from_data "004" (SrcName name)
           [nickname s; name; "mammon-" +:+ version (conf w);
            join (map fst user_mode_items)];
         from_data "005" (SrcName name)
           (nickname s
            :: map (fun kv => format_token (fst kv) (snd kv)) (isupport_tokens w)
            ++ ["are supported by this server"])])
    (register c w).
Proof.
  intros s name s0 s1. unfold register.
  set (w0 := upd c (set_registered true) w).
  assert (H0 : stage c w (clients w) (set_registered true s) (sent s) w0).
  { apply (stage_upd c w _ s (sent s) (set_registered true)); [done|apply stage_start]. }
  assert (Hn0 : nickname (sess w0 c) = nickname s).
  { destruct H0 as (-> & _). done. }
  rewrite Hn0.
  set (w1 := set_clients _ w0).
  assert (H1 : stage c w (<[casefold (nickname s) := c]> (clients w))
                 (set_registered true s) (sent s) w1).
  { unfold w1. destruct H0 as (Hs & Hd & -> & Hcf & Htk). by split. }
  clearbody w1. clear H0 Hn0 w0.
  set (w2 := update_idle c w1).
  assert (H2 : stage c w (<[casefold (nickname s) := c]> (clients w)) s0 (sent s) w2).
  { unfold w2, update_idle, update_pings.
    by apply (stage_upd c w _ (set_registered true s) (sent s)
                (set_timers (Some (mkTimer false)) (Some (mkTimer false)))). }
  clearbody w2. clear H1 w1.
  set (pre1 := match tls s with
               | Some (c0, c1, c2) =>
                   [from_data "NOTICE" (SrcName name)
                      [nickname s;
                       "*** " +:+ "You are connected using " +:+ c1 +:+ "-" +:+ c0
                       +:+ "-" +:+ c2]]
               | None => []
               end).
  assert (Ht2 : tls (sess w2 c) = tls s) by (destruct H2 as (-> & _); done).
  rewrite Ht2.
  set (w3 := match tls s with Some _ => _ | None => w2 end).
  assert (H3 : stage c w (<[casefold (nickname s) := c]> (clients w)) s0
                 (sent s ++ pre1) w3).
  { unfold w3, pre1. destruct (tls s) as [[[c0 c1] c2]|].
    - by apply (stage_notice c w _ s0 (sent s)).
    - by rewrite app_nil_r. }
  clearbody w3. clear H2 Ht2 w2.
  set (pre2 := if truthy (sasl s)
               then [from_data "906" (SrcName name)
                       [nickname s; "SASL authentication aborted"]]
               else []).
  set (w4 := m_sasl_unreglocked c w3).
  assert (H4 : stage c w (<[casefold (nickname s) := c]> (clients w)) s1
                 ((sent s ++ pre1) ++ pre2) w4).
  { unfold w4, m_sasl_unreglocked, pre2, s1.
    assert (Hsasl : sasl (sess w3 c) = sasl s) by (destruct H3 as (-> & _); done).
    rewrite Hsasl. destruct (truthy (sasl s)).
    - apply (stage_numeric c w _ (set_sasl None s0) (sent s ++ pre1)).
      by apply (stage_upd c w _ s0 (sent s ++ pre1) (set_sasl None)).
    - by rewrite app_nil_r. }
  clearbody w4. clear H3 w3.
  assert (Hnick1 : nickname s1 = nickname s).
  { unfold s1. by destruct (truthy (sasl s)). }
  assert (Hcf4 : conf w4 = conf w) by (by destruct H4 as (_ & _ & _ & -> & _)).
  assert (Hhm4 : hostmask (sess w4 c) = hostmask (set_registered true s)).
  { destruct H4 as (-> & _). unfold s1. by destruct (truthy (sasl s)). }
  rewrite Hcf4, Hhm4.
  set (w5 := dump_numeric c "001" _ w4).
  assert (H5 := stage_numeric c w _ s1 _ "001"
      ["Welcome to the " +:+ conf_network (conf w) +:+ " IRC Network, "
       +:+ default "" (hostmask (set_registered true s))] w4 H4).
  fold w5 in H5. clearbody w5. clear H4 Hcf4 Hhm4 w4.
  assert (Hcf5 : conf w5 = conf w) by (by destruct H5 as (_ & _ & _ & -> & _)).
  rewrite Hcf5.
  set (w6 := dump_numeric c "002" _ w5).
  assert (H6 := stage_numeric c w _ s1 _ "002"
      ["Your host is " +:+ conf_name (conf w) +:+ ", running version mammon-"
       +:+ version (conf w)] w5 H5).
  fold w6 in H6. clearbody w6. clear H5 Hcf5 w5.
  assert (Hcf6 : conf w6 = conf w) by (by destruct H6 as (_ & _ & _ & -> & _)).
  rewrite Hcf6.
  set (w7 := dump_numeric c "003" _ w6).
  assert (H7 := stage_numeric c w _ s1 _ "003"
      ["This server was started at " +:+ startstamp (conf w)] w6 H6).
  fold w7 in H7. clearbody w7. clear H6 Hcf6 w6.
  assert (Hcf7 : conf w7 = conf w) by (by destruct H7 as (_ & _ & _ & -> & _)).
  rewrite Hcf7.
  set (w8 := dump_numeric c "004" _ w7).
  assert (H8 := stage_numeric c w _ s1 _ "004"
      [conf_name (conf w); "mammon-" +:+ version (conf w);
       join (map fst user_mode_items)] w7 H7).
  fold w8 in H8. clearbody w8. clear H7 Hcf7 w7.
  unfold dump_isupport.
  assert (Htk8 : isupport_tokens w8 = isupport_tokens w)
    by (by destruct H8 as (_ & _ & _ & _ & ->)).
  rewrite Htk8.
  assert (H9 := stage_numeric c w _ s1 _ "005"
      (map (fun kv => format_token (fst kv) (snd kv)) (isupport_tokens w)
       ++ ["are supported by this server"]) w8 H8).
  revert H9. apply stage_list.
  rewrite Hnick1. unfold register_preamble. fold pre1 pre2 name.
  rewrite <- !app_assoc. done.
Qed.

End Welcome.


Section Locks.
Context `{Externals}.

Lemma register_registered c w : registered (sess (register c w) c) = true.
Proof.
  destruct (register_effect c w) as (-> & _). simpl.
  by destruct (truthy (sasl (sess w c))).
Qed.

Lemma push_compose c X Y w :
  push_registration_lock c X (push_registration_lock c Y w)
  = push_registration_lock c (Y ++ X) w.
Proof.
  unfold push_registration_lock.
  destruct (registered (sess w c)) eqn:Hreg; [by rewrite Hreg|].
  rewrite sess_upd_eq. simpl. rewrite Hreg, upd_upd. apply upd_ext.
  unfold set_registration_lock. simpl.
  by rewrite list_to_set_app_L, (assoc_L (∪)).
Qed.

Lemma release_compose c X Y w :
  release_registration_lock c X (release_registration_lock c Y w)
  = release_registration_lock c (Y ++ X) w.
Proof.
  unfold release_registration_lock.
  destruct (registered (sess w c)) eqn:Hreg; [by rewrite Hreg|].
  rewrite !sess_upd_eq. simpl.
  assert (Hset : registration_lock (sess w c) ∖ list_to_set (Y ++ X)
                 = (registration_lock (sess w c) ∖ list_to_set Y) ∖ list_to_set X).
  { rewrite list_to_set_app_L. set_solver. }
  destruct (decide (registration_lock (sess w c) ∖ list_to_set Y = ∅)) as [He|Hne].
  - rewrite (bool_decide_true _ He).
    rewrite register_registered.
    rewrite Hset, He.
    rewrite bool_decide_true by set_solver.
    f_equal. apply upd_ext. simpl. f_equal. set_solver.
  - rewrite (bool_decide_false _ Hne).
    rewrite sess_upd_eq. simpl. rewrite Hreg, upd_upd, Hset.
    assert (Hupd : upd c (λ s : Session,
                     set_registration_lock
                       (registration_lock s ∖ list_to_set (Y ++ X)) s) w
                   = upd c (λ s : Session,
                       set_registration_lock
                         (registration_lock
                            (set_registration_lock
                               (registration_lock s ∖ list_to_set Y) s)
                          ∖ list_to_set X)
                         (set_registration_lock
                            (registration_lock s ∖ list_to_set Y) s)) w).
    { apply upd_ext. unfold set_registration_lock. simpl. by rewrite Hset. }
    by rewrite Hupd.
Qed.

Lemma connection_made_session c peer cipher w :
  registered (sess (connection_made c peer cipher w) c) = false
  ∧ registration_lock (sess (connection_made c peer cipher w) c)
    = list_to_set client_registration_locks
  ∧ sent (sess (connection_made c peer cipher w) c) = []
  ∧ is_Some (sessions (connection_made c peer cipher w) !! c).
Proof.
  unfold connection_made.
  set (w0 := set_sessions _ w).
  assert (H0 : sess w0 c = new_session peer cipher)
    by (unfold sess, w0; simpl; by rewrite lookup_total_insert_eq).
  unfold push_registration_lock. rewrite H0. simpl.
  set (w1 := upd c _ w0).
  assert (H1 : registered (sess w1 c) = false
               ∧ registration_lock (sess w1 c) = list_to_set client_registration_locks
               ∧ sent (sess w1 c) = []).
  { subst w1. rewrite sess_upd_eq, H0. simpl. by rewrite (left_id_L ∅ (∪)). }
  clearbody w1.
  set (w2 := match cipher with Some _ => _ | None => w1 end).
  assert (H2 : registered (sess w2 c) = false
               ∧ registration_lock (sess w2 c) = list_to_set client_registration_locks
               ∧ sent (sess w2 c) = []).
  { subst w2. destruct cipher; [|done]. by rewrite sess_upd_eq. }
  clearbody w2.
  unfold update_idle, update_pings. rewrite upd_upd, sess_upd_eq. simpl.
  split; [tauto|]. split; [tauto|]. split; [tauto|].
  unfold upd. simpl. rewrite lookup_insert_eq. by eexists.
Qed.

Lemma release_cases c locks w :
  registered (sess w c) = false →
  let covered := bool_decide (registration_lock (sess w c) ⊆ list_to_set locks) in
  registered (sess (release_registration_lock c locks w) c) = covered
  ∧ welcomes (sess (release_registration_lock c locks w) c)
    = welcomes (sess w c) + (if covered then 1 else 0).
Proof.
  intros Hreg covered. unfold release_registration_lock. rewrite Hreg.
  rewrite sess_upd_eq. simpl.
  destruct (decide (registration_lock (sess w c) ∖ list_to_set locks = ∅)) as [He|Hne].
  - rewrite (bool_decide_true _ He).
    assert (Hcov : covered = true).
    { apply bool_decide_eq_true. set_solver. }
    rewrite Hcov. destruct (register_reg c (upd c (λ s : Session,
        set_registration_lock (registration_lock s ∖ list_to_set locks) s) w) c)
      as (-> & _ & ->).
    rewrite sess_upd_eq. by case_decide.
  - rewrite (bool_decide_false _ Hne).
    assert (Hcov : covered = false).
    { apply bool_decide_eq_false. intros Hsub. apply Hne. set_solver. }
    rewrite Hcov, sess_upd_eq. simpl. split; [done|]. unfold welcomes. simpl. lia.
Qed.

End Locks.

(** X9.  [register] marks the session registered, installs it in the
    registry under its casefolded nickname, restarts its timers, clears a
    pending SASL mechanism, and sends in this order: the TLS notice where
    the session has a cipher, 906 where a mechanism was pending, then
    001 with the hostmask of the now registered session, 002, 003, 004
    and one 005; no other session changes. *)
Theorem register_burst `{Externals} (c : sid) (w : World) :
  let s := sess w c in
  let name := conf_name (conf w) in
  let s0 := set_timers (Some (mkTimer false)) (Some (mkTimer false))
              (set_registered true s) in
  let s1 := if truthy (sasl s) then set_sasl None s0 else s0 in
  sess (register c w) c
  = set_sent
      (sent s ++ register_preamble name s
       ++ [from_data "001" (SrcName name)
             [nickname s;
              "Welcome to the " +:+ conf_network (conf w) +:+ " IRC Network, "
              +:+ default "" (hostmask (set_registered true s))];
           from_data "002" (SrcName name)
             [nickname s;
              "Your host is " +:+ name +:+ ", running version mammon-"
              +:+ version (conf w)];
           from_data "003" (SrcName name)
             [nickname s; "This server was started at " +:+ startstamp (conf w)];
           from_data "004" (SrcName name)
             [nickname s; name; "mammon-" +:+ version (conf w);
              join (map fst user_mode_items)];
           from_data "005" (SrcName name)
             (nickname s
              :: map (fun kv => format_token (fst kv) (snd kv)) (isupport_tokens w)
              ++ ["are supported by this server"])])
      s1
  ∧ (∀ d, d ≠ c → sess (register c w) d = sess w d)
  ∧ clients (register c w) = <[casefold (nickname s) := c]> (clients w)
  ∧ hostmask (set_registered true s) ≠ None.
Proof.
  intros s name s0 s1.
  destruct (register_effect c w) as (Hs & Hd & Hcl & _).
  split; [exact Hs|]. split; [exact Hd|]. split; [exact Hcl|]. done.
Qed.

(** X11.  Registration locks compose: pushing two lists one after the
    other is pushing their concatenation, and releasing two lists one
    after the other is releasing their concatenation, [register] running
    once at most; so each operation done twice with the same list is
    the operation done once. *)
Theorem registration_locks_compose `{Externals} (c : sid) (X Y : list string)
    (w : World) :
  push_registration_lock c X (push_registration_lock c Y w)
  = push_registration_lock c (Y ++ X) w
  ∧ release_registration_lock c X (release_registration_lock c Y w)
    = release_registration_lock c (Y ++ X) w
  ∧ push_registration_lock c X (push_registration_lock c X w)
    = push_registration_lock c X w
  ∧ release_registration_lock c X (release_registration_lock c X w)
    = release_registration_lock c X w.
Proof.
  split; [apply push_compose|]. split; [apply release_compose|].
  assert (Hdup : (list_to_set (X ++ X) : gset string) = list_to_set X).
  { rewrite list_to_set_app_L. set_solver. }
  split.
  - rewrite push_compose. unfold push_registration_lock. by rewrite Hdup.
  - rewrite release_compose. unfold release_registration_lock. by rewrite Hdup.
Qed.

(** X12.  After [connection_made], a sequence of releases registers the
    session exactly when the released locks together cover NICK, USER
    and DNS, and the session has then been welcomed once, else not at
    all. *)
Theorem connection_made_then_released `{Externals} (c : sid) (peer : string)
    (cipher : option (string * string * string)) (releases : list (list string))
    (w : World) :
  let w' := fold_left (fun w0 locks => release_registration_lock c locks w0)
              releases (connection_made c peer cipher w) in
  let covered :=
    bool_decide (list_to_set client_registration_locks
                 ⊆@{gset string} list_to_set (concat releases)) in
  registered (sess w' c) = covered
  ∧ welcomes (sess w' c) = (if covered then 1 else 0).
Proof.
  intros w' covered.
  destruct (connection_made_session c peer cipher w) as (Hreg & Hlock & Hsent & Hsome).
  set (w1 := connection_made c peer cipher w) in *.
  assert (Hfold : w' = release_registration_lock c (concat releases) w1).
  { unfold w'. clear w' covered.
    induction releases as [|X Xs IH] using rev_ind.
    - simpl. unfold release_registration_lock. rewrite Hreg.
      rewrite sess_upd_eq. simpl. rewrite Hlock.
      rewrite bool_decide_false.
      2:{ intros He. assert (Hin : "NICK" ∈ (∅ : gset string)); [|set_solver].
          rewrite <- He. unfold client_registration_locks. set_solver. }
      symmetry. apply upd_id; [done|].
      rewrite difference_empty_L. by destruct (sess w1 c).
    - rewrite fold_left_app. simpl. rewrite IH, release_compose.
      rewrite concat_app. simpl. by rewrite ?app_nil_r. }
  rewrite Hfold.
  destruct (release_cases c (concat releases) w1 Hreg) as (Hr & Hw).
  rewrite Hlock in Hr, Hw. fold covered in Hr, Hw.
  split; [exact Hr|]. rewrite Hw. unfold welcomes. by rewrite Hsent.
Qed.

Section RegisterFacts.
Context `{Externals}.

Lemma register_nickname c w : nickname (sess (register c w) c) = nickname (sess w c).
Proof.
  destruct (register_effect c w) as (Hs & _). rewrite Hs.
  by destruct (truthy (sasl (sess w c))).
Qed.

Lemma register_clients c w :
  clients (register c w) = <[casefold (nickname (sess w c)) := c]> (clients w).
Proof. by destruct (register_effect c w) as (_ & _ & Hcl & _). Qed.

Lemma register_others c w d : d ≠ c → sess (register c w) d = sess w d.
Proof. destruct (register_effect c w) as (_ & Hd & _). apply Hd. Qed.

End RegisterFacts.

Lemma exit_after_register `{Externals} c w :
  ∃ w', exit c (register c w) = Returned w'
        ∧ clients w' = delete (casefold (nickname (sess (register c w) c)))
                         (clients (register c w))
        ∧ sess w' c
          = set_channels []
              (set_transport_closed true
                 (set_connected false
                    (set_timers (cancel (ping_future (sess (register c w) c)))
                       (cancel (ping_timeout_future (sess (register c w) c)))
                       (sess (register c w) c))))
        ∧ (∀ d, d ≠ c → sess w' d = sess (register c w) d)
        ∧ conf w' = conf (register c w).
Proof.
  apply (exit_registered_effect c (register c w) c).
  - apply register_registered.
  - rewrite register_nickname, register_clients. apply lookup_insert_eq.
Qed.

Lemma closed_registered s t1 t2 :
  registered (set_channels []
                (set_transport_closed true (set_connected false (set_timers t1 t2 s))))
  = registered s.
Proof. done. Qed.

Lemma closed_connected s t1 t2 :
  connected (set_channels []
               (set_transport_closed true (set_connected false (set_timers t1 t2 s))))
  = false.
Proof. done. Qed.

(** X10.  [exit] straight after [register] returns normally: the key
    that [register] installed is the key that [exit] pops.  The registry
    is the one before [register] without the casefolded nickname, also
    where another session held that key before; the session stays
    marked registered and ends disconnected. *)
Theorem register_then_exit `{Externals} (c : sid) (w : World) :
  ∃ w', exit c (register c w) = Returned w'
        ∧ clients w' = delete (casefold (nickname (sess w c))) (clients w)
        ∧ registered (sess w' c) = true
        ∧ connected (sess w' c) = false
        ∧ ∀ d, d ≠ c → sess w' d = sess w d.
Proof.
  destruct (exit_after_register c w) as (w' & Hex & Hcl & Hs & Hd & _).
  exists w'. split; [exact Hex|].
  split.
  { rewrite Hcl, register_nickname, register_clients. apply delete_insert_eq. }
  split.
  { rewrite Hs, closed_registered. apply register_registered. }
  split.
  { rewrite Hs. apply closed_connected. }
  intros d Hne. rewrite Hd by done. by apply register_others.
Qed.
(** ** More on SASL *)

Section SaslMore.
Context `{Externals}.

Lemma split_nul_app x y :
  split_nul (x +:+ String NUL y) = split_nul x ++ split_nul y.
Proof.
  induction x as [|a x IH].
  - rewrite append_nil_l. done.
  - rewrite append_cons. simpl. destruct (Ascii.eqb a NUL).
    + by rewrite IH.
    + rewrite IH. destruct (split_nul x) eqn:Hx; [by destruct (split_nul_nonempty x)|].
      done.
Qed.

(** What the account of a session can become through PLAIN. *)
Lemma m_sasl_plain_account c dat w :
  account (sess (final (m_sasl_plain c dat w)) c) ≠ account (sess w c) →
  ∃ a z p info h,
    split_nul dat = [a; z; p] ∧ utf8_valid a = true ∧ utf8_valid p = true
    ∧ data w !! ("account." +:+ a) = Some info
    ∧ credentials_passphrase info = Some h
    ∧ verified info = true
    ∧ hashing_verify p h = true
    ∧ account (sess (final (m_sasl_plain c dat w)) c) = Some a.
Proof.
  unfold m_sasl_plain, utf8_decode.
  destruct (split_nul dat) as [|a [|z [|p [|]]]]; try done.
  destruct (utf8_valid a) eqn:Ha; [|done].
  destruct (utf8_valid p) eqn:Hp; [|done].
  destruct (data w !! ("account." +:+ a)) as [info|] eqn:Hd.
  - destruct (credentials_passphrase info) as [h|] eqn:Hc.
    + destruct (verified info) eqn:Hv; simpl.
      * destruct (hashing_verify p h) eqn:Hh; simpl.
        -- intros _. exists a, z, p, info, h. repeat (split; [done|]).
           rewrite !sess_dump_numeric, !sess_upd_eq. done.
        -- rewrite sess_dump_numeric. done.
      * rewrite sess_dump_numeric. done.
    + simpl. rewrite sess_dump_numeric. done.
  - simpl. rewrite sess_dump_numeric. done.
Qed.

Lemma account_dump_numeric c n ps w d :
  account (sess (dump_numeric c n ps w) d) = account (sess w d).
Proof.
  unfold dump_numeric. rewrite sess_dump_message. by case_decide; [subst|].
Qed.

Lemma topic_eqb m :
  String.eqb ("sasl authenticate " +:+ m) "sasl authenticate plain"
  = String.eqb m "plain".
Proof. done. Qed.

End SaslMore.

(** X13.  AUTHENTICATE changes the account of a session only by a PLAIN
    login that verifies: a mechanism that casefolds to plain is pending,
    the first parameter is ASCII text of at most 400 characters and decodes to
    three NUL-separated fields of which the first and the third are
    well-formed text, the data store has a verified entry for the first
    field with a passphrase hash, the third field verifies against that
    hash, and the new account is the first field.  The second field
    plays no part. *)
Theorem authenticate_account_sound `{Externals} (c : sid) (ev_params : list string)
    (w : World) :
  account (sess (final (m_AUTHENTICATE c ev_params w)) c) ≠ account (sess w c) →
  ∃ mech p0 dat a z p info h,
    sasl (sess w c) = Some mech ∧ casefold mech = "plain"
    ∧ ev_params !! 0 = Some p0 ∧ (py_len p0 ≤ 400)%nat
    ∧ is_ascii p0 = true ∧ b64decode p0 = Some dat
    ∧ split_nul dat = [a; z; p] ∧ utf8_valid a = true ∧ utf8_valid p = true
    ∧ data w !! ("account." +:+ a) = Some info
    ∧ credentials_passphrase info = Some h
    ∧ verified info = true
    ∧ hashing_verify p h = true
    ∧ account (sess (final (m_AUTHENTICATE c ev_params w)) c) = Some a.
Proof.
  unfold m_AUTHENTICATE.
  destruct ((length ev_params =? 1)%nat && bool_decide (ev_params !! 0 = Some "*")).
  { destruct (truthy (sasl (sess w c))); simpl.
    - rewrite sess_upd_eq. simpl. by rewrite account_dump_numeric.
    - by rewrite account_dump_numeric. }
  destruct (ev_params !! 0) as [p0|] eqn:Hp0; [|done].
  destruct (truthy (sasl (sess w c))) eqn:Htr.
  - destruct (400 <? py_len p0)%nat eqn:Hlen.
    { simpl. rewrite sess_upd_eq. simpl. by rewrite account_dump_numeric. }
    destruct (is_ascii p0) eqn:Hascii; [|done]. simpl.
    destruct (b64decode p0) as [dat|] eqn:Hdec;
      [|simpl; by rewrite account_dump_numeric].
    simpl. unfold dispatch_sasl_authenticate. rewrite topic_eqb.
    destruct (sasl (sess w c)) as [mech|] eqn:Hs; [|done]. simpl.
    destruct (String.eqb (casefold mech) "plain") eqn:Hm; [|done].
    apply String.eqb_eq in Hm.
    intros Hacc. destruct (m_sasl_plain_account c dat w Hacc)
      as (a & z & p & info & h & Hsp & Ha & Hp & Hd & Hc & Hv & Hh & Hfin).
    exists mech, p0, dat, a, z, p, info, h.
    apply Nat.ltb_ge in Hlen. by repeat (split; [done|]).
  - destruct (bool_decide (str_upper p0 ∈ valid_mechanisms w)); simpl.
    + unfold dump_verb. simpl. rewrite sess_dump_message.
      case_decide; [|done]. simpl. by rewrite sess_upd_eq.
    + by rewrite account_dump_numeric.
Qed.

(** X14.  The PLAIN handler ignores the authorization identity: two
    payloads that differ in their second field only, that field without
    NUL, have the same outcome, whatever the other two fields are. *)
Theorem sasl_plain_authzid_ignored `{Externals} (c : sid) (w : World)
    (a z z' p : string) :
  count_nul z = 0 → count_nul z' = 0 →
  m_sasl_plain c (a +:+ String NUL (z +:+ String NUL p)) w
  = m_sasl_plain c (a +:+ String NUL (z' +:+ String NUL p)) w.
Proof.
  intros Hz Hz'. unfold m_sasl_plain.
  rewrite !split_nul_app, (split_nul_plain z Hz), (split_nul_plain z' Hz').
  destruct (split_nul a) as [|a1 la] eqn:Ha; [by destruct (split_nul_nonempty a)|].
  destruct (split_nul p) as [|p1 lp] eqn:Hp; [by destruct (split_nul_nonempty p)|].
  destruct la as [|a2 la]; simpl.
  - by destruct lp.
  - destruct la as [|a3 la]; simpl; [done|]. by destruct la.
Qed.


(** X16.  Selecting a mechanism and aborting it.  For a session with no
    mechanism pending, AUTHENTICATE with a parameter other than the
    asterisk whose upper-case form is a valid mechanism stores that
    mechanism and answers with an unprefixed AUTHENTICATE +; AUTHENTICATE
    with the asterisk then clears it and answers 906; a second asterisk
    is answered with 904.  The account is the same throughout. *)
Theorem authenticate_select_then_abort `{Externals} (c : sid) (p0 : string)
    (w : World) :
  truthy (sasl (sess w c)) = false →
  p0 ≠ "*" →
  str_upper p0 ∈ valid_mechanisms w →
  nonempty (str_upper p0) = true →
  let w1 := final (m_AUTHENTICATE c [p0] w) in
  let w2 := final (m_AUTHENTICATE c ["*"] w1) in
  let w3 := final (m_AUTHENTICATE c ["*"] w2) in
  let name := SrcName (conf_name (conf w)) in
  let nick := nickname (sess w c) in
  sasl (sess w1 c) = Some (str_upper p0)
  ∧ sent (sess w1 c) = sent (sess w c) ++ [from_data "AUTHENTICATE" SrcNone ["+"]]
  ∧ sasl (sess w2 c) = None
  ∧ sent (sess w2 c)
    = sent (sess w1 c)
      ++ [from_data "906" name [nick; "SASL authentication aborted"]]
  ∧ sasl (sess w3 c) = None
  ∧ sent (sess w3 c)
    = sent (sess w2 c)
      ++ [from_data "904" name [nick; "SASL authentication failed"]]
  ∧ account (sess w3 c) = account (sess w c).
Proof.
  intros Hfalsy Hstar Hvalid Hne w1 w2 w3 name nick.
  assert (Habort : ∀ w0, m_AUTHENTICATE c ["*"] w0
                         = if truthy (sasl (sess w0 c))
                           then Returned (upd c (set_sasl None)
                                            (dump_numeric c "906"
                                               ["SASL authentication aborted"] w0))
                           else Returned (dump_numeric c "904"
                                            ["SASL authentication failed"] w0)).
  { intros w0. unfold m_AUTHENTICATE. simpl. done. }
  assert (H1 : w1 = dump_verb c "AUTHENTICATE" ["+"] SrcNone true
                      (upd c (set_sasl (Some (str_upper p0))) w)).
  { unfold w1, m_AUTHENTICATE. simpl. rewrite Hfalsy.
    rewrite (bool_decide_false (Some p0 = Some "*")) by congruence. simpl.
    by rewrite (bool_decide_true _ Hvalid). }
  clearbody w1.
  assert (Hs1 : sess w1 c
                = set_sent (sent (sess w c) ++ [from_data "AUTHENTICATE" SrcNone ["+"]])
                    (set_sasl (Some (str_upper p0)) (sess w c))).
  { rewrite H1. unfold dump_verb. simpl. rewrite sess_dump_message.
    case_decide; [|done]. by rewrite sess_upd_eq. }
  assert (Hc1 : conf w1 = conf w) by (by rewrite H1).
  clear H1.
  assert (H2 : w2 = upd c (set_sasl None)
                      (dump_numeric c "906" ["SASL authentication aborted"] w1)).
  { unfold w2. rewrite Habort, Hs1. simpl. by rewrite Hne. }
  clearbody w2.
  assert (Hs2 : sess w2 c
                = set_sasl None
                    (set_sent (sent (sess w1 c)
                               ++ [from_data "906" name [nick; "SASL authentication aborted"]])
                       (sess w1 c))).
  { rewrite H2, sess_upd_eq, sess_dump_numeric, Hc1. by rewrite Hs1. }
  assert (Hc2 : conf w2 = conf w) by (by rewrite H2).
  clear H2.
  assert (H3 : w3 = dump_numeric c "904" ["SASL authentication failed"] w2).
  { unfold w3. rewrite Habort, Hs2. done. }
  clearbody w3.
  assert (Hs3 : sess w3 c
                = set_sent (sent (sess w2 c)
                            ++ [from_data "904" name [nick; "SASL authentication failed"]])
                    (sess w2 c)).
  { rewrite H3, sess_dump_numeric, Hc2. by rewrite Hs2, Hs1. }
  rewrite Hs3, Hs2, Hs1. done.
Qed.

(** ** Receiving bytes *)

Section Receiving.
Import Framing.

Lemma split_on_nonempty sep s : split_on sep s ≠ [].
Proof.
  destruct s as [|a s]; simpl; [done|].
  destruct (Ascii.eqb a sep); [done|]. by destruct (split_on sep s).
Qed.

Lemma strip_cr_app a b : strip_cr (a +:+ b) = strip_cr a +:+ strip_cr b.
Proof.
  induction a as [|x a IH]; [done|].
  rewrite append_cons. simpl. destruct (Ascii.eqb x CR); [done|].
  by rewrite append_cons, IH.
Qed.

Lemma has_byte_app c a b : has_byte c (a +:+ b) = has_byte c a || has_byte c b.
Proof.
  induction a as [|x a IH]; [done|].
  rewrite append_cons. simpl. rewrite IH. by rewrite orb_assoc.
Qed.

Lemma strip_cr_clean s : has_byte CR (strip_cr s) = false.
Proof.
  induction s as [|x s IH]; [done|]. simpl.
  destruct (Ascii.eqb x CR) eqn:Hx; [done|]. simpl. by rewrite Hx.
Qed.

Lemma strip_cr_id s : has_byte CR s = false → strip_cr s = s.
Proof.
  induction s as [|x s IH]; [done|]. simpl.
  destruct (Ascii.eqb x CR); [done|]. simpl. intros Hs. by rewrite IH.
Qed.

(** Cutting at a separator loses nothing: the pieces but the last, each
    with the separator put back, and then the last piece, are the
    text. *)
Lemma split_on_lossless s :
  unlines (removelast (split_on LF s)) +:+ List.last (split_on LF s) "" = s.
Proof.
  induction s as [|x s IH]; [done|]. simpl.
  destruct (Ascii.eqb x LF) eqn:Hx.
  - apply Ascii.eqb_eq in Hx. subst x.
    destruct (split_on LF s) as [|h t] eqn:Hs; [by destruct (split_on_nonempty LF s)|].
    simpl. rewrite append_nil_l, append_cons. f_equal. exact IH.
  - destruct (split_on LF s) as [|h t] eqn:Hs; [by destruct (split_on_nonempty LF s)|].
    destruct t as [|h' t].
    + simpl in *. rewrite append_nil_l in *. by rewrite IH.
    + simpl in *. rewrite append_assoc in IH. rewrite append_assoc, append_cons.
      by rewrite IH.
Qed.

(** No piece holds the separator, and a byte that the text does not
    hold is in no piece. *)
Lemma split_on_pieces sep s :
  Forall (fun x => has_byte sep x = false) (split_on sep s).
Proof.
  induction s as [|x s IH]; simpl; [by constructor|].
  destruct (Ascii.eqb x sep) eqn:Hx; [by constructor|].
  destruct (split_on sep s) as [|h t].
  { constructor; [|constructor]. simpl. by rewrite Hx. }
  inversion IH as [|? ? Hh Ht]; subst. constructor; [|done]. simpl. by rewrite Hx.
Qed.

Lemma split_on_absent sep b s :
  has_byte b s = false → Forall (fun x => has_byte b x = false) (split_on sep s).
Proof.
  induction s as [|x s IH]; simpl; [by constructor|].
  intros [Hx Hs]%orb_false_elim. specialize (IH Hs).
  destruct (Ascii.eqb x sep); [by constructor|].
  destruct (split_on sep s) as [|h t].
  { constructor; [|constructor]. simpl. by rewrite Hx. }
  inversion IH as [|? ? Hh Ht]; subst. constructor; [|done]. simpl. by rewrite Hx.
Qed.

Lemma Forall_last {A} (P : A → Prop) (l : list A) d : Forall P l → P d → P (List.last l d).
Proof.
  induction l as [|x l IH]; [done|]. intros Hl Hd. inversion Hl; subst.
  destruct l; [done|]. by apply IH.
Qed.

Lemma Forall_removelast {A} (P : A → Prop) (l : list A) :
  Forall P l → Forall P (removelast l).
Proof.
  induction l as [|x l IH]; [done|]. intros Hl. inversion Hl; subst. simpl.
  destruct l; [constructor|]. constructor; [done|]. by apply IH.
Qed.

(** Cutting a text of two parts: the pieces of the first part but the
    last, then the pieces of what is left of it followed by the second
    part. *)
Lemma split_on_app sep a b :
  split_on sep (a +:+ b)
  = removelast (split_on sep a) ++ split_on sep (List.last (split_on sep a) "" +:+ b).
Proof.
  induction a as [|x a IH]; [done|].
  rewrite append_cons. simpl. destruct (Ascii.eqb x sep) eqn:Hx.
  - destruct (split_on sep a) as [|h t] eqn:Hs; [by destruct (split_on_nonempty sep a)|].
    rewrite IH. done.
  - rewrite IH.
    destruct (split_on sep a) as [|h t] eqn:Hs; [by destruct (split_on_nonempty sep a)|].
    destruct t as [|h' t].
    + simpl. by rewrite Hx.
    + simpl. done.
Qed.

Lemma length_take_bytes n s : String.length (take_bytes n s) = min n (String.length s).
Proof.
  revert s. induction n as [|n IH]; intros [|x s]; simpl; try done. by rewrite IH.
Qed.

Lemma take_bytes_all n s : (String.length s ≤ n)%nat → take_bytes n s = s.
Proof.
  revert s. induction n as [|n IH]; intros [|x s]; simpl; try done; [lia|].
  intros Hl. rewrite IH; [done|lia].
Qed.

Lemma last_app_nonempty {A} (l l' : list A) d : l' ≠ [] → List.last (l ++ l') d = List.last l' d.
Proof.
  intros Hl'. induction l as [|x l IH]; [done|]. simpl.
  destruct (l ++ l') eqn:Hll; [|done].
  apply app_eq_nil in Hll. by destruct Hll.
Qed.

(** The buffer that [data_received] keeps holds no carriage return. *)
Lemma rest_clean s : has_byte CR (List.last (split_on LF (strip_cr s)) "") = false.
Proof.
  apply (Forall_last (fun x => has_byte CR x = false)); [|done].
  apply split_on_absent, strip_cr_clean.
Qed.

End Receiving.

(** X17.  Without a line limit [data_received] loses nothing but the
    carriage returns: the lines, each with its line feed, followed by
    the new buffer are the old buffer and the data without carriage
    returns; and neither a line nor the new buffer holds a line feed or
    a carriage return. *)
Theorem data_received_lossless (recv_buffer data : string) :
  let lines := fst (Framing.data_received recv_buffer data None) in
  let rest := snd (Framing.data_received recv_buffer data None) in
  Framing.unlines lines +:+ rest = Framing.strip_cr (recv_buffer +:+ data)
  ∧ Forall (fun l => Framing.has_byte Framing.LF l = false
                     ∧ Framing.has_byte Framing.CR l = false) lines
  ∧ Framing.has_byte Framing.LF rest = false
  ∧ Framing.has_byte Framing.CR rest = false.
Proof.
  intros lines rest. unfold lines, rest, Framing.data_received. simpl.
  set (s := Framing.strip_cr (recv_buffer +:+ data)).
  split; [apply split_on_lossless|]. split; [|split].
  - apply Forall_removelast.
    pose proof (split_on_pieces Framing.LF s) as H1.
    pose proof (split_on_absent Framing.LF Framing.CR s (strip_cr_clean _)) as H2.
    revert H1 H2. generalize (Framing.split_on Framing.LF s).
    induction l as [|x l IH]; [constructor|].
    intros H1 H2. inversion H1; inversion H2; subst. constructor; [done|]. by apply IH.
  - apply (Forall_last (fun x => Framing.has_byte Framing.LF x = false)); [|done].
    apply split_on_pieces.
  - apply rest_clean.
Qed.

(** X18.  Without a line limit the lines do not depend on how the bytes
    arrive: data received in two parts gives the lines of the first part
    followed by the lines of the second, and the same buffer, as the two
    parts received at once. *)
Theorem data_received_chunks (recv_buffer data1 data2 : string) :
  let r1 := Framing.data_received recv_buffer data1 None in
  let r2 := Framing.data_received (snd r1) data2 None in
  Framing.data_received recv_buffer (data1 +:+ data2) None
  = (fst r1 ++ fst r2, snd r2).
Proof.
  intros r1 r2. unfold r2, r1, Framing.data_received. simpl.
  rewrite <- append_assoc, strip_cr_app.
  set (s := Framing.strip_cr (recv_buffer +:+ data1)).
  rewrite (strip_cr_app (List.last _ _)).
  rewrite (strip_cr_id (List.last _ _)) by apply rest_clean.
  rewrite (split_on_app Framing.LF s).
  set (l1 := removelast (Framing.split_on Framing.LF s)).
  set (R2 := Framing.split_on Framing.LF _).
  assert (HR2 : R2 ≠ []) by apply split_on_nonempty.
  by rewrite removelast_app, last_app_nonempty.
Qed.

(** X19.  A positive line limit clamps the kept buffer to its first
    [linelen] bytes and leaves the lines alone, so that the buffer is
    never longer than the limit; a limit of zero is no limit. *)
Theorem data_received_clamp (recv_buffer data : string) (z : Z) :
  (0 < z)%Z →
  fst (Framing.data_received recv_buffer data (Some z))
  = fst (Framing.data_received recv_buffer data None)
  ∧ snd (Framing.data_received recv_buffer data (Some z))
    = Framing.take_bytes (Z.to_nat z) (snd (Framing.data_received recv_buffer data None))
  ∧ (String.length (snd (Framing.data_received recv_buffer data (Some z)))
     ≤ Z.to_nat z)%nat
  ∧ Framing.data_received recv_buffer data (Some 0%Z)
    = Framing.data_received recv_buffer data None.
Proof.
  intros Hz. unfold Framing.data_received. simpl.
  set (rest := List.last _ _).
  assert (Hsnd : (if negb (z =? 0)%Z && (z <? Z.of_nat (String.length rest))%Z
                  then Framing.py_prefix z rest else rest)
                 = Framing.take_bytes (Z.to_nat z) rest).
  { destruct (Z.eqb_spec z 0) as [->|_]; [lia|]. simpl.
    destruct (Z.ltb_spec z (Z.of_nat (String.length rest))) as [Hlt|Hge].
    - unfold Framing.py_prefix. destruct (Z.leb_spec 0 z); [done|lia].
    - symmetry. apply take_bytes_all. lia. }
  split; [done|]. split; [exact Hsnd|]. split; [|done].
  rewrite Hsnd, length_take_bytes. lia.
Qed.


(** ** What no operation does *)

Section Identity.
Context `{Externals}.








(** The walk of [set_legacy_modes] turns a property on only through a
    letter that the table maps to it, and never through the letter o. *)
Lemma legacy_walk_prop c P (l : list string) st :
  (∀ i p, dict_get i user_mode_items = Some p → casefold p = casefold P → i = "o") →
  prop_get (props (sess (snd (fold_left (legacy_mode_step c) l st)) c)) P = true →
  prop_get (props (sess (snd st) c)) P = true.
Proof.
  intros Honly. revert st. induction l as [|i l IH]; intros [md w]; simpl; [done|].
  intros Hafter. apply IH in Hafter. revert Hafter.
  unfold legacy_mode_step.
  destruct (String.eqb i "+"); [done|].
  destruct (String.eqb i "-"); [done|].
  destruct (String.eqb i "o" && md) eqn:Ho; [done|].
  destruct (dict_get i user_mode_items) as [p|] eqn:Hp; simpl.
  - rewrite sess_upd_eq. unfold prop_get. simpl.
    destruct (decide (casefold p = casefold P)) as [Heq|Hne].
    + rewrite Heq, lookup_insert_eq. simpl.
      rewrite (Honly i p Hp Heq) in Ho. simpl in Ho. by rewrite Ho.
    + by rewrite lookup_insert_ne.
  - unfold dump_numeric. rewrite sess_dump_message. by case_decide.
Qed.

End Identity.

(** X20.  [set_legacy_modes] never turns on a property that the mode
    table reaches through the letter o only, the operator property: if
    the property is on after the call, it was on before.  The properties
    of the other sessions are not touched. *)
Theorem set_legacy_modes_never_grants `{Externals} (c : sid) (in_str P : string)
    (w : World) :
  (∀ i p, dict_get i user_mode_items = Some p → casefold p = casefold P → i = "o") →
  (prop_get (props (sess (set_legacy_modes c in_str w) c)) P = true →
   prop_get (props (sess w c)) P = true)
  ∧ ∀ d, d ≠ c → props (sess (set_legacy_modes c in_str w) d) = props (sess w d).
Proof.
  intros Honly. unfold set_legacy_modes, flush_legacy_mode_change.
  set (w1 := snd (fold_left _ _ _)). split.
  - rewrite sess_dump_message. case_decide; [|done]. simpl.
    apply (legacy_walk_prop c P (py_chars in_str) (false, w) Honly).
  - intros d Hne. rewrite sess_dump_message. case_decide; [congruence|].
    assert (Hw1 : ∀ (l : list string) st,
              props (sess (snd (fold_left (legacy_mode_step c) l st)) d)
              = props (sess (snd st) d)).
    { induction l as [|i l IH]; intros [md w0]; simpl; [done|].
      rewrite IH. unfold legacy_mode_step.
      destruct (String.eqb i "+"); [done|].
      destruct (String.eqb i "-"); [done|].
      destruct (_ && _); [done|].
      destruct (dict_get i user_mode_items); simpl.
      - by rewrite sess_upd_ne.
      - unfold dump_numeric. rewrite sess_dump_message. by case_decide. }
    apply (Hw1 (py_chars in_str) (false, w)).
Qed.


(** ** The further properties on concrete sessions *)

(** A registry with two nicknames. *)
Lemma two_keys (a b : string) (x y : sid) (k : string) (v : sid) :
  a ≠ b →
  <[b := y]> (<[a := x]> (∅ : gmap string sid)) !! k = Some v
  ↔ (k = b ∧ v = y) ∨ (k = a ∧ v = x).
Proof.
  intros Hab. destruct (decide (k = b)) as [->|Hb].
  { rewrite lookup_insert_eq. naive_solver. }
  rewrite lookup_insert_ne by done.
  destruct (decide (k = a)) as [->|Ha].
  { rewrite lookup_insert_eq. naive_solver. }
  rewrite lookup_insert_ne, lookup_empty by done. naive_solver.
Qed.

Module ExtraFacts.
Import Scenario.
#[local] Existing Instance ascii_externals.

(** X1 for Bob, who holds away-notify, and that capability. *)
Lemma common_peers_exact_witness :
  wants (Some "away-notify") (sess cap_world 1) = true
  ∧ NoDup (get_common_peers 1 [] (Some "away-notify") cap_world)
  ∧ ∀ x, x ∈ get_common_peers 1 [] (Some "away-notify") cap_world
         ↔ (x ∉ ([] : list sid))
           ∧ (x = 1
              ∨ (x ∈ flat_map (members cap_world) (channels (sess cap_world 1))
                 ∧ wants (Some "away-notify") (sess cap_world x) = true)).
Proof.
  split; [vm_compute; reflexivity|].
  apply (common_peers_exact 1 [] (Some "away-notify") cap_world).
  vm_compute. reflexivity.
Defined.

(** X4 for Alice, registered and alone on the server. *)
Lemma exit_registered_unlinks_witness :
  registered (sess (registered_world 0 "alice" empty_world) 0) = true
  ∧ clients (registered_world 0 "alice" empty_world) !! "alice" = Some 0
  ∧ ∃ w', exit 0 (registered_world 0 "alice" empty_world) = Returned w'
          ∧ clients w' = delete "alice" (clients (registered_world 0 "alice" empty_world))
          ∧ dict_get "alice" (client_history w')
            = Some (mkHistory "alice" "alice" "192.0.2.7" "<unregistered>" None).
Proof.
  split; [vm_compute; reflexivity|]. split; [vm_compute; reflexivity|].
  destruct (exit_registered_unlinks 0 (registered_world 0 "alice" empty_world) 0)
    as (w' & Hex & Hcl & Hh & _); [vm_compute; reflexivity..|].
  exists w'. split; [exact Hex|]. split; [exact Hcl|exact Hh].
Defined.

(** X8 for Alice and Bob: both are taken out of the registry. *)
Lemma shutdown_exits_all_witness :
  NoDup [0; 1]
  ∧ (∀ c, c ∈ [0; 1] →
       registered (sess two_registered c) = true
       ∧ ∀ k, clients two_registered !! k = Some c
              ↔ k = casefold (nickname (sess two_registered c)))
  ∧ ∃ w', shutdown "Received SIGTERM" [0; 1] two_registered = Returned w'
          ∧ clients w' = ∅
          ∧ connected (sess w' 0) = false ∧ connected (sess w' 1) = false.
Proof.
  assert (Hcl : clients two_registered = <["bob" := 1]> (<["alice" := 0]> ∅))
    by (vm_compute; reflexivity).
  assert (Hn0 : casefold (nickname (sess two_registered 0)) = "alice")
    by (vm_compute; reflexivity).
  assert (Hn1 : casefold (nickname (sess two_registered 1)) = "bob")
    by (vm_compute; reflexivity).
  assert (Hr0 : registered (sess two_registered 0) = true) by (vm_compute; reflexivity).
  assert (Hr1 : registered (sess two_registered 1) = true) by (vm_compute; reflexivity).
  assert (Hab : "alice" ≠ "bob") by discriminate.
  assert (H0 : (0 : sid) ∈ [0; 1]) by (apply elem_of_cons; left; reflexivity).
  assert (H1 : (1 : sid) ∈ [0; 1]).
  { apply elem_of_cons. right. apply list_elem_of_singleton. reflexivity. }
  assert (Hnd : NoDup [0; 1]).
  { apply NoDup_cons. split; [|apply NoDup_singleton].
    intros Hin. apply list_elem_of_singleton in Hin. discriminate Hin. }
  assert (Hkeys : ∀ c, c ∈ [0; 1] →
            registered (sess two_registered c) = true
            ∧ ∀ k, clients two_registered !! k = Some c
                   ↔ k = casefold (nickname (sess two_registered c))).
  { intros c Hc. apply elem_of_cons in Hc. destruct Hc as [->|Hc].
    - split; [exact Hr0|]. intros k. rewrite Hcl, Hn0, (two_keys _ _ _ _ _ _ Hab).
      split.
      + intros [[_ Hv]|[Hk _]]; [discriminate Hv | exact Hk].
      + intros Hk. right. split; [exact Hk | reflexivity].
    - apply list_elem_of_singleton in Hc. rewrite Hc.
      split; [exact Hr1|]. intros k. rewrite Hcl, Hn1, (two_keys _ _ _ _ _ _ Hab).
      split.
      + intros [[Hk _]|[_ Hv]]; [exact Hk | discriminate Hv].
      + intros Hk. left. split; [exact Hk | reflexivity]. }
  split; [exact Hnd|]. split; [exact Hkeys|].
  destruct (shutdown_exits_all "Received SIGTERM" [0; 1] two_registered Hnd Hkeys)
    as (w' & Hsh & Hin & _ & _ & Hempty).
  exists w'. split; [exact Hsh|]. split.
  - apply Hempty. intros k x. rewrite Hcl, (two_keys _ _ _ _ _ _ Hab).
    intros [[_ Hx]|[_ Hx]]; rewrite Hx; [exact H1 | exact H0].
  - split; [exact (proj1 (Hin 0 H0)) | exact (proj1 (Hin 1 H1))].
Defined.

(** X13 for a PLAIN login of bob that verifies. *)
Lemma authenticate_account_sound_witness :
  account (sess (final (m_AUTHENTICATE 0 [payload_first_b64] sasl_world)) 0)
  ≠ account (sess sasl_world 0)
  ∧ ∃ mech p0 dat a z p info h,
      sasl (sess sasl_world 0) = Some mech ∧ casefold mech = "plain"
      ∧ [payload_first_b64] !! 0 = Some p0 ∧ (py_len p0 ≤ 400)%nat
      ∧ is_ascii p0 = true ∧ b64decode p0 = Some dat
      ∧ split_nul dat = [a; z; p] ∧ utf8_valid a = true ∧ utf8_valid p = true
      ∧ data sasl_world !! ("account." +:+ a) = Some info
      ∧ credentials_passphrase info = Some h
      ∧ verified info = true
      ∧ hashing_verify p h = true
      ∧ account (sess (final (m_AUTHENTICATE 0 [payload_first_b64] sasl_world)) 0)
        = Some a.
Proof.
  assert (Hne : account (sess (final (m_AUTHENTICATE 0 [payload_first_b64] sasl_world)) 0)
                ≠ account (sess sasl_world 0)).
  { vm_compute. discriminate. }
  split; [exact Hne|].
  exact (authenticate_account_sound 0 [payload_first_b64] sasl_world Hne).
Defined.

(** X14: bob logs in, with or without an authorization identity. *)
Lemma sasl_plain_authzid_ignored_witness :
  count_nul "" = 0 ∧ count_nul "admin" = 0
  ∧ m_sasl_plain 0 ("bob" +:+ String NUL ("" +:+ String NUL "hunter2")) sasl_world
    = m_sasl_plain 0 ("bob" +:+ String NUL ("admin" +:+ String NUL "hunter2")) sasl_world.
Proof.
  split; [reflexivity|]. split; [reflexivity|].
  apply (sasl_plain_authzid_ignored 0 sasl_world "bob" "" "admin" "hunter2");
    reflexivity.
Defined.

(** X16 for a new session that asks for plain in lower case. *)
Lemma authenticate_select_then_abort_witness :
  truthy (sasl (sess fresh_world 0)) = false
  ∧ "plain" ≠ "*"
  ∧ str_upper "plain" ∈ valid_mechanisms fresh_world
  ∧ nonempty (str_upper "plain") = true
  ∧ sasl (sess (final (m_AUTHENTICATE 0 ["plain"] fresh_world)) 0) = Some "PLAIN"
  ∧ sasl (sess (final (m_AUTHENTICATE 0 ["*"]
                         (final (m_AUTHENTICATE 0 ["plain"] fresh_world)))) 0)
    = None.
Proof.
  assert (H1 : truthy (sasl (sess fresh_world 0)) = false) by (vm_compute; reflexivity).
  assert (H2 : "plain" ≠ "*") by discriminate.
  assert (H3 : str_upper "plain" ∈ valid_mechanisms fresh_world).
  { apply list_elem_of_singleton. vm_compute. reflexivity. }
  assert (H4 : nonempty (str_upper "plain") = true) by (vm_compute; reflexivity).
  split; [exact H1|]. split; [exact H2|]. split; [exact H3|]. split; [exact H4|].
  destruct (authenticate_select_then_abort 0 "plain" fresh_world H1 H2 H3 H4)
    as (Hs1 & _ & Hs2 & _).
  split; [exact Hs1 | exact Hs2].
Defined.

(** X19: six bytes without a line feed under a limit of four. *)
Lemma data_received_clamp_witness :
  (0 < 4)%Z
  ∧ Framing.data_received "" "abcdef" (Some 4%Z) = ([], "abcd")
  ∧ Framing.data_received "" "abcdef" None = ([], "abcdef").
Proof.
  split; [reflexivity|].
  destruct (data_received_clamp "" "abcdef" 4 eq_refl) as (_ & _ & _ & _).
  split; vm_compute; reflexivity.
Defined.

(** X20 for a session that is an operator already: +o is skipped, and
    the property is on after the call because it was on before. *)
Lemma set_legacy_modes_never_grants_witness :
  (∀ i p, dict_get i user_mode_items = Some p →
          casefold p = casefold "special:oper" → i = "o")
  ∧ prop_get (props (sess (set_legacy_modes 0 "+oi" oper_world) 0)) "special:oper" = true
  ∧ prop_get (props (sess oper_world 0)) "special:oper" = true.
Proof.
  assert (Honly : ∀ i p, dict_get i user_mode_items = Some p →
                         casefold p = casefold "special:oper" → i = "o").
  { intros i p. simpl.
    destruct (String.eqb i "i") eqn:E1.
    { intros [= <-] Hp. vm_compute in Hp. discriminate. }
    destruct (String.eqb i "o") eqn:E2.
    { intros _ _. by apply String.eqb_eq. }
    destruct (String.eqb i "w") eqn:E3.
    { intros [= <-] Hp. vm_compute in Hp. discriminate. }
    discriminate. }
  split; [exact Honly|].
  assert (Hafter : prop_get (props (sess (set_legacy_modes 0 "+oi" oper_world) 0))
                     "special:oper" = true) by (vm_compute; reflexivity).
  split; [exact Hafter|].
  exact (proj1 (set_legacy_modes_never_grants 0 "+oi" "special:oper" oper_world Honly)
           Hafter).
Defined.

End ExtraFacts.
